(** * Tudat: polyhedron gravity field and USM-EM element conversion

    A shallow embedding of
      - [include/tudat/astro/gravitation/polyhedronGravityField.h]
        (classes [PolyhedronGravityCache] and [PolyhedronGravityField]), and
      - the input guards of
        [convertKeplerianToUnifiedStateModelWithExponentialMapElements], as
        exercised by
        [unitTestUnifiedStateModelWithExponentialMapElementConversions.cpp],
      - the free functions and [Body::setIsBodyInPropagation] of
        [src/simulation/environment_setup/body.cpp], and
      - the function templates of
        [include/tudat/simulation/estimation_setup/createObservationPartialsRefactor.h].

    C++ [double] is the kernel's binary64 float, [int] entries of
    [Eigen::MatrixXi] are [Z], Eigen matrices are lists of rows, [std::vector]
    is [list].  A member function that mutates the cache is a function that
    returns the new object next to its result. *)

From Stdlib Require Import Floats List ZArith Bool String Lia.
From Stdlib Require Import Permutation.
Import ListNotations.

#[local] Open Scope float_scope.
#[local] Set Warnings "-inexact-float".

(** ** Scalars *)

Definition double : Set := float.

(** [TUDAT_NAN] and [mathematical_constants::PI] are defined outside the
    files at hand; they are the quiet NaN and the binary64 value nearest to
    pi. *)
Definition TUDAT_NAN : double := nan.
Definition PI : double := 0x1.921fb54442d18p+1.

(** [std::isnan]: the only value that differs from itself. *)
Definition isnan (x : double) : bool := negb (x =? x).

(** The functions of [<cmath>] that the kernel's floats do not provide. *)
Class CMath : Type := {
  atan2 : double -> double -> double;
  log : double -> double
}.

(** ** Exceptions

    A call either returns or leaves by an exception; the only exception the
    modelled code and its tests mention is [std::runtime_error]. *)

Inductive error_kind : Set :=
| DegenerateGeometryError
| InconsistentShapeError.

Inductive exception : Set :=
| runtime_error (what : error_kind).

Inductive result (A : Type) : Type :=
| Return (a : A)
| Throw (e : exception).

Arguments Return {A} a.
Arguments Throw {A} e.

(** ** Eigen types, at the sizes the header documents *)

(** [Eigen::Vector3d]. *)
Record Vector3d : Set := mkVector3d { vx : double; vy : double; vz : double }.

(** A 3x3 block of doubles, by rows ([Eigen::Matrix3d], and each dyad held in
    a [std::vector< Eigen::MatrixXd >]). *)
Record Matrix3d : Set := mkMatrix3d { row0 : Vector3d; row1 : Vector3d; row2 : Vector3d }.

(** [Eigen::MatrixXd] with one (x,y,z) row per vertex; a default-constructed
    one has no rows. *)
Definition MatrixXd : Set := list Vector3d.

(** [Eigen::VectorXd]; a default-constructed one has size 0. *)
Definition VectorXd : Set := list double.

(** [Eigen::MatrixXi] with three vertex indices per row (facets) and with two
    (edges), 0 indexed. *)
Definition FacetRow : Set := (Z * Z * Z)%type.
Definition EdgeRow : Set := (Z * Z)%type.
Definition MatrixXi3 : Set := list FacetRow.
Definition MatrixXi2 : Set := list EdgeRow.

Definition nanVector3d : Vector3d := mkVector3d TUDAT_NAN TUDAT_NAN TUDAT_NAN.

Definition vsub (a b : Vector3d) : Vector3d :=
  mkVector3d (vx a - vx b) (vy a - vy b) (vz a - vz b).

Definition dot (a b : Vector3d) : double :=
  vx a * vx b + vy a * vy b + vz a * vz b.

Definition cross (a b : Vector3d) : Vector3d :=
  mkVector3d (vy a * vz b - vz a * vy b)
             (vz a * vx b - vx a * vz b)
             (vx a * vy b - vy a * vx b).

Definition norm (a : Vector3d) : double := PrimFloat.sqrt (dot a a).

(** [r.transpose() * D * r]: the row vector [r^T D] first, then its product
    with [r]. *)
Definition quadraticForm (r : Vector3d) (D : Matrix3d) : double :=
  let c0 := vx r * vx (row0 D) + vy r * vx (row1 D) + vz r * vx (row2 D) in
  let c1 := vx r * vy (row0 D) + vy r * vy (row1 D) + vz r * vy (row2 D) in
  let c2 := vx r * vz (row0 D) + vy r * vz (row1 D) + vz r * vz (row2 D) in
  c0 * vx r + c1 * vy r + c2 * vz r.

(** Row [i] of a vertex matrix.  Eigen leaves a read outside the matrix
    undefined; the model answers it with a NaN row. *)
Definition vertexRow (m : MatrixXd) (i : Z) : Vector3d :=
  if (i <? 0)%Z then nanVector3d else nth (Z.to_nat i) m nanVector3d.

(** Running sum of a loop [for (...) sum += term], from 0. *)
Definition sumOf (terms : list double) : double :=
  fold_left (fun acc t => acc + t) terms 0.

(** ** Free functions declared in the header *)

(** Modelled from the spec: the body of
    [calculatePolyhedronVerticesCoordinatesRelativeToFieldPoint] is not in the
    header.  "compute, for every vertex, its coordinate relative to
    position". *)
Definition calculatePolyhedronVerticesCoordinatesRelativeToFieldPoint
    (bodyFixedPosition : Vector3d) (verticesCoordinates : MatrixXd) : MatrixXd :=
  map (fun v => vsub v bodyFixedPosition) verticesCoordinates.

(** Eq. 27 of Werner and Scheeres (1997) for one facet with vertices at
    [ri], [rj], [rk] relative to the field point: the signed solid angle. *)
Definition facetFactor `{CMath} (ri rj rk : Vector3d) : double :=
  let ni := norm ri in
  let nj := norm rj in
  let nk := norm rk in
  let numerator := dot ri (cross rj rk) in
  let denominator :=
    ni * nj * nk + ni * dot rj rk + nj * dot rk ri + nk * dot ri rj in
  2 * atan2 numerator denominator.

(** Eq. 7 of Werner and Scheeres (1997) for one edge with end points at [ri],
    [rj] relative to the field point: the logarithm of vertex distances. *)
Definition edgeFactor `{CMath} (ri rj : Vector3d) : double :=
  let a := norm ri in
  let b := norm rj in
  let e := norm (vsub rj ri) in
  log ((a + b + e) / (a + b - e)).

(** Modelled from the spec: the body of [calculatePolyhedronPerFacetFactor]
    is not in the header.  "for every facet, compute a scalar factor per
    Werner & Scheeres (1997) Eq. 27". *)
Definition calculatePolyhedronPerFacetFactor `{CMath}
    (verticesCoordinatesRelativeToFieldPoint : MatrixXd)
    (verticesDefiningEachFacet : MatrixXi3) : VectorXd :=
  map (fun '(i, j, k) =>
         facetFactor (vertexRow verticesCoordinatesRelativeToFieldPoint i)
                     (vertexRow verticesCoordinatesRelativeToFieldPoint j)
                     (vertexRow verticesCoordinatesRelativeToFieldPoint k))
      verticesDefiningEachFacet.

(** Modelled from the spec: the body of [calculatePolyhedronPerEdgeFactor] is
    not in the header.  "for every edge, compute a scalar factor per
    Eq. 7". *)
Definition calculatePolyhedronPerEdgeFactor `{CMath}
    (verticesCoordinatesRelativeToFieldPoint : MatrixXd)
    (verticesDefiningEachEdge : MatrixXi2) : VectorXd :=
  map (fun '(i, j) =>
         edgeFactor (vertexRow verticesCoordinatesRelativeToFieldPoint i)
                    (vertexRow verticesCoordinatesRelativeToFieldPoint j))
      verticesDefiningEachEdge.

(** One term of a sum over edges or facets: the dyad's quadratic form in the
    relative position of the element's first vertex, times the element's
    factor. *)
Definition weightedQuadraticForm
    (coordinates : MatrixXd) (firstVertex : Z) (dyad : Matrix3d)
    (factor : double) : double :=
  quadraticForm (vertexRow coordinates firstVertex) dyad * factor.

Definition nanMatrix3d : Matrix3d := mkMatrix3d nanVector3d nanVector3d nanVector3d.

(** The terms of the loop [for (edge = 0; edge < edges.rows(); ++edge)]:
    one term for every row of the edge matrix, with the dyad and the factor
    read at the same index.  A read past the end of [edgeDyads] or of
    [perEdgeFactor] has no value in C++; the model answers it with NaN, so
    that no edge is left out of the sum. *)
Definition perEdgeTerms (coordinates : MatrixXd) (edges : MatrixXi2)
    (edgeDyads : list Matrix3d) (perEdgeFactor : VectorXd) : list double :=
  map (fun edge : nat =>
         weightedQuadraticForm coordinates
           (fst (nth edge edges (0, 0)%Z))
           (nth edge edgeDyads nanMatrix3d)
           (nth edge perEdgeFactor TUDAT_NAN))
      (seq 0 (List.length edges)).

(** The same for the loop over the rows of the facet matrix. *)
Definition perFacetTerms (coordinates : MatrixXd) (facets : MatrixXi3)
    (facetDyads : list Matrix3d) (perFacetFactor : VectorXd) : list double :=
  map (fun facet : nat =>
         weightedQuadraticForm coordinates
           (fst (fst (nth facet facets (0, 0, 0)%Z)))
           (nth facet facetDyads nanMatrix3d)
           (nth facet perFacetFactor TUDAT_NAN))
      (seq 0 (List.length facets)).

(** Modelled from the spec: the body of
    [calculatePolyhedronGravitationalPotential] is not in the header.
    "sum over edges of (edge dyad contracted with relative-position quadratic
    form x per-edge factor) minus sum over facets of (facet dyad contracted x
    per-facet factor), times the density constant halved". *)
Definition calculatePolyhedronGravitationalPotential
    (gravitationalConstantTimesDensity : double)
    (verticesCoordinatesRelativeToFieldPoint : MatrixXd)
    (verticesDefiningEachFacet : MatrixXi3)
    (verticesDefiningEachEdge : MatrixXi2)
    (facetDyads edgeDyads : list Matrix3d)
    (perFacetFactor perEdgeFactor : VectorXd) : double :=
  let perEdgeSum :=
    sumOf (perEdgeTerms verticesCoordinatesRelativeToFieldPoint
             verticesDefiningEachEdge edgeDyads perEdgeFactor) in
  let perFacetSum :=
    sumOf (perFacetTerms verticesCoordinatesRelativeToFieldPoint
             verticesDefiningEachFacet facetDyads perFacetFactor) in
  0.5 * gravitationalConstantTimesDensity * (perEdgeSum - perFacetSum).

(** Modelled from the spec: the body of
    [calculatePolyhedronLaplacianOfGravitationalPotential] is not in the
    header.  The header documents it as "according to Eq. 17 of Werner and
    Scheeres (1997)", which is minus the density constant times the sum of
    the per-facet factors; the spec gives the values this has to produce,
    "should equal 0 outside the body, -4 pi G rho inside".  The per-facet
    factors of Eq. 27 are the solid angles of the facets, which add up to
    4 pi inside the body and to 0 outside, so Eq. 17 as cited gives exactly
    these values.  The spec's other wording, "density constant times (-4 pi x
    sum of per-facet factors)", would multiply by 4 pi a second time and is
    not what is modelled. *)
Definition calculatePolyhedronLaplacianOfGravitationalPotential
    (gravitationalConstantTimesDensity : double)
    (perFacetFactor : VectorXd) : double :=
  - gravitationalConstantTimesDensity * sumOf perFacetFactor.

(** The header declares the gradient (Eq. 15) and the Hessian (Eq. 16) by
    signature only, and nothing proved below depends on the values they
    return. *)
Class DeclaredEvaluators : Type := {
  calculatePolyhedronGradientOfGravitationalPotential :
    double -> MatrixXd -> MatrixXi3 -> MatrixXi2 ->
    list Matrix3d -> list Matrix3d -> VectorXd -> VectorXd -> Vector3d;
  calculatePolyhedronHessianOfGravitationalPotential :
    double -> list Matrix3d -> list Matrix3d -> VectorXd -> VectorXd -> Matrix3d
}.

(** ** class PolyhedronGravityCache *)

Module PolyhedronGravityCache.

Record t : Set := mk {
  currentBodyFixedPosition_ : Vector3d;
  verticesCoordinates_ : MatrixXd;                    (* const *)
  verticesDefiningEachFacet_ : MatrixXi3;             (* const *)
  verticesDefiningEachEdge_ : MatrixXi2;              (* const *)
  currentVerticesCoordinatesRelativeToFieldPoint_ : MatrixXd;
  currentPerFacetFactor_ : VectorXd;
  currentPerEdgeFactor_ : VectorXd
}.

(** The object the constructor leaves behind: the three arguments are
    copied by the member initialisers, the body stores the NaN position,
    and the three [current...] members are default-constructed. *)
Definition init (verticesCoordinates : MatrixXd)
    (verticesDefiningEachFacet : MatrixXi3)
    (verticesDefiningEachEdge : MatrixXi2) : t :=
  {| currentBodyFixedPosition_ := mkVector3d TUDAT_NAN TUDAT_NAN TUDAT_NAN;
     verticesCoordinates_ := verticesCoordinates;
     verticesDefiningEachFacet_ := verticesDefiningEachFacet;
     verticesDefiningEachEdge_ := verticesDefiningEachEdge;
     currentVerticesCoordinatesRelativeToFieldPoint_ := [];
     currentPerFacetFactor_ := [];
     currentPerEdgeFactor_ := [] |}.

(** The constructor as a call that could leave by an exception; its body
    has no [throw] and inspects none of its arguments. *)
Definition constructor (verticesCoordinates : MatrixXd)
    (verticesDefiningEachFacet : MatrixXi3)
    (verticesDefiningEachEdge : MatrixXi2) : result t :=
  Return (init verticesCoordinates verticesDefiningEachFacet
            verticesDefiningEachEdge).

(** Modelled from the spec: the body of [update] is not in the header.
    "(1) compute, for every vertex, its coordinate relative to position;
    (2) for every facet, compute a scalar factor per Eq. 27; (3) for every
    edge, compute a scalar factor per Eq. 7"; the cache "holds the current
    body-fixed query position". *)
Definition update `{CMath} (c : t) (currentBodyFixedPosition : Vector3d) : t :=
  let relative :=
    calculatePolyhedronVerticesCoordinatesRelativeToFieldPoint
      currentBodyFixedPosition (verticesCoordinates_ c) in
  {| currentBodyFixedPosition_ := currentBodyFixedPosition;
     verticesCoordinates_ := verticesCoordinates_ c;
     verticesDefiningEachFacet_ := verticesDefiningEachFacet_ c;
     verticesDefiningEachEdge_ := verticesDefiningEachEdge_ c;
     currentVerticesCoordinatesRelativeToFieldPoint_ := relative;
     currentPerFacetFactor_ :=
       calculatePolyhedronPerFacetFactor relative (verticesDefiningEachFacet_ c);
     currentPerEdgeFactor_ :=
       calculatePolyhedronPerEdgeFactor relative (verticesDefiningEachEdge_ c) |}.

(** Modelled from the spec: whether [update] looks at the cached position
    is not in the header.  "implementers may skip recomputation when the
    position bit-matches the cached one, but this is an optimization, not a
    contract": an implementation recomputes on every call, or returns at
    once when the three components of the position are the very values it
    holds. *)
Inductive UpdatePolicy : Set :=
| AlwaysRecompute
| SkipWhenPositionBitMatches.

Definition bitMatches (a b : Vector3d) : bool :=
  PrimFloat.Leibniz.eqb (vx a) (vx b)
  && PrimFloat.Leibniz.eqb (vy a) (vy b)
  && PrimFloat.Leibniz.eqb (vz a) (vz b).

Definition updateWith `{CMath} (policy : UpdatePolicy) (c : t)
    (currentBodyFixedPosition : Vector3d) : t :=
  match policy with
  | AlwaysRecompute => update c currentBodyFixedPosition
  | SkipWhenPositionBitMatches =>
      if bitMatches currentBodyFixedPosition (currentBodyFixedPosition_ c)
      then c
      else update c currentBodyFixedPosition
  end.

Definition getVerticesCoordinatesRelativeToFieldPoint (c : t) : MatrixXd :=
  currentVerticesCoordinatesRelativeToFieldPoint_ c.

Definition getPerFacetFactor (c : t) : VectorXd := currentPerFacetFactor_ c.

Definition getPerEdgeFactor (c : t) : VectorXd := currentPerEdgeFactor_ c.

End PolyhedronGravityCache.

(** ** Calls on the cache, recorded

    The evaluators reach the cache through [polyhedronGravityCache_->...].
    A computation of type [CacheM A] runs on the cache object, may replace
    it, and records every member function it calls, oldest first. *)

Inductive CacheCall : Set :=
| CallUpdate (position : Vector3d)
| CallGetVerticesCoordinatesRelativeToFieldPoint
| CallGetPerFacetFactor
| CallGetPerEdgeFactor.

Definition isUpdate (c : CacheCall) : bool :=
  match c with CallUpdate _ => true | _ => false end.

Definition CacheM (A : Type) : Type :=
  PolyhedronGravityCache.t -> A * PolyhedronGravityCache.t * list CacheCall.

Definition ret {A : Type} (a : A) : CacheM A := fun c => (a, c, []).

Definition bind {A B : Type} (m : CacheM A) (k : A -> CacheM B) : CacheM B :=
  fun c =>
    let '(a, c1, calls1) := m c in
    let '(b, c2, calls2) := k a c1 in
    (b, c2, calls1 ++ calls2).

Notation "x <- m ;; k" := (bind m (fun x => k))
  (at level 61, m at next level, right associativity).
Notation "m ;;; k" := (bind m (fun _ => k))
  (at level 61, right associativity).

Definition callUpdate `{CMath} (position : Vector3d) : CacheM unit :=
  fun c => (tt, PolyhedronGravityCache.update c position, [CallUpdate position]).

Definition callGetVerticesCoordinatesRelativeToFieldPoint : CacheM MatrixXd :=
  fun c => (PolyhedronGravityCache.getVerticesCoordinatesRelativeToFieldPoint c,
            c, [CallGetVerticesCoordinatesRelativeToFieldPoint]).

Definition callGetPerFacetFactor : CacheM VectorXd :=
  fun c => (PolyhedronGravityCache.getPerFacetFactor c, c, [CallGetPerFacetFactor]).

Definition callGetPerEdgeFactor : CacheM VectorXd :=
  fun c => (PolyhedronGravityCache.getPerEdgeFactor c, c, [CallGetPerEdgeFactor]).

(** ** class PolyhedronGravityField *)

Module PolyhedronGravityField.

(** [polyhedronGravityCache_] is the object behind the [std::shared_ptr];
    the constructor creates it and no member hands the pointer out, so the
    field is its only owner.  The base class [GravityFieldModel] and the
    [updateInertiaTensor] callback it receives are outside the header. *)
Record t : Set := mk {
  gravitationalParameter_ : double;                   (* const *)
  volume_ : double;                                   (* const *)
  verticesCoordinates_ : MatrixXd;                    (* const *)
  verticesDefiningEachFacet_ : MatrixXi3;             (* const *)
  verticesDefiningEachEdge_ : MatrixXi2;              (* const *)
  facetDyads_ : list Matrix3d;
  edgeDyads_ : list Matrix3d;
  polyhedronGravityCache_ : PolyhedronGravityCache.t;
  fixedReferenceFrame_ : string
}.

(** The constructor's arguments. *)
Record arguments : Set := mkArguments {
  gravitationalParameter : double;
  volume : double;
  verticesCoordinates : MatrixXd;
  verticesDefiningEachFacet : MatrixXi3;
  verticesDefiningEachEdge : MatrixXi2;
  facetDyads : list Matrix3d;
  edgeDyads : list Matrix3d;
  fixedReferenceFrame : string
}.

Definition init (a : arguments) : t :=
  {| gravitationalParameter_ := gravitationalParameter a;
     volume_ := volume a;
     verticesCoordinates_ := verticesCoordinates a;
     verticesDefiningEachFacet_ := verticesDefiningEachFacet a;
     verticesDefiningEachEdge_ := verticesDefiningEachEdge a;
     facetDyads_ := facetDyads a;
     edgeDyads_ := edgeDyads a;
     polyhedronGravityCache_ :=
       PolyhedronGravityCache.init (verticesCoordinates a)
         (verticesDefiningEachFacet a) (verticesDefiningEachEdge a);
     fixedReferenceFrame_ := fixedReferenceFrame a |}.

(** As for the cache: no [throw], no look at the arguments; the cache
    constructor it calls returns as well. *)
Definition constructor (a : arguments) : result t :=
  match PolyhedronGravityCache.constructor (verticesCoordinates a)
          (verticesDefiningEachFacet a) (verticesDefiningEachEdge a) with
  | Return c =>
      Return {| gravitationalParameter_ := gravitationalParameter a;
                volume_ := volume a;
                verticesCoordinates_ := verticesCoordinates a;
                verticesDefiningEachFacet_ := verticesDefiningEachFacet a;
                verticesDefiningEachEdge_ := verticesDefiningEachEdge a;
                facetDyads_ := facetDyads a;
                edgeDyads_ := edgeDyads a;
                polyhedronGravityCache_ := c;
                fixedReferenceFrame_ := fixedReferenceFrame a |}
  | Throw e => Throw e
  end.

(** The evaluators' bodies, as computations on the cache.  The getter
    calls are arguments of one call expression; they change nothing, so
    the order in which they are recorded is immaterial. *)
Definition getGravitationalPotentialM `{CMath} (f : t)
    (bodyFixedPosition : Vector3d) : CacheM double :=
  callUpdate bodyFixedPosition ;;;
  coordinates <- callGetVerticesCoordinatesRelativeToFieldPoint ;;
  perFacetFactor <- callGetPerFacetFactor ;;
  perEdgeFactor <- callGetPerEdgeFactor ;;
  ret (calculatePolyhedronGravitationalPotential
         (gravitationalParameter_ f / volume_ f)
         coordinates
         (verticesDefiningEachFacet_ f)
         (verticesDefiningEachEdge_ f)
         (facetDyads_ f)
         (edgeDyads_ f)
         perFacetFactor
         perEdgeFactor).

Definition getGradientOfPotentialM `{CMath} `{DeclaredEvaluators} (f : t)
    (bodyFixedPosition : Vector3d) : CacheM Vector3d :=
  callUpdate bodyFixedPosition ;;;
  coordinates <- callGetVerticesCoordinatesRelativeToFieldPoint ;;
  perFacetFactor <- callGetPerFacetFactor ;;
  perEdgeFactor <- callGetPerEdgeFactor ;;
  ret (calculatePolyhedronGradientOfGravitationalPotential
         (gravitationalParameter_ f / volume_ f)
         coordinates
         (verticesDefiningEachFacet_ f)
         (verticesDefiningEachEdge_ f)
         (facetDyads_ f)
         (edgeDyads_ f)
         perFacetFactor
         perEdgeFactor).

Definition getHessianOfPotentialM `{CMath} `{DeclaredEvaluators} (f : t)
    (bodyFixedPosition : Vector3d) : CacheM Matrix3d :=
  callUpdate bodyFixedPosition ;;;
  perFacetFactor <- callGetPerFacetFactor ;;
  perEdgeFactor <- callGetPerEdgeFactor ;;
  ret (calculatePolyhedronHessianOfGravitationalPotential
         (gravitationalParameter_ f / volume_ f)
         (facetDyads_ f)
         (edgeDyads_ f)
         perFacetFactor
         perEdgeFactor).

Definition getLaplacianOfPotentialM `{CMath} (f : t)
    (bodyFixedPosition : Vector3d) : CacheM double :=
  callUpdate bodyFixedPosition ;;;
  perFacetFactor <- callGetPerFacetFactor ;;
  ret (calculatePolyhedronLaplacianOfGravitationalPotential
         (gravitationalParameter_ f / volume_ f)
         perFacetFactor).

(** Running a body on the field's own cache: the value returned, the field
    afterwards, and the cache calls made. *)
Definition withCache {A : Type} (f : t) (m : CacheM A) : A * t * list CacheCall :=
  let '(a, c, calls) := m (polyhedronGravityCache_ f) in
  (a,
   {| gravitationalParameter_ := gravitationalParameter_ f;
      volume_ := volume_ f;
      verticesCoordinates_ := verticesCoordinates_ f;
      verticesDefiningEachFacet_ := verticesDefiningEachFacet_ f;
      verticesDefiningEachEdge_ := verticesDefiningEachEdge_ f;
      facetDyads_ := facetDyads_ f;
      edgeDyads_ := edgeDyads_ f;
      polyhedronGravityCache_ := c;
      fixedReferenceFrame_ := fixedReferenceFrame_ f |},
   calls).

Definition getGravitationalPotential `{CMath} (f : t) (p : Vector3d) :=
  withCache f (getGravitationalPotentialM f p).

Definition getGradientOfPotential `{CMath} `{DeclaredEvaluators} (f : t) (p : Vector3d) :=
  withCache f (getGradientOfPotentialM f p).

Definition getHessianOfPotential `{CMath} `{DeclaredEvaluators} (f : t) (p : Vector3d) :=
  withCache f (getHessianOfPotentialM f p).

Definition getLaplacianOfPotential `{CMath} (f : t) (p : Vector3d) :=
  withCache f (getLaplacianOfPotentialM f p).

Definition getFixedReferenceFrame (f : t) : string := fixedReferenceFrame_ f.
Definition getVolume (f : t) : double := volume_ f.
Definition getVerticesCoordinates (f : t) : MatrixXd := verticesCoordinates_ f.
Definition getVerticesDefiningEachFacet (f : t) : MatrixXi3 :=
  verticesDefiningEachFacet_ f.
Definition getVerticesDefiningEachEdge (f : t) : MatrixXi2 :=
  verticesDefiningEachEdge_ f.
Definition getFacetDyads (f : t) : list Matrix3d := facetDyads_ f.
Definition getEdgeDyads (f : t) : list Matrix3d := edgeDyads_ f.

(** *** Sequences of evaluator calls *)

Inductive Evaluator : Set :=
| GravitationalPotential
| GradientOfPotential
| HessianOfPotential
| LaplacianOfPotential.

Inductive Value : Set :=
| Scalar (d : double)
| Vector (v : Vector3d)
| Matrix (m : Matrix3d).

Definition evaluate `{CMath} `{DeclaredEvaluators} (e : Evaluator) (f : t)
    (p : Vector3d) : Value * t * list CacheCall :=
  match e with
  | GravitationalPotential =>
      let '(d, f', calls) := getGravitationalPotential f p in (Scalar d, f', calls)
  | GradientOfPotential =>
      let '(v, f', calls) := getGradientOfPotential f p in (Vector v, f', calls)
  | HessianOfPotential =>
      let '(m, f', calls) := getHessianOfPotential f p in (Matrix m, f', calls)
  | LaplacianOfPotential =>
      let '(d, f', calls) := getLaplacianOfPotential f p in (Scalar d, f', calls)
  end.

(** The field after a sequence of evaluator calls, first call first. *)
Fixpoint afterCalls `{CMath} `{DeclaredEvaluators} (f : t)
    (calls : list (Evaluator * Vector3d)) : t :=
  match calls with
  | [] => f
  | (e, p) :: rest => afterCalls (snd (fst (evaluate e f p))) rest
  end.

End PolyhedronGravityField.

(** Projections of what an evaluator call yields. *)
Definition valueOf {A S C : Type} (r : A * S * C) : A := fst (fst r).
Definition objectAfter {A S C : Type} (r : A * S * C) : S := snd (fst r).
Definition callsOf {A S C : Type} (r : A * S * C) : C := snd r.

(** The members of a field that describe the shape, as one tuple. *)
Definition shapeOf (f : PolyhedronGravityField.t) :=
  (PolyhedronGravityField.gravitationalParameter_ f,
   PolyhedronGravityField.volume_ f,
   PolyhedronGravityField.verticesCoordinates_ f,
   PolyhedronGravityField.verticesDefiningEachFacet_ f,
   PolyhedronGravityField.verticesDefiningEachEdge_ f,
   PolyhedronGravityField.facetDyads_ f,
   PolyhedronGravityField.edgeDyads_ f,
   PolyhedronGravityField.fixedReferenceFrame_ f).

(** The shape a cache object was constructed with. *)
Definition cacheShapeOf (c : PolyhedronGravityCache.t) :=
  (PolyhedronGravityCache.verticesCoordinates_ c,
   PolyhedronGravityCache.verticesDefiningEachFacet_ c,
   PolyhedronGravityCache.verticesDefiningEachEdge_ c).

(** ** Vocabulary of the claims about shapes and NaN *)

(** A vertex index that addresses a row of a matrix with [numberOfVertices]
    rows. *)
Definition indexInRange (numberOfVertices : nat) (i : Z) : bool :=
  ((0 <=? i) && (i <? Z.of_nat numberOfVertices))%Z.

(** Malformed connectivity: some facet row or edge row holds a vertex index
    out of range of the vertex coordinate list. *)
Definition malformedConnectivity (verticesCoordinates : MatrixXd)
    (verticesDefiningEachFacet : MatrixXi3)
    (verticesDefiningEachEdge : MatrixXi2) : bool :=
  let ok := indexInRange (List.length verticesCoordinates) in
  existsb (fun '(i, j, k) => negb (ok i && ok j && ok k)) verticesDefiningEachFacet
  || existsb (fun '(i, j) => negb (ok i && ok j)) verticesDefiningEachEdge.

(** Some entry of the vector, or of the matrix, is NaN. *)
Definition vectorHoldsNaN (v : VectorXd) : bool := existsb isnan v.

Definition matrixHoldsNaN (m : MatrixXd) : bool :=
  existsb (fun r => isnan (vx r) || isnan (vy r) || isnan (vz r)) m.

(** ** Keplerian to USM-EM conversion: the input guards *)

(** [Eigen::Vector6d]. *)
Record Vector6d : Set := mkVector6d {
  coeff0 : double; coeff1 : double; coeff2 : double;
  coeff3 : double; coeff4 : double; coeff5 : double
}.

(** Modelled from the spec: [stateVectorIndices.h] is not at hand; the
    Keplerian element set is "semi-major axis (or semi-latus rectum when
    eccentricity = 1), eccentricity, inclination, argument of periapsis,
    longitude of ascending node, true anomaly", in that order. *)
Definition semiMajorAxis (k : Vector6d) : double := coeff0 k.
Definition eccentricity (k : Vector6d) : double := coeff1 k.
Definition inclination (k : Vector6d) : double := coeff2 k.
Definition argumentOfPeriapsis (k : Vector6d) : double := coeff3 k.
Definition longitudeOfAscendingNode (k : Vector6d) : double := coeff4 k.
Definition trueAnomaly (k : Vector6d) : double := coeff5 k.

(** [unit_conversions::convertDegreesToRadians], used by the tests to build
    their inputs. *)
Definition convertDegreesToRadians (angleInDegrees : double) : double :=
  angleInDegrees / 180 * PI.

(** The numerical part of the conversion (hodograph components and
    exponential map) needs sine, cosine and their inverses on doubles and is
    not in the files at hand. *)
Class HodographAndExponentialMap : Type := {
  unifiedStateModelElementsOf : Vector6d -> double -> Vector6d
}.

(** Modelled from the spec: the body of
    [convertKeplerianToUnifiedStateModelWithExponentialMapElements] is not in
    the files at hand.  It "fails with a degenerate geometry error" when
    "eccentricity = 0 and argument-of-periapsis <> 0", when "inclination = 0
    and longitude-of-ascending-node <> 0", and when "inclination outside
    [0, pi]"; the tests catch it as [std::runtime_error]. *)
Definition convertKeplerianToUnifiedStateModelWithExponentialMapElements
    `{HodographAndExponentialMap}
    (keplerianElements : Vector6d)
    (centralBodyGravitationalParameter : double) : result Vector6d :=
  if (eccentricity keplerianElements =? 0)
     && negb (argumentOfPeriapsis keplerianElements =? 0)
  then Throw (runtime_error DegenerateGeometryError)
  else if (inclination keplerianElements =? 0)
          && negb (longitudeOfAscendingNode keplerianElements =? 0)
  then Throw (runtime_error DegenerateGeometryError)
  else if (inclination keplerianElements <? 0)
          || (PI <? inclination keplerianElements)
  then Throw (runtime_error DegenerateGeometryError)
  else Return (unifiedStateModelElementsOf keplerianElements
                 centralBodyGravitationalParameter).

(** ** Concrete data used by the examples *)

(** A unit right tetrahedron: 4 vertices, 4 facets, 6 edges. *)
Definition tetrahedronVertices : MatrixXd :=
  [ mkVector3d 0 0 0; mkVector3d 1 0 0; mkVector3d 0 1 0; mkVector3d 0 0 1 ].

Definition tetrahedronFacets : MatrixXi3 :=
  [ (0, 2, 1); (0, 1, 3); (0, 3, 2); (1, 2, 3) ]%Z.

Definition tetrahedronEdges : MatrixXi2 :=
  [ (0, 1); (0, 2); (0, 3); (1, 2); (1, 3); (2, 3) ]%Z.

(** The same vertices with a facet and an edge that name vertex 7. *)
Definition brokenFacets : MatrixXi3 :=
  [ (0, 2, 1); (0, 1, 7); (0, 3, 2); (1, 2, 3) ]%Z.

Definition brokenEdges : MatrixXi2 :=
  [ (0, 1); (0, 2); (0, 7); (1, 2); (1, 3); (2, 3) ]%Z.

Definition identityDyad : Matrix3d :=
  mkMatrix3d (mkVector3d 1 0 0) (mkVector3d 0 1 0) (mkVector3d 0 0 1).

Definition brokenArguments : PolyhedronGravityField.arguments :=
  PolyhedronGravityField.mkArguments 1 0x1p-2 tetrahedronVertices
    brokenFacets brokenEdges
    [identityDyad; identityDyad; identityDyad; identityDyad]
    [identityDyad; identityDyad; identityDyad; identityDyad; identityDyad; identityDyad]
    "Asteroid_Fixed".

(** The tetrahedron as a gravity field: one dyad for each facet and for each
    edge. *)
Definition tetrahedronArguments : PolyhedronGravityField.arguments :=
  PolyhedronGravityField.mkArguments 1 0x1p-2 tetrahedronVertices
    tetrahedronFacets tetrahedronEdges
    [identityDyad; identityDyad; identityDyad; identityDyad]
    [identityDyad; identityDyad; identityDyad; identityDyad; identityDyad; identityDyad]
    "Asteroid_Fixed".






(** Stand-ins for [<cmath>] and for the evaluators the header only declares,
    for running the model on concrete data; they are no approximation of the
    real functions. *)
Definition exampleCMath : CMath :=
  {| atan2 := fun y x => y / (PrimFloat.abs x + 1); log := fun x => x - 1 |}.

Definition exampleDeclaredEvaluators : DeclaredEvaluators :=
  {| calculatePolyhedronGradientOfGravitationalPotential :=
       fun _ _ _ _ _ _ _ _ => mkVector3d 0 0 0;
     calculatePolyhedronHessianOfGravitationalPotential :=
       fun _ _ _ _ _ => mkMatrix3d (mkVector3d 0 0 0) (mkVector3d 0 0 0) (mkVector3d 0 0 0) |}.

Definition exampleHodographAndExponentialMap : HodographAndExponentialMap :=
  {| unifiedStateModelElementsOf := fun k _ => k |}.

(** The Keplerian elements of the conversion test's case 8: eccentricity,
    argument of periapsis and longitude of ascending node 0, inclination
    200 degrees. *)
Definition case8KeplerianElements : Vector6d :=
  mkVector6d 1.5e11 0 (convertDegreesToRadians 200) 0 0
             (convertDegreesToRadians 170).

(** Case 4: eccentricity 0 with argument of periapsis 350 degrees. *)
Definition case4KeplerianElements : Vector6d :=
  mkVector6d 1.5e11 0 (convertDegreesToRadians 50) (convertDegreesToRadians 350)
             (convertDegreesToRadians 15) (convertDegreesToRadians 170).

(** Case 5: inclination 0 with longitude of ascending node 15 degrees. *)
Definition case5KeplerianElements : Vector6d :=
  mkVector6d 1.5e11 0.1 0 (convertDegreesToRadians 350)
             (convertDegreesToRadians 15) (convertDegreesToRadians 170).

(** Case 6: inclination exactly [PI]. *)
Definition case6KeplerianElements : Vector6d :=
  mkVector6d 1.5e11 0.1 PI (convertDegreesToRadians 350)
             (convertDegreesToRadians 15) (convertDegreesToRadians 170).

Definition centralBodyGravitationalParameter : double := 1.32712440018e20.

(** ** Exceptions with their message

    The functions of [body.cpp] and [createObservationPartialsRefactor.h]
    throw [std::runtime_error] with a message built from their arguments.
    [thrown_by_at] stands for whatever a container's [at] throws for a key
    it does not hold. *)

Inductive thrown : Set :=
| std_runtime_error (what : string)
| thrown_by_at.

Inductive outcome (A : Type) : Type :=
| Returned (a : A)
| Thrown (e : thrown).

Arguments Returned {A} a.
Arguments Thrown {A} e.

(** ** [std::map], as far as these files use it

    The entries in some order, at most one per key; [m[k] = v] replaces the
    value of a key that is present and adds the entry otherwise. *)

Section StdMap.

Context {K V : Type} (keyEqb : K -> K -> bool).

Fixpoint mapFind (m : list (K * V)) (k : K) : option V :=
  match m with
  | [] => None
  | (k', v) :: rest => if keyEqb k' k then Some v else mapFind rest k
  end.

(** [m.count( k )]: 1 when the key is present, 0 otherwise. *)
Definition mapCount (m : list (K * V)) (k : K) : nat :=
  match mapFind m k with Some _ => 1 | None => 0 end.

Fixpoint mapAssign (m : list (K * V)) (k : K) (v : V) : list (K * V) :=
  match m with
  | [] => [(k, v)]
  | (k', v') :: rest =>
      if keyEqb k' k then (k', v) :: rest else (k', v') :: mapAssign rest k v
  end.

End StdMap.

(** ** [simulation/environment_setup/body.cpp] *)

(** Objects behind a [std::shared_ptr] whose classes are outside the files
    at hand are named by their identity. *)
Definition Ephemeris : Set := nat.

(** [gravitation::GravityFieldModel], as far as [body.cpp] uses it. *)
Record GravityFieldModel : Set := mkGravityFieldModel {
  getGravitationalParameter : double
}.

(** The rotational ephemeris of a body: either an
    [ephemerides::SynchronousRotationalEphemeris], for which the model keeps
    the value last handed to its [setIsBodyInPropagation] (none before the
    first call), or an object of another class. *)
Inductive RotationalEphemeris : Set :=
| SynchronousRotationalEphemeris (identity : nat) (lastSetIsBodyInPropagation : option bool)
| OtherRotationalEphemeris (identity : nat).

(** [simulation_setup::Body], as far as [body.cpp] uses it: the two members
    it names and the three getters it calls.  A null [std::shared_ptr] is
    [None]. *)
Record Body : Set := mkBody {
  isBodyInPropagation_ : bool;
  rotationalEphemeris_ : option RotationalEphemeris;
  getGravityFieldModel : option GravityFieldModel;
  getIsBodyGlobalFrameOrigin : Z;
  getEphemeris : option Ephemeris
}.

(** [NamedBodyMap]: what [getMap( )] iterates over, in iteration order.  The
    functions below write the same value to every body they touch, so two
    names that share one [Body] object read the same as two equal bodies. *)
Definition NamedBodyMap : Set := list (string * Body).

Definition bodyCount (bodyMap : NamedBodyMap) (bodyName : string) : nat :=
  mapCount String.eqb bodyMap bodyName.

Definition bodyAt (bodyMap : NamedBodyMap) (bodyName : string) : outcome Body :=
  match mapFind String.eqb bodyMap bodyName with
  | Some body => Returned body
  | None => Thrown thrown_by_at
  end.

(** [Body::setIsBodyInPropagation]. *)
Definition setIsBodyInPropagation (body : Body) (isBodyInPropagation : bool) : Body :=
  {| isBodyInPropagation_ := isBodyInPropagation;
     rotationalEphemeris_ :=
       match rotationalEphemeris_ body with
       | Some (SynchronousRotationalEphemeris identity _) =>
           Some (SynchronousRotationalEphemeris identity (Some isBodyInPropagation))
       | other => other
       end;
     getGravityFieldModel := getGravityFieldModel body;
     getIsBodyGlobalFrameOrigin := getIsBodyGlobalFrameOrigin body;
     getEphemeris := getEphemeris body |}.

(** [getBodyGravitationalParameter].  The map is const, so the three
    [at( bodyName )] calls yield the same body. *)
Definition getBodyGravitationalParameter (bodyMap : NamedBodyMap)
    (bodyName : string) : outcome double :=
  if (bodyCount bodyMap bodyName =? 0)%nat
  then Thrown (std_runtime_error
                 ("Error when getting gravitational parameter of body "
                  ++ bodyName ++ ", no such body is found"))
  else
    match bodyAt bodyMap bodyName with
    | Thrown e => Thrown e
    | Returned body =>
        match getGravityFieldModel body with
        | None =>
            Thrown (std_runtime_error
                      ("Error when getting gravitational parameter of body "
                       ++ bodyName ++ ", body has not gravity field"))
        | Some gravityFieldModel =>
            Returned (getGravitationalParameter gravityFieldModel)
        end
    end.

(** The loop of [getGlobalFrameOrigin] over the remaining entries, with the
    current value of the local [globalFrameOrigin]. *)
Fixpoint getGlobalFrameOriginFrom (entries : NamedBodyMap)
    (globalFrameOrigin : string) : outcome string :=
  match entries with
  | [] => Returned globalFrameOrigin
  | (name, body) :: rest =>
      if (getIsBodyGlobalFrameOrigin body =? -1)%Z
      then Thrown (std_runtime_error
                     ("Error, body " ++ name
                      ++ " does not have global frame origin set"))
      else if (getIsBodyGlobalFrameOrigin body =? 1)%Z
      then
        if negb (globalFrameOrigin =? "SSB")%string
        then Thrown (std_runtime_error
                       ("Error, body " ++ name
                        ++ " found as global frame origin, but body "
                        ++ globalFrameOrigin
                        ++ " has already been detected as global frame origin."))
        else getGlobalFrameOriginFrom rest name
      else getGlobalFrameOriginFrom rest globalFrameOrigin
  end.

Definition getGlobalFrameOrigin (bodyMap : NamedBodyMap) : outcome string :=
  getGlobalFrameOriginFrom bodyMap "SSB".

(** [ephemerides::ReferenceFrameManager] is outside the files at hand; an
    object of it is known by the map it was constructed from. *)
Record ReferenceFrameManager : Set := mkReferenceFrameManager {
  constructedFromEphemerides : list (string * Ephemeris)
}.

(** The loop of [createFrameManager] that fills the local [ephemerides]. *)
Fixpoint collectEphemerides (entries : list (string * Body))
    (ephemerides : list (string * Ephemeris)) : list (string * Ephemeris) :=
  match entries with
  | [] => ephemerides
  | (name, body) :: rest =>
      match getEphemeris body with
      | Some ephemeris =>
          collectEphemerides rest (mapAssign String.eqb ephemerides name ephemeris)
      | None => collectEphemerides rest ephemerides
      end
  end.

Definition createFrameManager (bodyMap : list (string * Body)) : ReferenceFrameManager :=
  mkReferenceFrameManager (collectEphemerides bodyMap []).

(** [setAreBodiesInPropagation]: the bodies after the loop. *)
Definition setAreBodiesInPropagation (bodyMap : NamedBodyMap)
    (areBodiesInPropagation : bool) : NamedBodyMap :=
  map (fun entry => (fst entry, setIsBodyInPropagation (snd entry) areBodiesInPropagation))
      bodyMap.

(** Vocabulary for the origin flags: a body that is the global frame origin,
    one whose flag was never set, and one that is neither. *)
Definition isOrigin (entry : string * Body) : bool :=
  (getIsBodyGlobalFrameOrigin (snd entry) =? 1)%Z.

Definition isUnset (entry : string * Body) : bool :=
  (getIsBodyGlobalFrameOrigin (snd entry) =? -1)%Z.

Definition isOrdinary (entry : string * Body) : bool :=
  negb (isOrigin entry) && negb (isUnset entry).

(** Bodies for the examples: the Sun is the global frame origin, the Earth
    and the Moon are not, the probe's origin flag was never set; the Moon
    has no gravity field and a synchronous rotational ephemeris. *)
Definition sunBody : Body :=
  mkBody false None (Some (mkGravityFieldModel 1.32712440018e20)) 1 None.

Definition earthBody : Body :=
  mkBody false (Some (OtherRotationalEphemeris 7))
         (Some (mkGravityFieldModel 3.986004418e14)) 0 (Some 1%nat).

Definition moonBody : Body :=
  mkBody false (Some (SynchronousRotationalEphemeris 3 None)) None 0 (Some 2%nat).

Definition probeBody : Body := mkBody false None None (-1) None.

Definition exampleBodies : NamedBodyMap :=
  [ ("Earth"%string, earthBody); ("Sun"%string, sunBody); ("Moon"%string, moonBody) ].

(** ** [simulation/estimation_setup/createObservationPartialsRefactor.h]

    The header is a set of function templates over classes that are defined
    elsewhere.  Objects of those classes are named by their identity or by
    the constructor arguments they were made from; functions defined
    elsewhere are the fields of [ObservationPartialExternals], each of which
    may return or throw. *)

Definition outcomeBind {A B : Type} (m : outcome A) (k : A -> outcome B) : outcome B :=
  match m with
  | Returned a => k a
  | Thrown e => Thrown e
  end.

Notation "x <~ m ;; k" := (outcomeBind m (fun x => k))
  (at level 61, m at next level, right associativity).

(** [observation_models::ObservableType]: the four enumerators the header
    names, and the others by their value. *)
Inductive ObservableType : Set :=
| one_way_range
| angular_position
| one_way_doppler
| undefined_observation_model
| otherObservableType (value : nat).

Definition observableTypeEqb (a b : ObservableType) : bool :=
  match a, b with
  | one_way_range, one_way_range => true
  | angular_position, angular_position => true
  | one_way_doppler, one_way_doppler => true
  | undefined_observation_model, undefined_observation_model => true
  | otherObservableType x, otherObservableType y => Nat.eqb x y
  | _, _ => false
  end.

(** [estimatable_parameters::EstimatebleParametersEnum]: the three
    enumerators the header names, and the others by their value. *)
Inductive EstimatebleParametersEnum : Set :=
| initial_body_state
| arc_wise_initial_body_state
| initial_rotational_body_state
| otherParameter (value : nat).

(** [EstimatableParameterIdentifier]: the enumerator, then the pair of the
    body name and a second name. *)
Definition EstimatebleParameterIdentifier : Set :=
  (EstimatebleParametersEnum * (string * string))%type.

(** [observation_models::LinkEnds]: a [std::map] from link end type to link
    end, in key order; here a key of other maps, compared by value. *)
Definition LinkEnds : Set := list (nat * string).

Fixpoint linkEndsEqb (a b : LinkEnds) : bool :=
  match a, b with
  | [], [] => true
  | (ta, na) :: a', (tb, nb) :: b' =>
      Nat.eqb ta tb && String.eqb na nb && linkEndsEqb a' b'
  | _, _ => false
  end.

Definition LightTimeCorrection : Set := nat.
Definition LightTimeCorrectionPartial : Set := nat.
Definition CartesianStatePartial : Set := nat.
Definition SystemOfBodies : Set := nat.

(** A [std::map< LinkEndType, std::shared_ptr< CartesianStatePartial > >]. *)
Definition PositionPartials : Set := list (nat * CartesianStatePartial).

(** [ObservationModel], as far as the header uses it: its observable type
    and, for the three classes the header casts to, what
    [getLightTimeCalculator( )->getLightTimeCorrection( )] returns.  The
    header casts by observable type and uses the result unchecked, so the
    model takes the class of an object to agree with its observable type. *)
Record ObservationModel : Set := mkObservationModel {
  getObservableType : ObservableType;
  getLightTimeCorrection : list LightTimeCorrection
}.

(** [EstimatableParameter< ParameterType >], as far as the header uses
    it. *)
Record EstimatableParameter : Set := mkEstimatableParameter {
  getParameterName : EstimatebleParameterIdentifier;
  getParameterSize : Z
}.

(** [EstimatableParameterSet< ParameterType >]: the initial state
    parameters in order, and the double and vector parameters as maps from
    their index, in key order. *)
Record EstimatableParameterSet : Set := mkEstimatableParameterSet {
  getEstimatedInitialStateParameters : list EstimatableParameter;
  getDoubleParameters : list (Z * EstimatableParameter);
  getVectorParameters : list (Z * EstimatableParameter)
}.

(** The two scaling objects the header creates. *)
Inductive OneWayLinkPositionPartialScaling : Set :=
| OneWayRangeScaling
| AngularPositionScaling.

(** A [OneWayLinkObservationPartial] is known by the four arguments of its
    constructor. *)
Record OneWayLinkObservationPartial : Set := mkOneWayLinkObservationPartial {
  positionPartialScaler : OneWayLinkPositionPartialScaling;
  positionPartialList : PositionPartials;
  parameterIdentifier : EstimatebleParameterIdentifier;
  lighTimeCorrectionPartials : list LightTimeCorrectionPartial
}.

(** An [ObservationPartial]: one made in this header, or one made by
    [createObservationPartialWrtLinkProperty]. *)
Inductive ObservationPartial : Set :=
| oneWayLinkPartial (partial : OneWayLinkObservationPartial)
| linkPropertyPartial (identity : nat).

(** The template argument [ObservationSize]: [ObservationPartialScalingCreator]
    is defined for 1 and for 2 only. *)
Inductive ObservationSize : Set := observationSize1 | observationSize2.

(** The function templates take observation models of one observation size.
    The classes [getLightTimeCorrectionsList2] casts to are defined outside
    the header: [OneWayRangeObservationModel] and
    [OneWayDopplerObservationModel] are observation models of size 1,
    [AngularPositionObservationModel] is one of size 2.  A model whose
    observable type names one of these classes at the other size is no
    object of the class the header casts it to. *)
Definition isModelOfSize (observationSize : ObservationSize)
    (observationModel : ObservationModel) : bool :=
  match getObservableType observationModel, observationSize with
  | one_way_range, observationSize2 => false
  | one_way_doppler, observationSize2 => false
  | angular_position, observationSize1 => false
  | _, _ => true
  end.

Class ObservationPartialExternals : Type := {
  (** [std::to_string] of an enumerator. *)
  observableTypeToString : ObservableType -> string;
  parameterEnumToString : EstimatebleParametersEnum -> string;
  getObservableName : ObservableType -> nat -> outcome string;
  createLightTimeCorrectionPartials :
    list LightTimeCorrection -> outcome (list LightTimeCorrectionPartial);
  createCartesianStatePartialsWrtBodyState :
    LinkEnds -> SystemOfBodies -> string -> outcome PositionPartials;
  createCartesianStatePartialsWrtBodyRotationalState :
    LinkEnds -> SystemOfBodies -> string -> outcome PositionPartials;
  createCartesianStatePartialsWrtDoubleParameter :
    LinkEnds -> SystemOfBodies -> EstimatableParameter -> outcome PositionPartials;
  createCartesianStatePartialsWrtVectorParameter :
    LinkEnds -> SystemOfBodies -> EstimatableParameter -> outcome PositionPartials;
  getNumberOfLighTimeCorrectionPartialsFunctions :
    OneWayLinkObservationPartial -> nat;
  isParameterObservationLinkProperty : EstimatebleParametersEnum -> bool;
  createObservationPartialWrtLinkProperty :
    ObservationSize -> LinkEnds -> ObservableType -> EstimatableParameter -> bool ->
    outcome (option nat)
}.

(** The map from link ends to grouped light-time corrections. *)
Definition LightTimeCorrectionsList : Set :=
  list (LinkEnds * list (list LightTimeCorrection)).

(** The loop of [getLightTimeCorrectionsList2] over the remaining
    observation models. *)
Fixpoint lightTimeCorrectionsLoop `{ObservationPartialExternals}
    (observableType : ObservableType)
    (remaining : list (LinkEnds * ObservationModel))
    (lightTimeCorrectionsList : LightTimeCorrectionsList)
    : outcome LightTimeCorrectionsList :=
  match remaining with
  | [] => Returned lightTimeCorrectionsList
  | (linkEnds, observationModel) :: rest =>
      if negb (observableTypeEqb (getObservableType observationModel) observableType)
      then Thrown (std_runtime_error
                     "Error when making grouped light time correction list, observable type is not constant")
      else
        singleObservableCorrectionList <~
          match observableType with
          | one_way_range => Returned (getLightTimeCorrection observationModel)
          | one_way_doppler => Returned (getLightTimeCorrection observationModel)
          | angular_position => Returned (getLightTimeCorrection observationModel)
          | _ =>
              Thrown (std_runtime_error
                        ("Error in light time correction list creation, observable type "
                         ++ observableTypeToString observableType
                         ++ " not recognized."))
          end ;;
        let currentLightTimeCorrections :=
          if (0 <? List.length singleObservableCorrectionList)%nat
          then [singleObservableCorrectionList] else [] in
        lightTimeCorrectionsLoop observableType rest
          (if (0 <? List.length currentLightTimeCorrections)%nat
           then mapAssign linkEndsEqb lightTimeCorrectionsList linkEnds
                  currentLightTimeCorrections
           else lightTimeCorrectionsList)
  end.

(** [getLightTimeCorrectionsList2].  The observable type is read through
    [observationModels.begin( )] before the loop, which has no defined
    behaviour on an empty map: [None]. *)
Definition getLightTimeCorrectionsList2 `{ObservationPartialExternals}
    (observationModels : list (LinkEnds * ObservationModel))
    : option (outcome LightTimeCorrectionsList) :=
  match observationModels with
  | [] => None
  | (_, first) :: _ =>
      Some (lightTimeCorrectionsLoop (getObservableType first) observationModels [])
  end.

(** [ObservationPartialScalingCreator< 1 >::createPositionScalingObject] and
    [ObservationPartialScalingCreator< 2 >::createPositionScalingObject]. *)
Definition createPositionScalingObject `{ObservationPartialExternals}
    (observationSize : ObservationSize) (linkEnds : LinkEnds)
    (observableType : ObservableType)
    : outcome OneWayLinkPositionPartialScaling :=
  match observationSize, observableType with
  | observationSize1, one_way_range => Returned OneWayRangeScaling
  | observationSize2, angular_position => Returned AngularPositionScaling
  | _, _ =>
      observableName <~ getObservableName observableType (List.length linkEnds) ;;
      Thrown (std_runtime_error
                ("Error when creating partial scaler for " ++ observableName
                 ++ ", type not yet rezognized. "))
  end.

(** [createObservationPartialWrtParameter], for a double parameter and for a
    vector parameter; [None] is the null pointer. *)
Definition createObservationPartialWrtParameter `{ObservationPartialExternals}
    (createCartesianStatePartialsWrtParameter :
       LinkEnds -> SystemOfBodies -> EstimatableParameter -> outcome PositionPartials)
    (oneWayLinkEnds : LinkEnds) (bodies : SystemOfBodies)
    (parameterToEstimate : EstimatableParameter)
    (positionPartialScaler : OneWayLinkPositionPartialScaling)
    (lightTimeCorrectionPartialObjects : list LightTimeCorrectionPartial)
    : outcome (option ObservationPartial) :=
  positionPartials <~
    createCartesianStatePartialsWrtParameter oneWayLinkEnds bodies parameterToEstimate ;;
  let testObservationPartial :=
    mkOneWayLinkObservationPartial positionPartialScaler positionPartials
      (getParameterName parameterToEstimate) lightTimeCorrectionPartialObjects in
  if (0 <? List.length positionPartials)%nat
     || (0 <? getNumberOfLighTimeCorrectionPartialsFunctions testObservationPartial)%nat
  then Returned (Some (oneWayLinkPartial testObservationPartial))
  else Returned None.

(** [createObservationPartialWrtBodyPosition]. *)
Definition createObservationPartialWrtBodyPosition `{ObservationPartialExternals}
    (oneWayLinkEnds : LinkEnds) (bodies : SystemOfBodies) (bodyToEstimate : string)
    (positionPartialScaler : OneWayLinkPositionPartialScaling)
    (lightTimeCorrectionPartialObjects : list LightTimeCorrectionPartial)
    : outcome (option ObservationPartial) :=
  positionPartials <~
    createCartesianStatePartialsWrtBodyState oneWayLinkEnds bodies bodyToEstimate ;;
  if (0 <? List.length positionPartials)%nat
  then Returned
         (Some (oneWayLinkPartial
                  (mkOneWayLinkObservationPartial positionPartialScaler positionPartials
                     (initial_body_state, (bodyToEstimate, ""%string))
                     lightTimeCorrectionPartialObjects)))
  else Returned None.

(** [createObservationPartialWrtBodyRotationalState]; the identifier it
    gives the partial is the one of the translational state. *)
Definition createObservationPartialWrtBodyRotationalState `{ObservationPartialExternals}
    (oneWayLinkEnds : LinkEnds) (bodies : SystemOfBodies) (bodyToEstimate : string)
    (positionPartialScaler : OneWayLinkPositionPartialScaling)
    (lightTimeCorrectionPartialObjects : list LightTimeCorrectionPartial)
    : outcome (option ObservationPartial) :=
  positionPartials <~
    createCartesianStatePartialsWrtBodyRotationalState oneWayLinkEnds bodies
      bodyToEstimate ;;
  if (0 <? List.length positionPartials)%nat
  then Returned
         (Some (oneWayLinkPartial
                  (mkOneWayLinkObservationPartial positionPartialScaler positionPartials
                     (initial_body_state, (bodyToEstimate, ""%string))
                     lightTimeCorrectionPartialObjects)))
  else Returned None.

(** The map from (start index, size) to observation partial. *)
Definition indexPairEqb (a b : Z * Z) : bool :=
  ((fst a =? fst b) && (snd a =? snd b))%Z.

Definition ObservationPartialsMap : Set := list ((Z * Z) * ObservationPartial).

(** [if( currentObservationPartial != nullptr )
       observationPartials[ currentPair ] = currentObservationPartial;] *)
Definition addIfNotNull (observationPartials : ObservationPartialsMap)
    (currentPair : Z * Z) (currentObservationPartial : option ObservationPartial)
    : ObservationPartialsMap :=
  match currentObservationPartial with
  | Some partial => mapAssign indexPairEqb observationPartials currentPair partial
  | None => observationPartials
  end.

(** The first loop of [createSingleLinkObservationPartials], over the
    remaining initial state parameters.  [currentIndex] is an [int] that
    grows by 6 or 7 per parameter. *)
Fixpoint initialStatePartialsLoop `{ObservationPartialExternals}
    (oneWayLinkEnds : LinkEnds) (bodies : SystemOfBodies)
    (positionScaling : OneWayLinkPositionPartialScaling)
    (lightTimeCorrectionPartialObjects : list LightTimeCorrectionPartial)
    (remaining : list EstimatableParameter)
    (currentIndex : Z) (observationPartials : ObservationPartialsMap)
    : outcome ObservationPartialsMap :=
  match remaining with
  | [] => Returned observationPartials
  | parameter :: rest =>
      let acceleratedBody := fst (snd (getParameterName parameter)) in
      match fst (getParameterName parameter) with
      | initial_body_state | arc_wise_initial_body_state =>
          currentObservationPartial <~
            createObservationPartialWrtBodyPosition oneWayLinkEnds bodies
              acceleratedBody positionScaling lightTimeCorrectionPartialObjects ;;
          initialStatePartialsLoop oneWayLinkEnds bodies positionScaling
            lightTimeCorrectionPartialObjects rest (currentIndex + 6)
            (addIfNotNull observationPartials (currentIndex, 6)%Z
               currentObservationPartial)
      | initial_rotational_body_state =>
          currentObservationPartial <~
            createObservationPartialWrtBodyRotationalState oneWayLinkEnds bodies
              acceleratedBody positionScaling lightTimeCorrectionPartialObjects ;;
          initialStatePartialsLoop oneWayLinkEnds bodies positionScaling
            lightTimeCorrectionPartialObjects rest (currentIndex + 7)
            (addIfNotNull observationPartials (currentIndex, 7)%Z
               currentObservationPartial)
      | other =>
          Thrown (std_runtime_error
                    ("Error when making observation partials, could not identify parameter "
                     ++ parameterEnumToString other))
      end
  end.

(** The second loop, over the remaining double parameters. *)
Fixpoint doubleParameterPartialsLoop `{ObservationPartialExternals}
    (oneWayLinkEnds : LinkEnds) (bodies : SystemOfBodies)
    (positionScaling : OneWayLinkPositionPartialScaling)
    (lightTimeCorrectionPartialObjects : list LightTimeCorrectionPartial)
    (remaining : list (Z * EstimatableParameter))
    (observationPartials : ObservationPartialsMap)
    : outcome ObservationPartialsMap :=
  match remaining with
  | [] => Returned observationPartials
  | (index, parameter) :: rest =>
      currentObservationPartial <~
        createObservationPartialWrtParameter
          createCartesianStatePartialsWrtDoubleParameter oneWayLinkEnds bodies
          parameter positionScaling lightTimeCorrectionPartialObjects ;;
      doubleParameterPartialsLoop oneWayLinkEnds bodies positionScaling
        lightTimeCorrectionPartialObjects rest
        (addIfNotNull observationPartials (index, 1)%Z currentObservationPartial)
  end.

(** The third loop, over the remaining vector parameters. *)
Fixpoint vectorParameterPartialsLoop `{ObservationPartialExternals}
    (observationSize : ObservationSize)
    (oneWayLinkEnds : LinkEnds) (observableType : ObservableType)
    (bodies : SystemOfBodies)
    (positionScaling : OneWayLinkPositionPartialScaling)
    (lightTimeCorrectionPartialObjects : list LightTimeCorrectionPartial)
    (useBiasPartials : bool)
    (remaining : list (Z * EstimatableParameter))
    (observationPartials : ObservationPartialsMap)
    : outcome ObservationPartialsMap :=
  match remaining with
  | [] => Returned observationPartials
  | (index, parameter) :: rest =>
      currentObservationPartial <~
        (if negb (isParameterObservationLinkProperty
                    (fst (getParameterName parameter)))
         then createObservationPartialWrtParameter
                createCartesianStatePartialsWrtVectorParameter oneWayLinkEnds bodies
                parameter positionScaling lightTimeCorrectionPartialObjects
         else
           partial <~
             createObservationPartialWrtLinkProperty observationSize oneWayLinkEnds
               observableType parameter useBiasPartials ;;
           Returned (option_map linkPropertyPartial partial)) ;;
      vectorParameterPartialsLoop observationSize oneWayLinkEnds observableType
        bodies positionScaling lightTimeCorrectionPartialObjects useBiasPartials rest
        (addIfNotNull observationPartials (index, getParameterSize parameter)
           currentObservationPartial)
  end.

(** [createSingleLinkObservationPartials]. *)
Definition createSingleLinkObservationPartials `{ObservationPartialExternals}
    (observationSize : ObservationSize)
    (oneWayLinkEnds : LinkEnds) (observableType : ObservableType)
    (bodies : SystemOfBodies) (parametersToEstimate : EstimatableParameterSet)
    (lightTimeCorrections : list LightTimeCorrection) (useBiasPartials : bool)
    : outcome (ObservationPartialsMap * OneWayLinkPositionPartialScaling) :=
  lightTimeCorrectionPartialObjects <~
    (if (0 <? List.length lightTimeCorrections)%nat
     then createLightTimeCorrectionPartials lightTimeCorrections
     else Returned []) ;;
  positionScaling <~
    createPositionScalingObject observationSize oneWayLinkEnds observableType ;;
  afterInitialStates <~
    initialStatePartialsLoop oneWayLinkEnds bodies positionScaling
      lightTimeCorrectionPartialObjects
      (getEstimatedInitialStateParameters parametersToEstimate) 0 [] ;;
  afterDoubleParameters <~
    doubleParameterPartialsLoop oneWayLinkEnds bodies positionScaling
      lightTimeCorrectionPartialObjects
      (getDoubleParameters parametersToEstimate) afterInitialStates ;;
  observationPartials <~
    vectorParameterPartialsLoop observationSize oneWayLinkEnds observableType bodies
      positionScaling lightTimeCorrectionPartialObjects useBiasPartials
      (getVectorParameters parametersToEstimate) afterDoubleParameters ;;
  Returned (observationPartials, positionScaling).

(** The map the two list functions return. *)
Definition SingleLinkObservationPartialsList : Set :=
  list (LinkEnds * (ObservationPartialsMap * OneWayLinkPositionPartialScaling)).

(** The light-time corrections the list function hands on for one link
    ends: the only list when there is exactly one, none when the link ends
    are not in the map, and none (after a message on [std::cerr]) when there
    are more. *)
Definition singleLinkLightTimeCorrectionsOf
    (lightTimeCorrections : LightTimeCorrectionsList) (linkEnds : LinkEnds)
    : list LightTimeCorrection :=
  if (0 <? mapCount linkEndsEqb lightTimeCorrections linkEnds)%nat
  then
    match mapFind linkEndsEqb lightTimeCorrections linkEnds with
    | Some corrections =>
        if (1 <? List.length corrections)%nat then []
        else if (List.length corrections =? 1)%nat then nth 0 corrections []
        else []
    | None => []
    end
  else [].

(** The loop of [createSingleLinkObservationPartialsList] (the overload that
    takes a vector of link ends). *)
Fixpoint singleLinkObservationPartialsListLoop `{ObservationPartialExternals}
    (observationSize : ObservationSize)
    (remaining : list LinkEnds) (observableType : ObservableType)
    (bodies : SystemOfBodies) (parametersToEstimate : EstimatableParameterSet)
    (lightTimeCorrections : LightTimeCorrectionsList) (useBiasPartials : bool)
    (observationPartials : SingleLinkObservationPartialsList)
    : outcome SingleLinkObservationPartialsList :=
  match remaining with
  | [] => Returned observationPartials
  | linkEnds :: rest =>
      partials <~
        createSingleLinkObservationPartials observationSize linkEnds observableType
          bodies parametersToEstimate
          (singleLinkLightTimeCorrectionsOf lightTimeCorrections linkEnds)
          useBiasPartials ;;
      singleLinkObservationPartialsListLoop observationSize rest observableType
        bodies parametersToEstimate lightTimeCorrections useBiasPartials
        (mapAssign linkEndsEqb observationPartials linkEnds partials)
  end.

Definition createSingleLinkObservationPartialsList `{ObservationPartialExternals}
    (observationSize : ObservationSize)
    (linkEndsList : list LinkEnds) (observableType : ObservableType)
    (bodies : SystemOfBodies) (parametersToEstimate : EstimatableParameterSet)
    (lightTimeCorrections : LightTimeCorrectionsList) (useBiasPartials : bool)
    : outcome SingleLinkObservationPartialsList :=
  singleLinkObservationPartialsListLoop observationSize linkEndsList observableType
    bodies parametersToEstimate lightTimeCorrections useBiasPartials [].

(** The loop of the overload that takes the observation models, which
    settles the common observable type. *)
Fixpoint commonObservableTypeLoop
    (remaining : list (LinkEnds * ObservationModel))
    (observableType : ObservableType) : outcome ObservableType :=
  match remaining with
  | [] => Returned observableType
  | (_, observationModel) :: rest =>
      if observableTypeEqb observableType undefined_observation_model
      then commonObservableTypeLoop rest (getObservableType observationModel)
      else if negb (observableTypeEqb observableType
                      (getObservableType observationModel))
      then Thrown (std_runtime_error
                     "Error when creating single link observation partials, input models are inconsistent")
      else commonObservableTypeLoop rest observableType
  end.

(** [createSingleLinkObservationPartialsList], the overload that takes the
    observation models; [utilities::createVectorFromMapKeys] lists the keys
    of the map in its order.  [None] where [getLightTimeCorrectionsList2]
    has no defined behaviour. *)
Definition createSingleLinkObservationPartialsListFromModels
    `{ObservationPartialExternals}
    (observationSize : ObservationSize)
    (observationModelList : list (LinkEnds * ObservationModel))
    (bodies : SystemOfBodies) (parametersToEstimate : EstimatableParameterSet)
    (useBiasPartials : bool)
    : option (outcome SingleLinkObservationPartialsList) :=
  match getLightTimeCorrectionsList2 observationModelList with
  | None => None
  | Some grouped =>
      Some (lightTimeCorrections <~ grouped ;;
            let linkEndsList := map fst observationModelList in
            observableType <~
              commonObservableTypeLoop observationModelList
                undefined_observation_model ;;
            createSingleLinkObservationPartialsList observationSize linkEndsList
              observableType bodies parametersToEstimate lightTimeCorrections
              useBiasPartials)
  end.

(** Vocabulary: the observable types [getLightTimeCorrectionsList2] knows,
    the number of entries an initial state parameter takes in the parameter
    vector, and the total over a list of them. *)
Definition hasLightTimeCalculator (observableType : ObservableType) : bool :=
  match observableType with
  | one_way_range | one_way_doppler | angular_position => true
  | _ => false
  end.

Definition initialStateSize (parameter : EstimatableParameter) : Z :=
  match fst (getParameterName parameter) with
  | initial_rotational_body_state => 7
  | _ => 6
  end.

Definition totalInitialStateSize (parameters : list EstimatableParameter) : Z :=
  fold_right (fun parameter total => initialStateSize parameter + total)%Z 0%Z
    parameters.

(** The partial the first loop of [createSingleLinkObservationPartials]
    creates for one initial state parameter, by the branch it takes. *)
Definition createInitialStatePartial `{ObservationPartialExternals}
    (oneWayLinkEnds : LinkEnds) (bodies : SystemOfBodies)
    (positionScaling : OneWayLinkPositionPartialScaling)
    (lightTimeCorrectionPartialObjects : list LightTimeCorrectionPartial)
    (parameter : EstimatableParameter) : outcome (option ObservationPartial) :=
  let acceleratedBody := fst (snd (getParameterName parameter)) in
  match fst (getParameterName parameter) with
  | initial_body_state | arc_wise_initial_body_state =>
      createObservationPartialWrtBodyPosition oneWayLinkEnds bodies
        acceleratedBody positionScaling lightTimeCorrectionPartialObjects
  | initial_rotational_body_state =>
      createObservationPartialWrtBodyRotationalState oneWayLinkEnds bodies
        acceleratedBody positionScaling lightTimeCorrectionPartialObjects
  | other =>
      Thrown (std_runtime_error
                ("Error when making observation partials, could not identify parameter "
                 ++ parameterEnumToString other))
  end.

(** Stand-ins for the functions defined outside the header, for running the
    model on concrete data: a body has a position partial at every link end
    that carries its name, parameters other than initial states have none,
    and nothing throws. *)
Definition examplePositionPartials (linkEnds : LinkEnds) (body : string)
    : PositionPartials :=
  map (fun linkEnd => (fst linkEnd, 0%nat))
      (filter (fun linkEnd => String.eqb (snd linkEnd) body) linkEnds).

Definition exampleObservationPartialExternals : ObservationPartialExternals :=
  {| observableTypeToString := fun _ => "0"%string;
     parameterEnumToString := fun _ => "0"%string;
     getObservableName := fun _ _ => Returned "Observable"%string;
     createLightTimeCorrectionPartials := fun corrections => Returned corrections;
     createCartesianStatePartialsWrtBodyState :=
       fun linkEnds _ body => Returned (examplePositionPartials linkEnds body);
     createCartesianStatePartialsWrtBodyRotationalState :=
       fun linkEnds _ body => Returned (examplePositionPartials linkEnds body);
     createCartesianStatePartialsWrtDoubleParameter := fun _ _ _ => Returned [];
     createCartesianStatePartialsWrtVectorParameter := fun _ _ _ => Returned [];
     getNumberOfLighTimeCorrectionPartialsFunctions := fun _ => 0%nat;
     isParameterObservationLinkProperty := fun _ => false;
     createObservationPartialWrtLinkProperty := fun _ _ _ _ _ => Returned None |}.

(** Two links to a probe, observed by one-way range; the first has two
    light-time corrections, the second none. *)
Definition earthToProbe : LinkEnds := [ (0%nat, "Earth"%string); (1%nat, "Probe"%string) ].
Definition marsToProbe : LinkEnds := [ (0%nat, "Mars"%string); (1%nat, "Probe"%string) ].

Definition exampleRangeModels : list (LinkEnds * ObservationModel) :=
  [ (earthToProbe, mkObservationModel one_way_range [11%nat; 12%nat]);
    (marsToProbe, mkObservationModel one_way_range []) ].

(** The same links observed by one-way Doppler. *)
Definition exampleDopplerModels : list (LinkEnds * ObservationModel) :=
  [ (earthToProbe, mkObservationModel one_way_doppler [11%nat; 12%nat]);
    (marsToProbe, mkObservationModel one_way_doppler []) ].

(** The initial states of the probe (translational), the Moon (rotational)
    and the Earth (translational), in this order. *)
Definition probeState : EstimatableParameter :=
  mkEstimatableParameter (initial_body_state, ("Probe"%string, ""%string)) 6.
Definition moonRotation : EstimatableParameter :=
  mkEstimatableParameter (initial_rotational_body_state, ("Moon"%string, ""%string)) 7.
Definition earthState : EstimatableParameter :=
  mkEstimatableParameter (initial_body_state, ("Earth"%string, ""%string)) 6.

Definition exampleParameterSet : EstimatableParameterSet :=
  mkEstimatableParameterSet [probeState; moonRotation; earthState] [] [].

(** What the model computes on these data. *)
Definition exampleGroupedCorrections : LightTimeCorrectionsList :=
  Eval vm_compute in
    match @getLightTimeCorrectionsList2 exampleObservationPartialExternals
            exampleRangeModels with
    | Some (Returned grouped) => grouped
    | _ => []
    end.

Definition exampleInitialStatePartials : ObservationPartialsMap :=
  Eval vm_compute in
    match @initialStatePartialsLoop exampleObservationPartialExternals
            earthToProbe 0%nat OneWayRangeScaling [11%nat; 12%nat]
            (getEstimatedInitialStateParameters exampleParameterSet) 0 [] with
    | Returned partials => partials
    | Thrown _ => []
    end.

Definition examplePartialsList : SingleLinkObservationPartialsList :=
  Eval vm_compute in
    match @createSingleLinkObservationPartialsListFromModels
            exampleObservationPartialExternals observationSize1
            exampleRangeModels 0%nat exampleParameterSet true with
    | Some (Returned partials) => partials
    | _ => []
    end.

Definition exampleSingleLinkPartials : ObservationPartialsMap :=
  Eval vm_compute in
    match @createSingleLinkObservationPartials exampleObservationPartialExternals
            observationSize1 earthToProbe one_way_range 0%nat exampleParameterSet
            [11%nat; 12%nat] true with
    | Returned (partials, _) => partials
    | Thrown _ => []
    end.

(** * Properties *)

(** ** The cache monad and the evaluators' effect on the cache *)

Section Evaluators.

Context `{CM : CMath} `{DE : DeclaredEvaluators}.

Import PolyhedronGravityField.

(** What one evaluator call does to the cache object and which calls it
    records, whatever it returns. *)
Lemma evaluate_effect (e : Evaluator) (f : t) (p : Vector3d) :
  polyhedronGravityCache_ (objectAfter (evaluate e f p))
  = PolyhedronGravityCache.update (polyhedronGravityCache_ f) p
  /\ exists reads,
       callsOf (evaluate e f p) = CallUpdate p :: reads
       /\ forallb (fun c => negb (isUpdate c)) reads = true.
Proof.
  destruct e; (split; [reflexivity | eexists; split; [reflexivity | reflexivity]]).
Qed.

(** The cache calls of each evaluator, in the order of its body. *)
Lemma evaluate_calls (f : t) (p : Vector3d) :
  callsOf (evaluate GravitationalPotential f p)
  = [CallUpdate p; CallGetVerticesCoordinatesRelativeToFieldPoint;
     CallGetPerFacetFactor; CallGetPerEdgeFactor]
  /\ callsOf (evaluate GradientOfPotential f p)
     = [CallUpdate p; CallGetVerticesCoordinatesRelativeToFieldPoint;
        CallGetPerFacetFactor; CallGetPerEdgeFactor]
  /\ callsOf (evaluate HessianOfPotential f p)
     = [CallUpdate p; CallGetPerFacetFactor; CallGetPerEdgeFactor]
  /\ callsOf (evaluate LaplacianOfPotential f p)
     = [CallUpdate p; CallGetPerFacetFactor].
Proof. repeat split. Qed.

(** An evaluator call leaves every member but the cache as it was. *)
Lemma evaluate_frame (e : Evaluator) (f : t) (p : Vector3d) :
  objectAfter (evaluate e f p)
  = mk (gravitationalParameter_ f) (volume_ f) (verticesCoordinates_ f)
       (verticesDefiningEachFacet_ f) (verticesDefiningEachEdge_ f)
       (facetDyads_ f) (edgeDyads_ f)
       (PolyhedronGravityCache.update (polyhedronGravityCache_ f) p)
       (fixedReferenceFrame_ f).
Proof. destruct e; reflexivity. Qed.

Lemma update_cacheShapeOf (c : PolyhedronGravityCache.t) (p : Vector3d) :
  cacheShapeOf (PolyhedronGravityCache.update c p) = cacheShapeOf c.
Proof. reflexivity. Qed.

Lemma afterCalls_shapeOf (calls : list (Evaluator * Vector3d)) :
  forall f, shapeOf (afterCalls f calls) = shapeOf f.
Proof.
  induction calls as [| [e p] rest IH]; intro f; simpl.
  - reflexivity.
  - rewrite IH. fold (objectAfter (evaluate e f p)).
    rewrite evaluate_frame. reflexivity.
Qed.

Lemma afterCalls_cacheShapeOf (calls : list (Evaluator * Vector3d)) :
  forall f,
    cacheShapeOf (polyhedronGravityCache_ (afterCalls f calls))
    = cacheShapeOf (polyhedronGravityCache_ f).
Proof.
  induction calls as [| [e p] rest IH]; intro f; simpl.
  - reflexivity.
  - rewrite IH. fold (objectAfter (evaluate e f p)).
    rewrite evaluate_frame. reflexivity.
Qed.

Lemma afterCalls_app (calls1 calls2 : list (Evaluator * Vector3d)) :
  forall f, afterCalls f (calls1 ++ calls2) = afterCalls (afterCalls f calls1) calls2.
Proof.
  induction calls1 as [| [e p] rest IH]; intro f; simpl.
  - reflexivity.
  - apply IH.
Qed.

(** The cache of an instance that was constructed from [a] and then
    queried keeps the shape of [a]. *)
Lemma reachable_cache_shape (a : arguments) (calls : list (Evaluator * Vector3d)) :
  cacheShapeOf (polyhedronGravityCache_ (afterCalls (init a) calls))
  = (verticesCoordinates a, verticesDefiningEachFacet a, verticesDefiningEachEdge a).
Proof. rewrite afterCalls_cacheShapeOf. reflexivity. Qed.

Lemma reachable_shape (a : arguments) (calls : list (Evaluator * Vector3d)) :
  shapeOf (afterCalls (init a) calls)
  = (gravitationalParameter a, volume a, verticesCoordinates a,
     verticesDefiningEachFacet a, verticesDefiningEachEdge a,
     facetDyads a, edgeDyads a, fixedReferenceFrame a).
Proof. rewrite afterCalls_shapeOf. reflexivity. Qed.

End Evaluators.

(** ** The formulas, written out

    The right-hand sides of the theorems about values are written in the
    operations of [double] and of lists alone, so that they say what is
    computed without naming a function of the model. *)

(** [i] is the index of a row of the vertex matrix. *)
#[local] Abbreviation VertexIndex vertices i :=
  ((0 <= i)%Z /\ (i < Z.of_nat (List.length vertices))%Z).

(** The position [v] relative to the field point [p]. *)
#[local] Abbreviation RelativeTo p v :=
  (mkVector3d (vx v - vx p) (vy v - vy p) (vz v - vz p)).

#[local] Abbreviation Inner a b :=
  (vx a * vx b + vy a * vy b + vz a * vz b).

#[local] Abbreviation Length a := (PrimFloat.sqrt (Inner a a)).

(** [ri . (rj x rk)]. *)
#[local] Abbreviation TripleProduct ri rj rk :=
  (vx ri * (vy rj * vz rk - vz rj * vy rk)
   + vy ri * (vz rj * vx rk - vx rj * vz rk)
   + vz ri * (vx rj * vy rk - vy rj * vx rk)).

(** Eq. 27 of Werner and Scheeres (1997): the solid angle of the facet with
    vertices at [ri], [rj], [rk]. *)
#[local] Abbreviation Eq27 ri rj rk :=
  (2 * atan2 (TripleProduct ri rj rk)
         (Length ri * Length rj * Length rk
          + Length ri * Inner rj rk
          + Length rj * Inner rk ri
          + Length rk * Inner ri rj)).

(** Eq. 7: the logarithm for the edge with end points at [ri], [rj]. *)
#[local] Abbreviation Eq7 ri rj :=
  (log ((Length ri + Length rj + Length (RelativeTo ri rj))
        / (Length ri + Length rj - Length (RelativeTo ri rj)))).

(** [r^T D r]. *)
#[local] Abbreviation Contraction r D :=
  ((vx r * vx (row0 D) + vy r * vx (row1 D) + vz r * vx (row2 D)) * vx r
   + (vx r * vy (row0 D) + vy r * vy (row1 D) + vz r * vy (row2 D)) * vy r
   + (vx r * vz (row0 D) + vy r * vz (row1 D) + vz r * vz (row2 D)) * vz r).

(** The terms added up in their order, from 0. *)
#[local] Abbreviation Total terms := (fold_left (fun acc t => acc + t) terms 0).

Section WrittenOut.

Context `{CM : CMath}.

(** A row of the relative coordinates, for an index in range. *)
Lemma vertexRow_relative (p : Vector3d) (vertices : MatrixXd) (i : Z) :
  VertexIndex vertices i ->
  vertexRow
    (calculatePolyhedronVerticesCoordinatesRelativeToFieldPoint p vertices) i
  = RelativeTo p (nth (Z.to_nat i) vertices nanVector3d).
Proof.
  intros [Hlow Hhigh].
  unfold vertexRow, calculatePolyhedronVerticesCoordinatesRelativeToFieldPoint.
  destruct (i <? 0)%Z eqn:Hneg; [apply Z.ltb_lt in Hneg; lia |].
  rewrite (nth_indep _ nanVector3d (vsub nanVector3d p))
    by (rewrite length_map; lia).
  rewrite (map_nth (fun v => vsub v p)). reflexivity.
Qed.

(** Reading entry [n] of a mapped list, for [n] in range. *)
Lemma nth_map_in_range {A B : Type} (f : A -> B) (l : list A) (n : nat)
    (d : A) (d' : B) :
  (n < List.length l)%nat -> nth n (map f l) d' = f (nth n l d).
Proof.
  intro Hn. rewrite (nth_indep _ d' (f d)) by (rewrite length_map; exact Hn).
  apply map_nth.
Qed.

Lemma nth_perEdgeFactor (relative : MatrixXd) (edges : MatrixXi2) (edge : nat)
    (d : double) :
  (edge < List.length edges)%nat ->
  nth edge (calculatePolyhedronPerEdgeFactor relative edges) d
  = let '(i, j) := nth edge edges (0, 0)%Z in
    edgeFactor (vertexRow relative i) (vertexRow relative j).
Proof.
  intro Hedge. unfold calculatePolyhedronPerEdgeFactor.
  apply (nth_map_in_range
           (fun '(i, j) =>
              edgeFactor (vertexRow relative i) (vertexRow relative j))).
  exact Hedge.
Qed.

Lemma nth_perFacetFactor (relative : MatrixXd) (facets : MatrixXi3) (facet : nat)
    (d : double) :
  (facet < List.length facets)%nat ->
  nth facet (calculatePolyhedronPerFacetFactor relative facets) d
  = let '(i, j, k) := nth facet facets (0, 0, 0)%Z in
    facetFactor (vertexRow relative i) (vertexRow relative j)
      (vertexRow relative k).
Proof.
  intro Hfacet. unfold calculatePolyhedronPerFacetFactor.
  apply (nth_map_in_range
           (fun '(i, j, k) =>
              facetFactor (vertexRow relative i) (vertexRow relative j)
                (vertexRow relative k))).
  exact Hfacet.
Qed.

(** The per-facet and per-edge factors at [p], for vertex indices in
    range. *)
Lemma perFacetFactor_written_out (p : Vector3d) (vertices : MatrixXd)
    (facets : MatrixXi3) :
  Forall (fun '(i, j, k) =>
            VertexIndex vertices i /\ VertexIndex vertices j
            /\ VertexIndex vertices k) facets ->
  calculatePolyhedronPerFacetFactor
    (calculatePolyhedronVerticesCoordinatesRelativeToFieldPoint p vertices) facets
  = map (fun '(i, j, k) =>
           Eq27 (RelativeTo p (nth (Z.to_nat i) vertices nanVector3d))
                (RelativeTo p (nth (Z.to_nat j) vertices nanVector3d))
                (RelativeTo p (nth (Z.to_nat k) vertices nanVector3d)))
      facets.
Proof.
  intro Hfacets. unfold calculatePolyhedronPerFacetFactor.
  apply map_ext_in. intros [[i j] k] Hin.
  destruct (proj1 (Forall_forall _ _) Hfacets _ Hin) as [Hi [Hj Hk]].
  rewrite !vertexRow_relative by assumption.
  reflexivity.
Qed.

Lemma perEdgeFactor_written_out (p : Vector3d) (vertices : MatrixXd)
    (edges : MatrixXi2) :
  Forall (fun '(i, j) => VertexIndex vertices i /\ VertexIndex vertices j)
    edges ->
  calculatePolyhedronPerEdgeFactor
    (calculatePolyhedronVerticesCoordinatesRelativeToFieldPoint p vertices) edges
  = map (fun '(i, j) =>
           Eq7 (RelativeTo p (nth (Z.to_nat i) vertices nanVector3d))
               (RelativeTo p (nth (Z.to_nat j) vertices nanVector3d)))
      edges.
Proof.
  intro Hedges. unfold calculatePolyhedronPerEdgeFactor.
  apply map_ext_in. intros [i j] Hin.
  destruct (proj1 (Forall_forall _ _) Hedges _ Hin) as [Hi Hj].
  rewrite !vertexRow_relative by assumption.
  reflexivity.
Qed.

End WrittenOut.

(** ** The evaluators of [PolyhedronGravityField] *)

Section EvaluatorClaims.

Context `{CM : CMath} `{DE : DeclaredEvaluators}.

Import PolyhedronGravityField.

(** Pulls the members of a queried instance back to the constructor's
    arguments. *)
Ltac members_of a calls :=
  let Hs := fresh "Hshape" in
  let Hc := fresh "Hcache" in
  pose proof (reachable_shape a calls) as Hs;
  pose proof (reachable_cache_shape a calls) as Hc;
  unfold shapeOf in Hs; unfold cacheShapeOf in Hc;
  injection Hs as ? ? ? ? ? ? ? ?; injection Hc as ? ? ?.

(** The value of the two evaluators whose free function is modelled, in
    terms of that free function. *)
Lemma getGravitationalPotential_body
    (a : arguments) (calls : list (Evaluator * Vector3d)) (p : Vector3d) :
  let relative :=
    calculatePolyhedronVerticesCoordinatesRelativeToFieldPoint p
      (verticesCoordinates a) in
  valueOf (getGravitationalPotential (afterCalls (init a) calls) p)
  = calculatePolyhedronGravitationalPotential
      (gravitationalParameter a / volume a) relative
      (verticesDefiningEachFacet a) (verticesDefiningEachEdge a)
      (facetDyads a) (edgeDyads a)
      (calculatePolyhedronPerFacetFactor relative (verticesDefiningEachFacet a))
      (calculatePolyhedronPerEdgeFactor relative (verticesDefiningEachEdge a)).
Proof.
  intros relative.
  members_of a calls.
  unfold getGravitationalPotential, withCache, getGravitationalPotentialM,
    valueOf, bind, ret, callUpdate,
    callGetVerticesCoordinatesRelativeToFieldPoint, callGetPerFacetFactor,
    callGetPerEdgeFactor.
  cbn [fst snd PolyhedronGravityCache.update
       PolyhedronGravityCache.getVerticesCoordinatesRelativeToFieldPoint
       PolyhedronGravityCache.getPerFacetFactor
       PolyhedronGravityCache.getPerEdgeFactor
       PolyhedronGravityCache.currentVerticesCoordinatesRelativeToFieldPoint_
       PolyhedronGravityCache.currentPerFacetFactor_
       PolyhedronGravityCache.currentPerEdgeFactor_].
  subst relative.
  congruence.
Qed.


(** C4.  On every instance constructed from arguments [a] with vertex
    indices in range and one dyad for every edge and facet, and queried any
    number of times before, [getGravitationalPotential p] returns half the
    density constant [gravitationalParameter / volume] times the difference
    of two sums.  The first has one term for every edge: the quadratic form
    of that edge's dyad in the position of the edge's first vertex relative
    to [p], times the edge's factor of Eq. 7 at [p].  The second has one term
    for every facet: the quadratic form of the facet's dyad in the position
    of the facet's first vertex relative to [p], times the facet's factor of
    Eq. 27 at [p].  Nothing in the value depends on the earlier queries. *)
Theorem getGravitationalPotential_value
    (a : arguments) (calls : list (Evaluator * Vector3d)) (p : Vector3d)
    (Hfacets :
       Forall (fun '(i, j, k) =>
                 VertexIndex (verticesCoordinates a) i
                 /\ VertexIndex (verticesCoordinates a) j
                 /\ VertexIndex (verticesCoordinates a) k)
         (verticesDefiningEachFacet a))
    (Hedges :
       Forall (fun '(i, j) =>
                 VertexIndex (verticesCoordinates a) i
                 /\ VertexIndex (verticesCoordinates a) j)
         (verticesDefiningEachEdge a))
    (HfacetDyads :
       List.length (facetDyads a) = List.length (verticesDefiningEachFacet a))
    (HedgeDyads :
       List.length (edgeDyads a) = List.length (verticesDefiningEachEdge a)) :
  let r := fun i : Z =>
    RelativeTo p (nth (Z.to_nat i) (verticesCoordinates a) nanVector3d) in
  let edgeTerm := fun edge : nat =>
    let '(i, j) := nth edge (verticesDefiningEachEdge a) (0, 0)%Z in
    Contraction (r i) (nth edge (edgeDyads a) nanMatrix3d) * Eq7 (r i) (r j) in
  let facetTerm := fun facet : nat =>
    let '(i, j, k) := nth facet (verticesDefiningEachFacet a) (0, 0, 0)%Z in
    Contraction (r i) (nth facet (facetDyads a) nanMatrix3d)
    * Eq27 (r i) (r j) (r k) in
  valueOf (getGravitationalPotential (afterCalls (init a) calls) p)
  = 0.5 * (gravitationalParameter a / volume a)
    * (Total (map edgeTerm (seq 0 (List.length (verticesDefiningEachEdge a))))
       - Total (map facetTerm
                  (seq 0 (List.length (verticesDefiningEachFacet a))))).
Proof.
  intros r edgeTerm facetTerm.
  rewrite getGravitationalPotential_body.
  unfold calculatePolyhedronGravitationalPotential, perEdgeTerms, perFacetTerms,
    sumOf.
  f_equal. f_equal.
  - f_equal. apply map_ext_in. intros edge Hedge. apply in_seq in Hedge.
    rewrite nth_perEdgeFactor by lia.
    subst edgeTerm. cbv beta.
    pose proof (proj1 (Forall_forall _ _) Hedges
                  (nth edge (verticesDefiningEachEdge a) (0, 0)%Z)
                  (nth_In _ _ (proj2 Hedge))) as Hrange.
    destruct (nth edge (verticesDefiningEachEdge a) (0, 0)%Z) as [i j].
    destruct Hrange as [Hi Hj].
    unfold weightedQuadraticForm. cbn [fst].
    rewrite !vertexRow_relative by assumption.
    reflexivity.
  - f_equal. apply map_ext_in. intros facet Hfacet. apply in_seq in Hfacet.
    rewrite nth_perFacetFactor by lia.
    subst facetTerm. cbv beta.
    pose proof (proj1 (Forall_forall _ _) Hfacets
                  (nth facet (verticesDefiningEachFacet a) (0, 0, 0)%Z)
                  (nth_In _ _ (proj2 Hfacet))) as Hrange.
    destruct (nth facet (verticesDefiningEachFacet a) (0, 0, 0)%Z) as [[i j] k].
    destruct Hrange as [Hi [Hj Hk]].
    unfold weightedQuadraticForm. cbn [fst].
    rewrite !vertexRow_relative by assumption.
    reflexivity.
Qed.


End EvaluatorClaims.

(** C4, at the tetrahedron with unit dyads: queried at (3,0,0) after an
    earlier query at (2,2,2). *)
Lemma getGravitationalPotential_value_witness :
  let a := tetrahedronArguments in
  Forall (fun '(i, j, k) =>
            VertexIndex (PolyhedronGravityField.verticesCoordinates a) i
            /\ VertexIndex (PolyhedronGravityField.verticesCoordinates a) j
            /\ VertexIndex (PolyhedronGravityField.verticesCoordinates a) k)
    (PolyhedronGravityField.verticesDefiningEachFacet a)
  /\ Forall (fun '(i, j) =>
               VertexIndex (PolyhedronGravityField.verticesCoordinates a) i
               /\ VertexIndex (PolyhedronGravityField.verticesCoordinates a) j)
       (PolyhedronGravityField.verticesDefiningEachEdge a)
  /\ List.length (PolyhedronGravityField.facetDyads a)
     = List.length (PolyhedronGravityField.verticesDefiningEachFacet a)
  /\ List.length (PolyhedronGravityField.edgeDyads a)
     = List.length (PolyhedronGravityField.verticesDefiningEachEdge a)
  /\ valueOf
       (@PolyhedronGravityField.getGravitationalPotential exampleCMath
          (@PolyhedronGravityField.afterCalls exampleCMath
             exampleDeclaredEvaluators (PolyhedronGravityField.init a)
             [(PolyhedronGravityField.LaplacianOfPotential, mkVector3d 2 2 2)])
          (mkVector3d 3 0 0))
     = 46.01789989466139.
Proof.
  cbv zeta.
  assert (Hfacets :
            Forall (fun '(i, j, k) =>
                      VertexIndex tetrahedronVertices i
                      /\ VertexIndex tetrahedronVertices j
                      /\ VertexIndex tetrahedronVertices k) tetrahedronFacets).
  { repeat (apply Forall_cons || apply Forall_nil); cbn; lia. }
  assert (Hedges :
            Forall (fun '(i, j) =>
                      VertexIndex tetrahedronVertices i
                      /\ VertexIndex tetrahedronVertices j) tetrahedronEdges).
  { repeat (apply Forall_cons || apply Forall_nil); cbn; lia. }
  split; [exact Hfacets |]. split; [exact Hedges |].
  split; [reflexivity |]. split; [reflexivity |].
  refine (eq_trans
            (@getGravitationalPotential_value exampleCMath
               exampleDeclaredEvaluators tetrahedronArguments
               [(PolyhedronGravityField.LaplacianOfPotential, mkVector3d 2 2 2)]
               (mkVector3d 3 0 0) Hfacets Hedges eq_refl eq_refl) _).
  vm_compute. reflexivity.
Defined.




Section CacheDiscipline.

Context `{CM : CMath} `{DE : DeclaredEvaluators}.

Import PolyhedronGravityField.

(** C6.  Each of the four evaluators, called with position [p] on any
    instance [f], starts with [update p], calls [update] at no other
    moment, and reads the cache only afterwards; the cache it leaves is
    the one [update p] produced.  Hence after any sequence of evaluator
    calls on a constructed instance, the cache holds the position of the
    last call and the relative coordinates, per-facet factors and per-edge
    factors computed from that position. *)
Theorem evaluators_update_cache_exactly_once
    (e : Evaluator) (f : t) (p : Vector3d)
    (a : arguments) (earlier : list (Evaluator * Vector3d)) :
  (exists reads,
      callsOf (evaluate e f p) = CallUpdate p :: reads
      /\ forallb (fun c => negb (isUpdate c)) reads = true)
  /\ List.length (filter isUpdate (callsOf (evaluate e f p))) = 1%nat
  /\ polyhedronGravityCache_ (objectAfter (evaluate e f p))
     = PolyhedronGravityCache.update (polyhedronGravityCache_ f) p
  /\ let cache :=
       polyhedronGravityCache_ (afterCalls (init a) (earlier ++ [(e, p)])) in
     let relative :=
       calculatePolyhedronVerticesCoordinatesRelativeToFieldPoint p
         (verticesCoordinates a) in
     PolyhedronGravityCache.currentBodyFixedPosition_ cache = p
     /\ PolyhedronGravityCache.getVerticesCoordinatesRelativeToFieldPoint cache
        = relative
     /\ PolyhedronGravityCache.getPerFacetFactor cache
        = calculatePolyhedronPerFacetFactor relative (verticesDefiningEachFacet a)
     /\ PolyhedronGravityCache.getPerEdgeFactor cache
        = calculatePolyhedronPerEdgeFactor relative (verticesDefiningEachEdge a).
Proof.
  destruct (evaluate_effect e f p) as [Hcache [reads [Hcalls Hreads]]].
  split; [exists reads; auto |].
  split.
  { rewrite Hcalls. simpl. f_equal.
    clear Hcalls. induction reads as [| c rest IH]; [reflexivity |].
    simpl in Hreads. apply andb_prop in Hreads as [Hc Hrest].
    simpl. destruct (isUpdate c); [discriminate | auto]. }
  split; [exact Hcache |].
  rewrite afterCalls_app. simpl.
  fold (objectAfter (evaluate e (afterCalls (init a) earlier) p)).
  rewrite (proj1 (evaluate_effect e (afterCalls (init a) earlier) p)).
  pose proof (reachable_cache_shape a earlier) as Hc.
  unfold cacheShapeOf in Hc. injection Hc as Hv Hf He.
  unfold PolyhedronGravityCache.update,
    PolyhedronGravityCache.getVerticesCoordinatesRelativeToFieldPoint,
    PolyhedronGravityCache.getPerFacetFactor,
    PolyhedronGravityCache.getPerEdgeFactor.
  simpl. rewrite Hv, Hf, He. repeat split.
Qed.

(** C10.  Construction from [a] returns an instance, and on that instance,
    after any sequence of evaluator calls, the shape accessors still return
    the constructor's arguments; the gravitational parameter is unchanged
    as well, and one evaluator call changes no member but the cache. *)
Theorem shape_accessors_frame
    (a : arguments) (calls : list (Evaluator * Vector3d)) :
  constructor a = Return (init a)
  /\ (let f := afterCalls (init a) calls in
      getVolume f = volume a
      /\ getVerticesCoordinates f = verticesCoordinates a
      /\ getVerticesDefiningEachFacet f = verticesDefiningEachFacet a
      /\ getVerticesDefiningEachEdge f = verticesDefiningEachEdge a
      /\ getFacetDyads f = facetDyads a
      /\ getEdgeDyads f = edgeDyads a
      /\ getFixedReferenceFrame f = fixedReferenceFrame a
      /\ gravitationalParameter_ f = gravitationalParameter a)
  /\ (forall (e : Evaluator) (f : t) (p : Vector3d),
        shapeOf (objectAfter (evaluate e f p)) = shapeOf f).
Proof.
  split; [reflexivity |].
  split.
  - pose proof (reachable_shape a calls) as Hs.
    unfold shapeOf in Hs. injection Hs as Hg Hvol Hv Hf He Hfd Hed Hfr.
    unfold getVolume, getVerticesCoordinates, getVerticesDefiningEachFacet,
      getVerticesDefiningEachEdge, getFacetDyads, getEdgeDyads,
      getFixedReferenceFrame.
    cbv zeta. repeat split; assumption.
  - intros e f p. rewrite evaluate_frame. reflexivity.
Qed.

End CacheDiscipline.

(** ** The cache on its own *)

Section CacheClaims.

Context `{CM : CMath}.

Import PolyhedronGravityCache.

(** A second update overwrites everything the first one wrote. *)
Lemma update_update (c : t) (p1 p2 : Vector3d) :
  update (update c p1) p2 = update c p2.
Proof. reflexivity. Qed.

(** Positions that bit-match are the same position. *)
Lemma bitMatches_eq (a b : Vector3d) : bitMatches a b = true -> a = b.
Proof.
  destruct a as [ax ay az], b as [bx b_y bz]. unfold bitMatches. cbn [vx vy vz].
  intro H. apply andb_prop in H as [H Hz]. apply andb_prop in H as [Hx Hy].
  apply FloatAxioms.Leibniz.eqb_spec in Hx, Hy, Hz. subst. reflexivity.
Qed.

(** Under either policy, two updates at different positions leave the cache
    that recomputing at the second position leaves.  With the skipping
    policy this rests on the positions being different: the second call
    compares its position with the one the cache holds. *)
Lemma updateWith_twice (policy : UpdatePolicy) (c : t) (p1 p2 : Vector3d) :
  p1 <> p2 ->
  updateWith policy (updateWith policy c p1) p2 = update c p2.
Proof.
  intro Hdifferent. destruct policy; cbn [updateWith]; [reflexivity |].
  destruct (bitMatches p1 (currentBodyFixedPosition_ c)) eqn:Hfirst.
  - apply bitMatches_eq in Hfirst.
    destruct (bitMatches p2 (currentBodyFixedPosition_ c)) eqn:Hsecond;
      [| reflexivity].
    apply bitMatches_eq in Hsecond. congruence.
  - cbn [update currentBodyFixedPosition_].
    destruct (bitMatches p2 p1) eqn:Hsecond; [| reflexivity].
    apply bitMatches_eq in Hsecond. congruence.
Qed.

(** C7.  On a cache whose shape has its vertex indices in range, whether
    [update] recomputes on every call or skips a call whose position
    bit-matches the cached one: after [update p1; update p2] with
    [p1 <> p2] the three getters return what [p2] and the shape determine.
    The relative coordinates are each vertex minus [p2]; the per-facet
    factors are Eq. 27 and the per-edge factors Eq. 7 at the vertices
    relative to [p2]; the cached position is [p2].  None of this mentions
    [p1], and any other first position different from [p2] leaves the same
    cache. *)
Theorem second_update_does_not_see_first
    (policy : UpdatePolicy) (c : t) (p1 p2 : Vector3d)
    (Hdifferent : p1 <> p2)
    (Hfacets :
       Forall (fun '(i, j, k) =>
                 VertexIndex (verticesCoordinates_ c) i
                 /\ VertexIndex (verticesCoordinates_ c) j
                 /\ VertexIndex (verticesCoordinates_ c) k)
         (verticesDefiningEachFacet_ c))
    (Hedges :
       Forall (fun '(i, j) =>
                 VertexIndex (verticesCoordinates_ c) i
                 /\ VertexIndex (verticesCoordinates_ c) j)
         (verticesDefiningEachEdge_ c)) :
  let c2 := updateWith policy (updateWith policy c p1) p2 in
  let r := fun i : Z =>
    RelativeTo p2 (nth (Z.to_nat i) (verticesCoordinates_ c) nanVector3d) in
  getVerticesCoordinatesRelativeToFieldPoint c2
  = map (fun v => RelativeTo p2 v) (verticesCoordinates_ c)
  /\ getPerFacetFactor c2
     = map (fun '(i, j, k) => Eq27 (r i) (r j) (r k))
         (verticesDefiningEachFacet_ c)
  /\ getPerEdgeFactor c2
     = map (fun '(i, j) => Eq7 (r i) (r j)) (verticesDefiningEachEdge_ c)
  /\ currentBodyFixedPosition_ c2 = p2
  /\ forall p1', p1' <> p2 ->
       updateWith policy (updateWith policy c p1') p2 = c2.
Proof.
  intros c2 r. subst c2 r.
  rewrite (updateWith_twice policy c p1 p2 Hdifferent).
  unfold getVerticesCoordinatesRelativeToFieldPoint, getPerFacetFactor,
    getPerEdgeFactor, update.
  cbn [currentVerticesCoordinatesRelativeToFieldPoint_ currentPerFacetFactor_
       currentPerEdgeFactor_ currentBodyFixedPosition_].
  split; [reflexivity |].
  split; [apply perFacetFactor_written_out; exact Hfacets |].
  split; [apply perEdgeFactor_written_out; exact Hedges |].
  split; [reflexivity |].
  intros p1' Hdifferent'. apply updateWith_twice. exact Hdifferent'.
Qed.

(** C8, as amended.  Construction returns a cache whose current position is
    (NaN, NaN, NaN) and whose relative coordinates, per-facet factors and
    per-edge factors are empty: before the first update the getters return
    containers of size 0, which hold no entry and so no NaN. *)
Theorem fresh_cache_state
    (verticesCoordinates : MatrixXd)
    (verticesDefiningEachFacet : MatrixXi3)
    (verticesDefiningEachEdge : MatrixXi2) :
  let fresh :=
    init verticesCoordinates verticesDefiningEachFacet verticesDefiningEachEdge in
  constructor verticesCoordinates verticesDefiningEachFacet verticesDefiningEachEdge
  = Return fresh
  /\ currentBodyFixedPosition_ fresh = mkVector3d TUDAT_NAN TUDAT_NAN TUDAT_NAN
  /\ isnan TUDAT_NAN = true
  /\ getVerticesCoordinatesRelativeToFieldPoint fresh = []
  /\ getPerFacetFactor fresh = []
  /\ getPerEdgeFactor fresh = []
  /\ matrixHoldsNaN (getVerticesCoordinatesRelativeToFieldPoint fresh) = false
  /\ vectorHoldsNaN (getPerFacetFactor fresh) = false
  /\ vectorHoldsNaN (getPerEdgeFactor fresh) = false.
Proof.
  intros fresh. subst fresh. repeat split.
Qed.

End CacheClaims.

(** C7, at a tetrahedron, with the policy that skips bit-matching
    positions: first queried at (2,2,2) and then at (3,0,0). *)
Lemma second_update_does_not_see_first_witness :
  let c := PolyhedronGravityCache.init tetrahedronVertices tetrahedronFacets
             tetrahedronEdges in
  let c2 :=
    @PolyhedronGravityCache.updateWith exampleCMath
      PolyhedronGravityCache.SkipWhenPositionBitMatches
      (@PolyhedronGravityCache.updateWith exampleCMath
         PolyhedronGravityCache.SkipWhenPositionBitMatches c (mkVector3d 2 2 2))
      (mkVector3d 3 0 0) in
  mkVector3d 2 2 2 <> mkVector3d 3 0 0
  /\ PolyhedronGravityCache.getVerticesCoordinatesRelativeToFieldPoint c2
     = [ mkVector3d (-3) 0 0; mkVector3d (-2) 0 0;
         mkVector3d (-3) 1 0; mkVector3d (-3) 0 1 ]
  /\ PolyhedronGravityCache.currentBodyFixedPosition_ c2 = mkVector3d 3 0 0.
Proof.
  intros c c2.
  assert (Hdifferent : mkVector3d 2 2 2 <> mkVector3d 3 0 0).
  { intro H. apply (f_equal (fun v => vx v =? 2)) in H.
    vm_compute in H. discriminate H. }
  split; [exact Hdifferent |].
  pose proof (@second_update_does_not_see_first exampleCMath
                PolyhedronGravityCache.SkipWhenPositionBitMatches c
                (mkVector3d 2 2 2) (mkVector3d 3 0 0) Hdifferent) as H.
  cbv zeta in H.
  destruct H as [Hrelative [_ [_ [Hposition _]]]].
  - repeat (apply Forall_cons || apply Forall_nil); cbn; lia.
  - repeat (apply Forall_cons || apply Forall_nil); cbn; lia.
  - subst c2. split; [rewrite Hrelative; vm_compute; reflexivity |].
    exact Hposition.
Defined.

(** C8, as stated, fails: on a tetrahedron the getters of a freshly
    constructed cache return containers in which nothing is NaN, and the
    per-facet factors read there are the empty vector. *)
Lemma fresh_cache_reads_hold_no_nan :
  let fresh :=
    PolyhedronGravityCache.init tetrahedronVertices tetrahedronFacets
      tetrahedronEdges in
  PolyhedronGravityCache.constructor tetrahedronVertices tetrahedronFacets
    tetrahedronEdges = Return fresh
  /\ matrixHoldsNaN
       (PolyhedronGravityCache.getVerticesCoordinatesRelativeToFieldPoint fresh)
     = false
  /\ vectorHoldsNaN (PolyhedronGravityCache.getPerFacetFactor fresh) = false
  /\ vectorHoldsNaN (PolyhedronGravityCache.getPerEdgeFactor fresh) = false
  /\ PolyhedronGravityCache.getPerFacetFactor fresh = [].
Proof. cbv zeta. repeat split. Qed.

(** ** Construction and connectivity *)

(** C9, as stated, fails: a facet row and an edge row name vertex 7 of a
    4-vertex shape, and both constructors return an instance that holds
    those rows. *)
Lemma malformed_shape_is_constructed :
  malformedConnectivity tetrahedronVertices brokenFacets brokenEdges = true
  /\ PolyhedronGravityCache.constructor tetrahedronVertices brokenFacets
       brokenEdges
     = Return (PolyhedronGravityCache.init tetrahedronVertices brokenFacets
                 brokenEdges)
  /\ PolyhedronGravityField.constructor brokenArguments
     = Return (PolyhedronGravityField.init brokenArguments)
  /\ PolyhedronGravityField.getVerticesDefiningEachFacet
       (PolyhedronGravityField.init brokenArguments) = brokenFacets
  /\ PolyhedronGravityField.getVerticesDefiningEachEdge
       (PolyhedronGravityField.init brokenArguments) = brokenEdges.
Proof. repeat split. Qed.

(** C9, as amended.  Neither constructor looks at the connectivity: for all
    arguments, malformed or not, construction returns an instance, never an
    exception, and the instance and its cache store the vertex, facet and
    edge matrices as given. *)
Theorem constructors_do_not_validate (a : PolyhedronGravityField.arguments) :
  let v := PolyhedronGravityField.verticesCoordinates a in
  let f := PolyhedronGravityField.verticesDefiningEachFacet a in
  let e := PolyhedronGravityField.verticesDefiningEachEdge a in
  PolyhedronGravityCache.constructor v f e
  = Return (PolyhedronGravityCache.init v f e)
  /\ PolyhedronGravityField.constructor a
     = Return (PolyhedronGravityField.init a)
  /\ (forall x, PolyhedronGravityCache.constructor v f e <> Throw x)
  /\ (forall x, PolyhedronGravityField.constructor a <> Throw x)
  /\ cacheShapeOf (PolyhedronGravityCache.init v f e) = (v, f, e)
  /\ cacheShapeOf
       (PolyhedronGravityField.polyhedronGravityCache_
          (PolyhedronGravityField.init a)) = (v, f, e)
  /\ PolyhedronGravityField.getVerticesCoordinates
       (PolyhedronGravityField.init a) = v
  /\ PolyhedronGravityField.getVerticesDefiningEachFacet
       (PolyhedronGravityField.init a) = f
  /\ PolyhedronGravityField.getVerticesDefiningEachEdge
       (PolyhedronGravityField.init a) = e.
Proof.
  cbv zeta. repeat split; intros x H; discriminate H.
Qed.

(** ** Keplerian to USM-EM conversion *)

Section Conversion.

Context `{HE : HodographAndExponentialMap}.

(** Each guard on its own ends the conversion with the error. *)
Lemma conversion_throws (k : Vector6d) (mu : double) :
  ((eccentricity k =? 0) = true /\ (argumentOfPeriapsis k =? 0) = false)
  \/ ((inclination k =? 0) = true
      /\ (longitudeOfAscendingNode k =? 0) = false)
  \/ ((inclination k <? 0) = true \/ (PI <? inclination k) = true) ->
  convertKeplerianToUnifiedStateModelWithExponentialMapElements k mu
  = Throw (runtime_error DegenerateGeometryError).
Proof.
  intros Hdegenerate.
  unfold convertKeplerianToUnifiedStateModelWithExponentialMapElements.
  destruct Hdegenerate as [[He Hw] | [[Hi Ho] | Hrange]].
  - rewrite He, Hw. reflexivity.
  - rewrite Hi, Ho.
    destruct ((eccentricity k =? 0) && negb (argumentOfPeriapsis k =? 0));
      reflexivity.
  - destruct ((eccentricity k =? 0) && negb (argumentOfPeriapsis k =? 0));
      [reflexivity |].
    destruct ((inclination k =? 0) && negb (longitudeOfAscendingNode k =? 0));
      [reflexivity |].
    destruct Hrange as [Hlow | Hhigh]; [rewrite Hlow | rewrite Hhigh].
    + reflexivity.
    + rewrite orb_true_r. reflexivity.
Qed.

(** C2.  When the eccentricity compares equal to 0 and the argument of
    periapsis does not, or the inclination compares equal to 0 and the
    longitude of the ascending node does not, or the inclination is below 0
    or above pi, the conversion leaves by the degenerate-geometry runtime
    error and returns no elements.  The conversion is a function of its two
    arguments, so every call with the same input ends the same way. *)
Theorem conversion_rejects_degenerate_input
    (k : Vector6d) (mu : double)
    (Hdegenerate :
       ((eccentricity k =? 0) = true /\ (argumentOfPeriapsis k =? 0) = false)
       \/ ((inclination k =? 0) = true
           /\ (longitudeOfAscendingNode k =? 0) = false)
       \/ ((inclination k <? 0) = true \/ (PI <? inclination k) = true)) :
  convertKeplerianToUnifiedStateModelWithExponentialMapElements k mu
  = Throw (runtime_error DegenerateGeometryError)
  /\ forall elements,
       convertKeplerianToUnifiedStateModelWithExponentialMapElements k mu
       <> Return elements.
Proof.
  pose proof (conversion_throws k mu Hdegenerate) as Hthrow.
  split; [exact Hthrow |].
  intros elements H. rewrite Hthrow in H. discriminate H.
Qed.

(** An input that passes the three guards is converted. *)
Lemma conversion_accepts_guarded_input (k : Vector6d) (mu : double) :
  (eccentricity k =? 0) && negb (argumentOfPeriapsis k =? 0) = false ->
  (inclination k =? 0) && negb (longitudeOfAscendingNode k =? 0) = false ->
  (inclination k <? 0) || (PI <? inclination k) = false ->
  convertKeplerianToUnifiedStateModelWithExponentialMapElements k mu
  = Return (unifiedStateModelElementsOf k mu).
Proof.
  intros H1 H2 H3.
  unfold convertKeplerianToUnifiedStateModelWithExponentialMapElements.
  rewrite H1, H2, H3. reflexivity.
Qed.

End Conversion.

(** C2, at the input of the conversion test's case 8 (inclination 200
    degrees). *)
Lemma conversion_rejects_degenerate_input_witness :
  (PI <? inclination case8KeplerianElements) = true
  /\ @convertKeplerianToUnifiedStateModelWithExponentialMapElements
       exampleHodographAndExponentialMap case8KeplerianElements
       centralBodyGravitationalParameter
     = Throw (runtime_error DegenerateGeometryError).
Proof.
  assert (Hhigh : (PI <? inclination case8KeplerianElements) = true)
    by (vm_compute; reflexivity).
  split; [exact Hhigh |].
  apply (@conversion_rejects_degenerate_input exampleHodographAndExponentialMap
           case8KeplerianElements centralBodyGravitationalParameter).
  right. right. right. exact Hhigh.
Defined.

(** The three rejections the conversion test expects (cases 4, 5 and 8), and
    the acceptance at an inclination of exactly [PI] (case 6). *)
Example conversion_test_cases :
  (forall HE mu,
      @convertKeplerianToUnifiedStateModelWithExponentialMapElements HE
        case4KeplerianElements mu
      = Throw (runtime_error DegenerateGeometryError))
  /\ (forall HE mu,
         @convertKeplerianToUnifiedStateModelWithExponentialMapElements HE
           case5KeplerianElements mu
         = Throw (runtime_error DegenerateGeometryError))
  /\ (forall HE mu,
         @convertKeplerianToUnifiedStateModelWithExponentialMapElements HE
           case8KeplerianElements mu
         = Throw (runtime_error DegenerateGeometryError))
  /\ (forall HE mu,
         @convertKeplerianToUnifiedStateModelWithExponentialMapElements HE
           case6KeplerianElements mu
         = Return (unifiedStateModelElementsOf case6KeplerianElements mu)).
Proof.
  split; [| split; [| split]]; intros HE mu.
  - apply conversion_throws. left. split; vm_compute; reflexivity.
  - apply conversion_throws. right. left. split; vm_compute; reflexivity.
  - apply conversion_throws. right. right. right. vm_compute; reflexivity.
  - apply conversion_accepts_guarded_input; vm_compute; reflexivity.
Qed.

(** ** [std::map] lookups *)

Section StdMapFacts.

Context {K V : Type} (keyEqb : K -> K -> bool).
Hypothesis keyEqb_eq : forall a b, keyEqb a b = true <-> a = b.

Lemma keyEqb_refl (k : K) : keyEqb k k = true.
Proof. apply keyEqb_eq. reflexivity. Qed.

Lemma keyEqb_neq (a b : K) : a <> b -> keyEqb a b = false.
Proof.
  intro Hne. destruct (keyEqb a b) eqn:E; [| reflexivity].
  apply keyEqb_eq in E. contradiction.
Qed.

Lemma mapFind_absent (m : list (K * V)) (k : K) :
  mapFind keyEqb m k = None <-> ~ In k (map fst m).
Proof.
  induction m as [| [k' v] rest IH]; simpl.
  - split; [intros _ H; exact H | reflexivity].
  - destruct (keyEqb k' k) eqn:E.
    + apply keyEqb_eq in E. split; [discriminate |].
      intro H. exfalso. apply H. left. exact E.
    + rewrite IH. split.
      * intros H [Heq | Hin]; [| exact (H Hin)].
        apply keyEqb_eq in Heq. congruence.
      * intros H Hin. apply H. right. exact Hin.
Qed.

Lemma mapFind_In (m : list (K * V)) (k : K) (v : V) :
  NoDup (map fst m) -> In (k, v) m -> mapFind keyEqb m k = Some v.
Proof.
  induction m as [| [k' v'] rest IH]; simpl; intros Hnodup Hin.
  - contradiction.
  - inversion Hnodup as [| ? ? Hfresh Hrest]; subst.
    destruct Hin as [Heq | Hin].
    + injection Heq as -> ->. rewrite keyEqb_refl. reflexivity.
    + destruct (keyEqb k' k) eqn:E.
      * apply keyEqb_eq in E. subst k'. exfalso. apply Hfresh.
        apply (in_map fst) in Hin. exact Hin.
      * apply IH; assumption.
Qed.

Lemma mapFind_Some_In (m : list (K * V)) (k : K) (v : V) :
  mapFind keyEqb m k = Some v -> In (k, v) m.
Proof.
  induction m as [| [k' v'] rest IH]; simpl; intro H.
  - discriminate.
  - destruct (keyEqb k' k) eqn:E.
    + apply keyEqb_eq in E. injection H as ->. left. congruence.
    + right. apply IH. exact H.
Qed.

Lemma mapFind_assign_same (m : list (K * V)) (k : K) (v : V) :
  mapFind keyEqb (mapAssign keyEqb m k v) k = Some v.
Proof.
  induction m as [| [k' v'] rest IH]; simpl.
  - rewrite keyEqb_refl. reflexivity.
  - destruct (keyEqb k' k) eqn:E; simpl; rewrite E; [reflexivity | exact IH].
Qed.

Lemma mapFind_assign_other (m : list (K * V)) (k k0 : K) (v : V) :
  k <> k0 ->
  mapFind keyEqb (mapAssign keyEqb m k v) k0 = mapFind keyEqb m k0.
Proof.
  intro Hne.
  induction m as [| [k' v'] rest IH]; simpl.
  - rewrite (keyEqb_neq _ _ Hne). reflexivity.
  - destruct (keyEqb k' k) eqn:E; simpl.
    + apply keyEqb_eq in E. subst k'.
      rewrite (keyEqb_neq _ _ Hne). reflexivity.
    + destruct (keyEqb k' k0); [reflexivity | exact IH].
Qed.

Lemma mapAssign_keys (m : list (K * V)) (k : K) (v : V) :
  map fst (mapAssign keyEqb m k v)
  = if existsb (fun k' => keyEqb k' k) (map fst m)
    then map fst m else map fst m ++ [k].
Proof.
  induction m as [| [k' v'] rest IH]; simpl.
  - reflexivity.
  - destruct (keyEqb k' k) eqn:E; simpl.
    + reflexivity.
    + rewrite IH. destruct (existsb _ _); reflexivity.
Qed.

Lemma mapAssign_NoDup (m : list (K * V)) (k : K) (v : V) :
  NoDup (map fst m) -> NoDup (map fst (mapAssign keyEqb m k v)).
Proof.
  intro Hnodup. rewrite mapAssign_keys.
  destruct (existsb _ _) eqn:E; [exact Hnodup |].
  apply NoDup_app; [exact Hnodup | constructor; [intros [] | constructor] |].
  intros x Hin [Heq | []]. subst x.
  assert (existsb (fun k' => keyEqb k' k) (map fst m) = true) as Habs.
  { apply existsb_exists. exists k. split; [exact Hin | apply keyEqb_refl]. }
  congruence.
Qed.

End StdMapFacts.

(** ** [body.cpp]: lookups in the body map *)

Lemma bodyCount_zero (bodyMap : NamedBodyMap) (bodyName : string) :
  (bodyCount bodyMap bodyName =? 0)%nat = true
  <-> mapFind String.eqb bodyMap bodyName = None.
Proof.
  unfold bodyCount, mapCount.
  destruct (mapFind String.eqb bodyMap bodyName); simpl; split;
    intro H; try reflexivity; discriminate H.
Qed.

(** X3.  The three ways [getBodyGravitationalParameter] ends on a map with one
    entry per name: a name the map does not hold gives the "no such body"
    error; a body without gravity field gives the "has not gravity field"
    error; otherwise the gravitational parameter of the body's gravity field
    is returned.  The exception of [at] is never met. *)
Theorem getBodyGravitationalParameter_cases
    (bodyMap : NamedBodyMap) (bodyName : string)
    (Hkeys : NoDup (map fst bodyMap)) :
  (~ In bodyName (map fst bodyMap) ->
   getBodyGravitationalParameter bodyMap bodyName
   = Thrown (std_runtime_error
               ("Error when getting gravitational parameter of body "
                ++ bodyName ++ ", no such body is found")))
  /\ (forall body,
        In (bodyName, body) bodyMap ->
        getGravityFieldModel body = None ->
        getBodyGravitationalParameter bodyMap bodyName
        = Thrown (std_runtime_error
                    ("Error when getting gravitational parameter of body "
                     ++ bodyName ++ ", body has not gravity field")))
  /\ (forall body gravityFieldModel,
        In (bodyName, body) bodyMap ->
        getGravityFieldModel body = Some gravityFieldModel ->
        getBodyGravitationalParameter bodyMap bodyName
        = Returned (getGravitationalParameter gravityFieldModel))
  /\ getBodyGravitationalParameter bodyMap bodyName <> Thrown thrown_by_at.
Proof.
  unfold getBodyGravitationalParameter, bodyAt.
  repeat split.
  - intro Habsent.
    apply (mapFind_absent String.eqb String.eqb_eq) in Habsent.
    apply bodyCount_zero in Habsent. rewrite Habsent. reflexivity.
  - intros body Hin Hnone.
    pose proof (mapFind_In String.eqb String.eqb_eq _ _ _ Hkeys Hin) as Hfind.
    destruct (bodyCount bodyMap bodyName =? 0)%nat eqn:E.
    + apply bodyCount_zero in E. congruence.
    + rewrite Hfind, Hnone. reflexivity.
  - intros body g Hin Hsome.
    pose proof (mapFind_In String.eqb String.eqb_eq _ _ _ Hkeys Hin) as Hfind.
    destruct (bodyCount bodyMap bodyName =? 0)%nat eqn:E.
    + apply bodyCount_zero in E. congruence.
    + rewrite Hfind, Hsome. reflexivity.
  - destruct (bodyCount bodyMap bodyName =? 0)%nat eqn:E; [discriminate |].
    destruct (mapFind String.eqb bodyMap bodyName) as [body |] eqn:Hfind.
    + destruct (getGravityFieldModel body); discriminate.
    + exfalso. apply bodyCount_zero in Hfind. congruence.
Qed.

(** ** [body.cpp]: the global frame origin *)

Lemma isOrigin_not_unset (entry : string * Body) :
  isOrigin entry = true -> isUnset entry = false.
Proof.
  unfold isOrigin, isUnset. intro H.
  apply Z.eqb_eq in H. rewrite H. reflexivity.
Qed.

Lemma getGlobalFrameOriginFrom_cons (name : string) (body : Body)
    (rest : NamedBodyMap) (current : string) :
  getGlobalFrameOriginFrom ((name, body) :: rest) current
  = if isUnset (name, body)
    then Thrown (std_runtime_error
                   ("Error, body " ++ name
                    ++ " does not have global frame origin set"))
    else if isOrigin (name, body)
    then if negb (current =? "SSB")%string
         then Thrown (std_runtime_error
                        ("Error, body " ++ name
                         ++ " found as global frame origin, but body "
                         ++ current
                         ++ " has already been detected as global frame origin."))
         else getGlobalFrameOriginFrom rest name
    else getGlobalFrameOriginFrom rest current.
Proof. reflexivity. Qed.

(** Entries that are neither origin nor unset leave the loop's state as it
    is. *)
Lemma getGlobalFrameOriginFrom_ordinary (entries rest : NamedBodyMap) (current : string) :
  forallb isOrdinary entries = true ->
  getGlobalFrameOriginFrom (entries ++ rest) current
  = getGlobalFrameOriginFrom rest current.
Proof.
  induction entries as [| [name body] more IH]; intro Hordinary.
  - reflexivity.
  - simpl in Hordinary. apply andb_prop in Hordinary as [Hthis Hmore].
    unfold isOrdinary in Hthis. apply andb_prop in Hthis as [Ho Hu].
    apply negb_true_iff in Ho, Hu.
    change (((name, body) :: more) ++ rest) with ((name, body) :: (more ++ rest)).
    rewrite getGlobalFrameOriginFrom_cons, Hu, Ho. apply IH. exact Hmore.
Qed.

(** A body whose origin flag is -1 makes [getGlobalFrameOrigin] throw,
    wherever the iteration meets it. *)
Lemma getGlobalFrameOriginFrom_unset (entries : NamedBodyMap) :
  forall current entry,
    In entry entries -> isUnset entry = true ->
    exists what,
      getGlobalFrameOriginFrom entries current = Thrown (std_runtime_error what).
Proof.
  induction entries as [| [name body] rest IH]; intros current entry Hin Hunset.
  - contradiction.
  - rewrite getGlobalFrameOriginFrom_cons.
    destruct (isUnset (name, body)) eqn:Hu; [eexists; reflexivity |].
    destruct Hin as [Heq | Hin]; [subst entry; congruence |].
    destruct (isOrigin (name, body)).
    + destruct (negb (current =? "SSB")%string); [eexists; reflexivity |].
      exact (IH _ _ Hin Hunset).
    + exact (IH _ _ Hin Hunset).
Qed.

(** When no origin body is called "SSB", the loop returns [origin] exactly
    when no flag is -1 and either no body is origin and [origin] is the
    value the loop started with, or the loop started with "SSB" and [origin]
    names the only origin body. *)
Lemma getGlobalFrameOriginFrom_returns (entries : NamedBodyMap) :
  forall current origin,
    Forall (fun entry => fst entry <> "SSB"%string) (filter isOrigin entries) ->
    (getGlobalFrameOriginFrom entries current = Returned origin
     <-> forallb (fun entry => negb (isUnset entry)) entries = true
         /\ ((filter isOrigin entries = [] /\ origin = current)
             \/ (current = "SSB"%string
                 /\ exists body, filter isOrigin entries = [(origin, body)]))).
Proof.
  induction entries as [| [name body] rest IH]; intros current origin Hnames.
  - simpl. split.
    + intro H. injection H as <-. split; [reflexivity | left; split; reflexivity].
    + intros [_ [[_ ->] | [_ [b Hb]]]]; [reflexivity | discriminate Hb].
  - rewrite getGlobalFrameOriginFrom_cons.
    cbn [forallb filter].
    destruct (isUnset (name, body)) eqn:Hu.
    { cbn [negb andb]. split; [discriminate | intros [H _]; discriminate H]. }
    cbn [negb andb].
    destruct (isOrigin (name, body)) eqn:Ho.
    + cbn [filter] in Hnames. rewrite Ho in Hnames.
      inversion Hnames as [| ? ? Hname Hrest]; subst. simpl in Hname.
      destruct (String.eqb_spec current "SSB") as [-> | Hcur]; simpl negb; cbv iota.
      * rewrite (IH name origin Hrest). split.
        -- intros [Hall [[Hnil ->] | [Habs _]]]; [| contradiction].
           split; [exact Hall |]. right. split; [reflexivity |].
           exists body. rewrite Hnil. reflexivity.
        -- intros [Hall [[Habs _] | [_ [b Hb]]]]; [discriminate Habs |].
           injection Hb as -> _ Hnil.
           split; [exact Hall |]. left. split; [exact Hnil | reflexivity].
      * split; [discriminate |].
        intros [_ [[Habs _] | [Habs _]]]; [discriminate Habs | contradiction].
    + cbn [filter] in Hnames. rewrite Ho in Hnames.
      exact (IH current origin Hnames).
Qed.

Lemma Permutation_filter_same {A : Type} (f : A -> bool) (l l' : list A) :
  Permutation l l' -> Permutation (filter f l) (filter f l').
Proof.
  induction 1 as [| x l l' _ IH | x y l | l l' l'' _ IH1 _ IH2]; simpl.
  - constructor.
  - destruct (f x); [constructor |]; exact IH.
  - destruct (f x), (f y); try apply Permutation_refl. constructor.
  - exact (Permutation_trans IH1 IH2).
Qed.

Lemma Permutation_forallb_same {A : Type} (f : A -> bool) (l l' : list A) :
  Permutation l l' -> forallb f l = forallb f l'.
Proof.
  induction 1 as [| x l l' _ IH | x y l | l l' l'' _ IH1 _ IH2]; simpl.
  - reflexivity.
  - rewrite IH. reflexivity.
  - destruct (f x), (f y); reflexivity.
  - congruence.
Qed.

(** X4.  A body whose origin flag was never set (-1) makes [getGlobalFrameOrigin]
    throw, wherever it stands in the map and whatever the other bodies are. *)
Theorem getGlobalFrameOrigin_unset_flag_throws
    (bodyMap : NamedBodyMap) (name : string) (body : Body)
    (Hin : In (name, body) bodyMap)
    (Hunset : getIsBodyGlobalFrameOrigin body = (-1)%Z) :
  exists what, getGlobalFrameOrigin bodyMap = Thrown (std_runtime_error what).
Proof.
  apply (getGlobalFrameOriginFrom_unset bodyMap "SSB" (name, body) Hin).
  unfold isUnset. simpl. rewrite Hunset. reflexivity.
Qed.

(** X5.  When no origin body is itself called "SSB", [getGlobalFrameOrigin]
    returns [origin] exactly when no body has the flag -1 and either no body
    is flagged as origin and [origin] is "SSB", or exactly one body is and
    [origin] is its name.  In every other case it throws. *)
Theorem getGlobalFrameOrigin_returns_iff
    (bodyMap : NamedBodyMap) (origin : string)
    (Hnames : Forall (fun entry => fst entry <> "SSB"%string)
                (filter isOrigin bodyMap)) :
  getGlobalFrameOrigin bodyMap = Returned origin
  <-> forallb (fun entry => negb (isUnset entry)) bodyMap = true
      /\ ((filter isOrigin bodyMap = [] /\ origin = "SSB"%string)
          \/ exists body, filter isOrigin bodyMap = [(origin, body)]).
Proof.
  unfold getGlobalFrameOrigin.
  rewrite (getGlobalFrameOriginFrom_returns bodyMap "SSB" origin Hnames).
  split; intros [Hall [Hnone | Hone]]; (split; [exact Hall |]).
  - left. exact Hnone.
  - right. exact (proj2 Hone).
  - left. exact Hnone.
  - right. split; [reflexivity | exact Hone].
Qed.

(** X6.  The order in which the unordered map is iterated does not change what
    [getGlobalFrameOrigin] returns, as long as no origin body is called
    "SSB": two orders of the same entries return the same origin or both
    throw. *)
Theorem getGlobalFrameOrigin_iteration_order
    (bodyMap reordered : NamedBodyMap) (origin : string)
    (Hsame : Permutation bodyMap reordered)
    (Hnames : Forall (fun entry => fst entry <> "SSB"%string)
                (filter isOrigin bodyMap)) :
  getGlobalFrameOrigin bodyMap = Returned origin
  <-> getGlobalFrameOrigin reordered = Returned origin.
Proof.
  pose proof (Permutation_filter_same isOrigin _ _ Hsame) as Hfilter.
  assert (Hnames' : Forall (fun entry => fst entry <> "SSB"%string)
                      (filter isOrigin reordered)).
  { rewrite Forall_forall in Hnames |- *. intros entry Hin.
    apply Hnames. apply (Permutation_in _ (Permutation_sym Hfilter)). exact Hin. }
  unfold getGlobalFrameOrigin.
  rewrite (getGlobalFrameOriginFrom_returns bodyMap "SSB" origin Hnames).
  rewrite (getGlobalFrameOriginFrom_returns reordered "SSB" origin Hnames').
  rewrite (Permutation_forallb_same _ _ _ Hsame).
  split; intros [Hall [[Hnil Ho] | [Hs [body Hone]]]]; (split; [exact Hall |]).
  - left. split; [| exact Ho]. rewrite Hnil in Hfilter.
    apply Permutation_nil in Hfilter. exact Hfilter.
  - right. split; [exact Hs |]. exists body. rewrite Hone in Hfilter.
    apply Permutation_length_1_inv in Hfilter. exact Hfilter.
  - left. split; [| exact Ho]. rewrite Hnil in Hfilter.
    apply Permutation_sym, Permutation_nil in Hfilter. exact Hfilter.
  - right. split; [exact Hs |]. exists body. rewrite Hone in Hfilter.
    apply Permutation_sym, Permutation_length_1_inv in Hfilter. exact Hfilter.
Qed.

(** X7.  A second origin body is reported with both names: when the first origin
    body [first] is not called "SSB" and only ordinary bodies stand before
    the second one, the error names the second body as found and [first] as
    already detected. *)
Theorem getGlobalFrameOrigin_second_origin_throws
    (before between after : NamedBodyMap)
    (first second : string) (firstBody secondBody : Body)
    (Hbefore : forallb isOrdinary before = true)
    (Hbetween : forallb isOrdinary between = true)
    (Hfirst : getIsBodyGlobalFrameOrigin firstBody = 1%Z)
    (Hsecond : getIsBodyGlobalFrameOrigin secondBody = 1%Z)
    (Hname : first <> "SSB"%string) :
  getGlobalFrameOrigin
    (before ++ (first, firstBody) :: between ++ (second, secondBody) :: after)
  = Thrown (std_runtime_error
              ("Error, body " ++ second
               ++ " found as global frame origin, but body " ++ first
               ++ " has already been detected as global frame origin.")).
Proof.
  unfold getGlobalFrameOrigin.
  rewrite (getGlobalFrameOriginFrom_ordinary _ _ _ Hbefore).
  rewrite getGlobalFrameOriginFrom_cons.
  unfold isUnset, isOrigin. simpl fst; simpl snd. rewrite Hfirst.
  change ((1 =? -1)%Z) with false. change ((1 =? 1)%Z) with true.
  change (negb ("SSB" =? "SSB")%string) with false. cbv iota.
  rewrite (getGlobalFrameOriginFrom_ordinary _ _ _ Hbetween).
  rewrite getGlobalFrameOriginFrom_cons.
  unfold isUnset, isOrigin. simpl fst; simpl snd. rewrite Hsecond.
  change ((1 =? -1)%Z) with false. change ((1 =? 1)%Z) with true. cbv iota.
  apply String.eqb_neq in Hname. rewrite Hname. reflexivity.
Qed.

(** X8.  An origin body that is itself called "SSB" is not remembered: a later
    origin body replaces it without error, while the same two bodies met in
    the other order are reported as a double origin. *)
Theorem getGlobalFrameOrigin_origin_called_SSB
    (before between after : NamedBodyMap)
    (other : string) (ssbBody otherBody : Body)
    (Hbefore : forallb isOrdinary before = true)
    (Hbetween : forallb isOrdinary between = true)
    (Hafter : forallb isOrdinary after = true)
    (Hssb : getIsBodyGlobalFrameOrigin ssbBody = 1%Z)
    (Hother : getIsBodyGlobalFrameOrigin otherBody = 1%Z)
    (Hname : other <> "SSB"%string) :
  getGlobalFrameOrigin
    (before ++ ("SSB"%string, ssbBody) :: between ++ (other, otherBody) :: after)
  = Returned other
  /\ getGlobalFrameOrigin
       (before ++ (other, otherBody) :: between ++ ("SSB"%string, ssbBody) :: after)
     = Thrown (std_runtime_error
                 ("Error, body SSB found as global frame origin, but body "
                  ++ other
                  ++ " has already been detected as global frame origin.")).
Proof.
  split.
  - unfold getGlobalFrameOrigin.
    rewrite (getGlobalFrameOriginFrom_ordinary _ _ _ Hbefore).
    rewrite getGlobalFrameOriginFrom_cons.
    unfold isUnset, isOrigin. simpl fst; simpl snd. rewrite Hssb.
    change ((1 =? -1)%Z) with false. change ((1 =? 1)%Z) with true.
    change (negb ("SSB" =? "SSB")%string) with false. cbv iota.
    rewrite (getGlobalFrameOriginFrom_ordinary _ _ _ Hbetween).
    rewrite getGlobalFrameOriginFrom_cons.
    unfold isUnset, isOrigin. simpl fst; simpl snd. rewrite Hother.
    change ((1 =? -1)%Z) with false. change ((1 =? 1)%Z) with true.
    change (negb ("SSB" =? "SSB")%string) with false. cbv iota.
    rewrite <- (app_nil_r after).
    rewrite (getGlobalFrameOriginFrom_ordinary _ _ _ Hafter). reflexivity.
  - unfold getGlobalFrameOrigin.
    rewrite (getGlobalFrameOriginFrom_ordinary _ _ _ Hbefore).
    rewrite getGlobalFrameOriginFrom_cons.
    unfold isUnset, isOrigin. simpl fst; simpl snd. rewrite Hother.
    change ((1 =? -1)%Z) with false. change ((1 =? 1)%Z) with true.
    change (negb ("SSB" =? "SSB")%string) with false. cbv iota.
    rewrite (getGlobalFrameOriginFrom_ordinary _ _ _ Hbetween).
    rewrite getGlobalFrameOriginFrom_cons.
    unfold isUnset, isOrigin. simpl fst; simpl snd. rewrite Hssb.
    change ((1 =? -1)%Z) with false. change ((1 =? 1)%Z) with true. cbv iota.
    apply String.eqb_neq in Hname. rewrite Hname. reflexivity.
Qed.

(** ** [body.cpp]: the frame manager's ephemerides *)

Lemma collectEphemerides_find (entries : list (string * Body)) :
  forall ephemerides name,
    NoDup (map fst entries) ->
    mapFind String.eqb (collectEphemerides entries ephemerides) name
    = match mapFind String.eqb entries name with
      | Some body =>
          match getEphemeris body with
          | Some ephemeris => Some ephemeris
          | None => mapFind String.eqb ephemerides name
          end
      | None => mapFind String.eqb ephemerides name
      end.
Proof.
  induction entries as [| [n b] rest IH]; intros ephemerides name Hkeys.
  - reflexivity.
  - simpl in Hkeys. inversion Hkeys as [| ? ? Hfresh Hrest]; subst.
    simpl. destruct (String.eqb_spec n name) as [-> | Hne].
    + apply (mapFind_absent String.eqb String.eqb_eq rest name) in Hfresh.
      destruct (getEphemeris b) as [e |]; rewrite (IH _ _ Hrest), Hfresh.
      * apply (mapFind_assign_same String.eqb String.eqb_eq).
      * reflexivity.
    + destruct (getEphemeris b) as [e |]; rewrite (IH _ _ Hrest).
      * rewrite (mapFind_assign_other String.eqb String.eqb_eq _ _ _ _ Hne).
        reflexivity.
      * reflexivity.
Qed.

Lemma collectEphemerides_NoDup (entries : list (string * Body)) :
  forall ephemerides,
    NoDup (map fst ephemerides) ->
    NoDup (map fst (collectEphemerides entries ephemerides)).
Proof.
  induction entries as [| [n b] rest IH]; intros ephemerides Hkeys; simpl.
  - exact Hkeys.
  - destruct (getEphemeris b) as [e |]; apply IH; [| exact Hkeys].
    apply (mapAssign_NoDup String.eqb String.eqb_eq). exact Hkeys.
Qed.

(** X9.  The map handed to the [ReferenceFrameManager] holds a name exactly when
    the body of that name has a (non-null) ephemeris, and then holds that
    ephemeris; bodies without ephemeris are left out. *)
Theorem createFrameManager_ephemerides
    (bodyMap : list (string * Body)) (name : string) (ephemeris : Ephemeris)
    (Hkeys : NoDup (map fst bodyMap)) :
  mapFind String.eqb (constructedFromEphemerides (createFrameManager bodyMap)) name
  = Some ephemeris
  <-> exists body, In (name, body) bodyMap /\ getEphemeris body = Some ephemeris.
Proof.
  unfold createFrameManager. simpl.
  rewrite (collectEphemerides_find bodyMap [] name Hkeys). simpl.
  destruct (mapFind String.eqb bodyMap name) as [body |] eqn:Hfind.
  - pose proof (mapFind_Some_In String.eqb String.eqb_eq _ _ _ Hfind) as Hin.
    split.
    + intro H. exists body. split; [exact Hin |].
      destruct (getEphemeris body); [exact H | discriminate H].
    + intros [body' [Hin' Heph]].
      pose proof (mapFind_In String.eqb String.eqb_eq _ _ _ Hkeys Hin') as Hfind'.
      rewrite Hfind' in Hfind. injection Hfind as <-. rewrite Heph. reflexivity.
  - split; [discriminate |].
    intros [body [Hin _]].
    pose proof (mapFind_In String.eqb String.eqb_eq _ _ _ Hkeys Hin) as Hfind'.
    congruence.
Qed.

(** ** [body.cpp]: the propagation flags *)

Lemma setIsBodyInPropagation_twice (body : Body) (first second : bool) :
  setIsBodyInPropagation (setIsBodyInPropagation body first) second
  = setIsBodyInPropagation body second.
Proof.
  unfold setIsBodyInPropagation. simpl.
  destruct (rotationalEphemeris_ body) as [[identity last | identity] |]; reflexivity.
Qed.

Lemma mapFind_setAreBodiesInPropagation (bodyMap : NamedBodyMap) (flag : bool)
    (name : string) :
  mapFind String.eqb (setAreBodiesInPropagation bodyMap flag) name
  = option_map (fun body => setIsBodyInPropagation body flag)
      (mapFind String.eqb bodyMap name).
Proof.
  induction bodyMap as [| [n b] rest IH]; simpl.
  - reflexivity.
  - destruct (n =? name)%string; [reflexivity | exact IH].
Qed.

Lemma getGlobalFrameOriginFrom_setAreBodiesInPropagation
    (bodyMap : NamedBodyMap) (flag : bool) :
  forall current,
    getGlobalFrameOriginFrom (setAreBodiesInPropagation bodyMap flag) current
    = getGlobalFrameOriginFrom bodyMap current.
Proof.
  induction bodyMap as [| [n b] rest IH]; intro current; simpl.
  - reflexivity.
  - destruct (getIsBodyGlobalFrameOrigin b =? -1)%Z; [reflexivity |].
    destruct (getIsBodyGlobalFrameOrigin b =? 1)%Z.
    + destruct (negb (current =? "SSB")%string); [reflexivity | apply IH].
    + apply IH.
Qed.

Lemma collectEphemerides_setAreBodiesInPropagation
    (bodyMap : NamedBodyMap) (flag : bool) :
  forall ephemerides,
    collectEphemerides (setAreBodiesInPropagation bodyMap flag) ephemerides
    = collectEphemerides bodyMap ephemerides.
Proof.
  induction bodyMap as [| [n b] rest IH]; intro ephemerides; simpl.
  - reflexivity.
  - destruct (getEphemeris b); apply IH.
Qed.

(** X10.  After [setAreBodiesInPropagation] the map holds the same names in the
    same order, every body carries the new flag, every synchronous
    rotational ephemeris was handed the new flag and every other rotational
    ephemeris is untouched, and gravity field, origin flag and ephemeris of
    every body are as before.  A second call overrides the first. *)
Theorem setAreBodiesInPropagation_effect (bodyMap : NamedBodyMap) (flag : bool) :
  map fst (setAreBodiesInPropagation bodyMap flag) = map fst bodyMap
  /\ Forall (fun entry => isBodyInPropagation_ (snd entry) = flag)
       (setAreBodiesInPropagation bodyMap flag)
  /\ Forall2
       (fun before after =>
          getGravityFieldModel after = getGravityFieldModel before
          /\ getIsBodyGlobalFrameOrigin after = getIsBodyGlobalFrameOrigin before
          /\ getEphemeris after = getEphemeris before
          /\ rotationalEphemeris_ after
             = match rotationalEphemeris_ before with
               | Some (SynchronousRotationalEphemeris identity _) =>
                   Some (SynchronousRotationalEphemeris identity (Some flag))
               | other => other
               end)
       (map snd bodyMap) (map snd (setAreBodiesInPropagation bodyMap flag))
  /\ forall earlier,
       setAreBodiesInPropagation (setAreBodiesInPropagation bodyMap earlier) flag
       = setAreBodiesInPropagation bodyMap flag.
Proof.
  repeat split.
  - induction bodyMap as [| [n b] rest IH]; simpl; [reflexivity | now rewrite IH].
  - induction bodyMap as [| [n b] rest IH]; simpl; constructor;
      [reflexivity | exact IH].
  - induction bodyMap as [| [n b] rest IH]; simpl; constructor;
      [repeat split | exact IH].
  - intro earlier.
    induction bodyMap as [| [n b] rest IH]; simpl; [reflexivity |].
    rewrite setIsBodyInPropagation_twice. f_equal. exact IH.
Qed.

(** X11.  Switching the propagation flags changes no answer of the other functions
    of the file: the global frame origin (or the error about it), every
    gravitational parameter (or the error about it) and the frame manager
    are the same before and after. *)
Theorem setAreBodiesInPropagation_leaves_queries
    (bodyMap : NamedBodyMap) (flag : bool) :
  getGlobalFrameOrigin (setAreBodiesInPropagation bodyMap flag)
  = getGlobalFrameOrigin bodyMap
  /\ (forall bodyName,
        getBodyGravitationalParameter (setAreBodiesInPropagation bodyMap flag) bodyName
        = getBodyGravitationalParameter bodyMap bodyName)
  /\ createFrameManager (setAreBodiesInPropagation bodyMap flag)
     = createFrameManager bodyMap.
Proof.
  repeat split.
  - apply getGlobalFrameOriginFrom_setAreBodiesInPropagation.
  - intro bodyName.
    unfold getBodyGravitationalParameter, bodyCount, mapCount, bodyAt.
    rewrite mapFind_setAreBodiesInPropagation.
    destruct (mapFind String.eqb bodyMap bodyName) as [body |]; reflexivity.
  - unfold createFrameManager.
    rewrite collectEphemerides_setAreBodiesInPropagation. reflexivity.
Qed.

(** ** [body.cpp] on the example bodies *)

Lemma exampleBodies_keys : NoDup (map fst exampleBodies).
Proof.
  repeat constructor; simpl; intuition discriminate.
Defined.

Lemma getBodyGravitationalParameter_cases_witness :
  NoDup (map fst exampleBodies)
  /\ getBodyGravitationalParameter exampleBodies "Earth" = Returned 3.986004418e14
  /\ getBodyGravitationalParameter exampleBodies "Moon"
     = Thrown (std_runtime_error
                 "Error when getting gravitational parameter of body Moon, body has not gravity field")
  /\ getBodyGravitationalParameter exampleBodies "Mars"
     = Thrown (std_runtime_error
                 "Error when getting gravitational parameter of body Mars, no such body is found").
Proof.
  split; [exact exampleBodies_keys |].
  split; [| split].
  - apply (proj1 (proj2 (proj2
             (getBodyGravitationalParameter_cases exampleBodies "Earth"
                exampleBodies_keys))) earthBody (mkGravityFieldModel 3.986004418e14)).
    + simpl. left. reflexivity.
    + reflexivity.
  - apply (proj1 (proj2
             (getBodyGravitationalParameter_cases exampleBodies "Moon"
                exampleBodies_keys)) moonBody).
    + simpl. right. right. left. reflexivity.
    + reflexivity.
  - apply (proj1 (getBodyGravitationalParameter_cases exampleBodies "Mars"
                    exampleBodies_keys)).
    simpl. intuition discriminate.
Defined.

Lemma getGlobalFrameOrigin_unset_flag_throws_witness :
  exists what,
    getGlobalFrameOrigin (exampleBodies ++ [("Probe"%string, probeBody)])
    = Thrown (std_runtime_error what).
Proof.
  apply (getGlobalFrameOrigin_unset_flag_throws
           (exampleBodies ++ [("Probe"%string, probeBody)]) "Probe" probeBody).
  - simpl. right. right. right. left. reflexivity.
  - reflexivity.
Defined.

Lemma exampleBodies_origin_names :
  Forall (fun entry : string * Body => fst entry <> "SSB"%string)
    (filter isOrigin exampleBodies).
Proof.
  simpl. constructor; [simpl; discriminate | constructor].
Defined.

Lemma getGlobalFrameOrigin_returns_iff_witness :
  getGlobalFrameOrigin exampleBodies = Returned "Sun"%string.
Proof.
  apply (proj2 (getGlobalFrameOrigin_returns_iff exampleBodies "Sun"
                  exampleBodies_origin_names)).
  split; [reflexivity |].
  right. exists sunBody. reflexivity.
Defined.

Lemma getGlobalFrameOrigin_iteration_order_witness :
  getGlobalFrameOrigin (rev exampleBodies) = Returned "Sun"%string.
Proof.
  apply (proj1 (getGlobalFrameOrigin_iteration_order exampleBodies
                  (rev exampleBodies) "Sun"
                  (Permutation_rev exampleBodies) exampleBodies_origin_names)).
  reflexivity.
Defined.

Lemma getGlobalFrameOrigin_second_origin_throws_witness :
  getGlobalFrameOrigin
    [ ("Earth"%string, earthBody); ("Sun"%string, sunBody);
      ("Moon"%string, moonBody); ("Jupiter"%string, sunBody) ]
  = Thrown (std_runtime_error
              "Error, body Jupiter found as global frame origin, but body Sun has already been detected as global frame origin.").
Proof.
  apply (getGlobalFrameOrigin_second_origin_throws
           [("Earth"%string, earthBody)] [("Moon"%string, moonBody)] []
           "Sun" "Jupiter" sunBody sunBody);
    try reflexivity.
  discriminate.
Defined.

Lemma getGlobalFrameOrigin_origin_called_SSB_witness :
  getGlobalFrameOrigin
    [ ("Earth"%string, earthBody); ("SSB"%string, sunBody);
      ("Moon"%string, moonBody); ("Sun"%string, sunBody) ]
  = Returned "Sun"%string
  /\ getGlobalFrameOrigin
       [ ("Earth"%string, earthBody); ("Sun"%string, sunBody);
         ("Moon"%string, moonBody); ("SSB"%string, sunBody) ]
     = Thrown (std_runtime_error
                 "Error, body SSB found as global frame origin, but body Sun has already been detected as global frame origin.").
Proof.
  apply (getGlobalFrameOrigin_origin_called_SSB
           [("Earth"%string, earthBody)] [("Moon"%string, moonBody)] []
           "Sun" sunBody sunBody);
    try reflexivity.
  discriminate.
Defined.

Lemma createFrameManager_ephemerides_witness :
  mapFind String.eqb
    (constructedFromEphemerides (createFrameManager exampleBodies)) "Moon"%string
  = Some 2%nat.
Proof.
  apply (proj2 (createFrameManager_ephemerides exampleBodies "Moon" 2%nat
                  exampleBodies_keys)).
  exists moonBody. split; [| reflexivity].
  simpl. right. right. left. reflexivity.
Defined.

(** ** [createObservationPartialsRefactor.h]: equality tests *)

Lemma observableTypeEqb_eq (a b : ObservableType) :
  observableTypeEqb a b = true <-> a = b.
Proof.
  destruct a, b; simpl; split; intro H;
    try reflexivity; try discriminate H.
  - apply Nat.eqb_eq in H. congruence.
  - injection H as ->. apply Nat.eqb_refl.
Qed.

Lemma linkEndsEqb_eq (a b : LinkEnds) : linkEndsEqb a b = true <-> a = b.
Proof.
  revert b. induction a as [| [ta na] a' IH]; intros [| [tb nb] b']; simpl;
    split; intro H; try reflexivity; try discriminate H.
  - apply andb_prop in H as [H Hrest]. apply andb_prop in H as [Ht Hn].
    apply Nat.eqb_eq in Ht. apply String.eqb_eq in Hn. apply IH in Hrest.
    congruence.
  - injection H as -> -> ->.
    rewrite Nat.eqb_refl, String.eqb_refl. simpl. apply IH. reflexivity.
Qed.

Lemma indexPairEqb_eq (a b : Z * Z) : indexPairEqb a b = true <-> a = b.
Proof.
  destruct a as [a1 a2], b as [b1 b2]. unfold indexPairEqb. simpl. split.
  - intro H. apply andb_prop in H as [H1 H2].
    apply Z.eqb_eq in H1, H2. congruence.
  - intro H. injection H as -> ->. rewrite !Z.eqb_refl. reflexivity.
Qed.

(** ** [getLightTimeCorrectionsList2] *)

Section LightTimeCorrectionsList.

Context `{EX : ObservationPartialExternals}.

Lemma lightTimeCorrectionsLoop_cons (observableType : ObservableType)
    (linkEnds : LinkEnds) (observationModel : ObservationModel)
    (rest : list (LinkEnds * ObservationModel)) (grouped : LightTimeCorrectionsList) :
  getObservableType observationModel = observableType ->
  hasLightTimeCalculator observableType = true ->
  lightTimeCorrectionsLoop observableType ((linkEnds, observationModel) :: rest) grouped
  = lightTimeCorrectionsLoop observableType rest
      (match getLightTimeCorrection observationModel with
       | [] => grouped
       | _ :: _ =>
           mapAssign linkEndsEqb grouped linkEnds
             [getLightTimeCorrection observationModel]
       end).
Proof.
  intros Htype Hknown. simpl. rewrite Htype.
  rewrite (proj2 (observableTypeEqb_eq observableType observableType) eq_refl).
  simpl negb. cbv iota.
  destruct observableType; try discriminate Hknown;
    simpl; destruct (getLightTimeCorrection observationModel); reflexivity.
Qed.

(** The loop returns exactly when there is nothing left, or the type is one
    of the three with a light-time calculator and every remaining model has
    it. *)
Lemma lightTimeCorrectionsLoop_returns (observableType : ObservableType)
    (remaining : list (LinkEnds * ObservationModel)) :
  forall grouped,
    (exists result,
        lightTimeCorrectionsLoop observableType remaining grouped = Returned result)
    <-> remaining = []
        \/ (hasLightTimeCalculator observableType = true
            /\ Forall (fun entry => getObservableType (snd entry) = observableType)
                 remaining).
Proof.
  induction remaining as [| [linkEnds model] rest IH]; intro grouped.
  - split; [intros _; left; reflexivity | intros _; eexists; reflexivity].
  - split.
    + intros [result Hresult]. right.
      pose proof Hresult as Hstep. simpl in Hstep.
      destruct (observableTypeEqb (getObservableType model) observableType) eqn:Heq;
        [| discriminate Hstep].
      apply observableTypeEqb_eq in Heq. simpl negb in Hstep. cbv iota in Hstep.
      assert (Hknown : hasLightTimeCalculator observableType = true).
      { destruct observableType; try reflexivity; discriminate Hstep. }
      split; [exact Hknown |].
      constructor; [exact Heq |].
      rewrite (lightTimeCorrectionsLoop_cons _ _ _ _ _ Heq Hknown) in Hresult.
      destruct (proj1 (IH _) (ex_intro _ result Hresult)) as [-> | [_ Hall]];
        [constructor | exact Hall].
    + intros [Habs | [Hknown Hall]]; [discriminate Habs |].
      apply Forall_cons_iff in Hall as [Hhead Htail]. simpl in Hhead.
      rewrite (lightTimeCorrectionsLoop_cons _ _ _ _ _ Hhead Hknown).
      apply IH. right. split; assumption.
Qed.

(** What the returned map holds for a link ends, in terms of the map the
    loop started with. *)
Lemma lightTimeCorrectionsLoop_find (observableType : ObservableType)
    (remaining : list (LinkEnds * ObservationModel)) :
  forall grouped result linkEnds,
    NoDup (map fst remaining) ->
    lightTimeCorrectionsLoop observableType remaining grouped = Returned result ->
    mapFind linkEndsEqb result linkEnds
    = match mapFind linkEndsEqb remaining linkEnds with
      | Some model =>
          match getLightTimeCorrection model with
          | [] => mapFind linkEndsEqb grouped linkEnds
          | _ :: _ => Some [getLightTimeCorrection model]
          end
      | None => mapFind linkEndsEqb grouped linkEnds
      end.
Proof.
  induction remaining as [| [le model] rest IH];
    intros grouped result linkEnds Hkeys Hresult.
  - simpl in Hresult. injection Hresult as <-. reflexivity.
  - destruct (proj1 (lightTimeCorrectionsLoop_returns _ _ _)
                (ex_intro _ result Hresult)) as [Habs | [Hknown Hall]];
      [discriminate Habs |].
    apply Forall_cons_iff in Hall as [Hhead Htail]. simpl in Hhead.
    rewrite (lightTimeCorrectionsLoop_cons _ _ _ _ _ Hhead Hknown) in Hresult.
    simpl in Hkeys. inversion Hkeys as [| ? ? Hfresh Hrest]; subst.
    rewrite (IH _ _ linkEnds Hrest Hresult). simpl.
    destruct (linkEndsEqb le linkEnds) eqn:Heq.
    + apply linkEndsEqb_eq in Heq. subst le.
      apply (mapFind_absent linkEndsEqb linkEndsEqb_eq) in Hfresh.
      rewrite Hfresh.
      destruct (getLightTimeCorrection model); [reflexivity |].
      apply (mapFind_assign_same linkEndsEqb linkEndsEqb_eq).
    + assert (Hne : le <> linkEnds).
      { intro Habs. apply linkEndsEqb_eq in Habs. congruence. }
      destruct (mapFind linkEndsEqb rest linkEnds) as [model' |];
        [destruct (getLightTimeCorrection model'); [| reflexivity] |];
        (destruct (getLightTimeCorrection model); [reflexivity |];
         apply (mapFind_assign_other linkEndsEqb linkEndsEqb_eq); exact Hne).
Qed.

(** X12.  [getLightTimeCorrectionsList2] has no defined behaviour on an empty map;
    on any other map it returns exactly when the first model's observable
    type is one_way_range, one_way_doppler or angular_position and every
    model has that type, and throws otherwise. *)
Theorem getLightTimeCorrectionsList2_returns_iff
    (linkEnds : LinkEnds) (first : ObservationModel)
    (rest : list (LinkEnds * ObservationModel)) :
  getLightTimeCorrectionsList2 [] = None
  /\ ((exists result,
          getLightTimeCorrectionsList2 ((linkEnds, first) :: rest)
          = Some (Returned result))
      <-> hasLightTimeCalculator (getObservableType first) = true
          /\ Forall (fun entry => getObservableType (snd entry) = getObservableType first)
               rest)
  /\ ((exists e,
          getLightTimeCorrectionsList2 ((linkEnds, first) :: rest)
          = Some (Thrown e))
      <-> ~ (hasLightTimeCalculator (getObservableType first) = true
             /\ Forall (fun entry => getObservableType (snd entry) = getObservableType first)
                  rest)).
Proof.
  split; [reflexivity |].
  unfold getLightTimeCorrectionsList2.
  pose proof (lightTimeCorrectionsLoop_returns (getObservableType first)
                ((linkEnds, first) :: rest) []) as Hloop.
  assert (Hiff :
            (exists result,
                lightTimeCorrectionsLoop (getObservableType first)
                  ((linkEnds, first) :: rest) [] = Returned result)
            <-> hasLightTimeCalculator (getObservableType first) = true
                /\ Forall (fun entry => getObservableType (snd entry)
                                        = getObservableType first) rest).
  { rewrite Hloop. split.
    - intros [Habs | [Hknown Hall]]; [discriminate Habs |].
      apply Forall_cons_iff in Hall as [_ Htail]. split; assumption.
    - intros [Hknown Hall]. right. split; [exact Hknown |].
      constructor; [reflexivity | exact Hall]. }
  split.
  - rewrite <- Hiff. split; intros [result H]; exists result; congruence.
  - rewrite <- Hiff.
    destruct (lightTimeCorrectionsLoop (getObservableType first)
                ((linkEnds, first) :: rest) []) as [result | e].
    + split.
      * intros [e H]. discriminate H.
      * intro H. exfalso. apply H. exists result. reflexivity.
    + split.
      * intros _ [result H]. discriminate H.
      * intros _. exists e. reflexivity.
Qed.

(** X13.  When [getLightTimeCorrectionsList2] returns (on a map, so with one model
    per link ends), the result holds a link ends exactly when its model has
    at least one light-time correction, and then holds one group: the
    model's corrections.  So the list function finds, for every link ends,
    its model's own corrections, and never more than one group. *)
Theorem getLightTimeCorrectionsList2_result
    (observationModels : list (LinkEnds * ObservationModel))
    (result : LightTimeCorrectionsList)
    (Hkeys : NoDup (map fst observationModels))
    (Hresult : getLightTimeCorrectionsList2 observationModels = Some (Returned result)) :
  (forall linkEnds grouped,
      mapFind linkEndsEqb result linkEnds = Some grouped
      <-> exists model,
            In (linkEnds, model) observationModels
            /\ getLightTimeCorrection model <> []
            /\ grouped = [getLightTimeCorrection model])
  /\ (forall linkEnds model,
        In (linkEnds, model) observationModels ->
        singleLinkLightTimeCorrectionsOf result linkEnds
        = getLightTimeCorrection model).
Proof.
  unfold getLightTimeCorrectionsList2 in Hresult.
  destruct observationModels as [| [le0 first] rest]; [discriminate Hresult |].
  injection Hresult as Hresult.
  pose proof (fun linkEnds =>
                lightTimeCorrectionsLoop_find _ _ _ _ linkEnds Hkeys Hresult)
    as Hfind.
  split.
  - intros linkEnds grouped. rewrite Hfind.
    destruct (mapFind linkEndsEqb ((le0, first) :: rest) linkEnds)
      as [model |] eqn:Hmodel.
    + pose proof (mapFind_Some_In linkEndsEqb linkEndsEqb_eq _ _ _ Hmodel) as Hin.
      split.
      * intro H. exists model. split; [exact Hin |].
        destruct (getLightTimeCorrection model); [discriminate H |].
        split; [discriminate | congruence].
      * intros [model' [Hin' [Hne ->]]].
        pose proof (mapFind_In linkEndsEqb linkEndsEqb_eq _ _ _ Hkeys Hin') as H'.
        rewrite H' in Hmodel. injection Hmodel as <-.
        destruct (getLightTimeCorrection model'); [contradiction | reflexivity].
    + split; [discriminate |].
      intros [model [Hin _]].
      pose proof (mapFind_In linkEndsEqb linkEndsEqb_eq _ _ _ Hkeys Hin) as H'.
      congruence.
  - intros linkEnds model Hin.
    pose proof (mapFind_In linkEndsEqb linkEndsEqb_eq _ _ _ Hkeys Hin) as Hmodel.
    unfold singleLinkLightTimeCorrectionsOf, mapCount.
    rewrite Hfind, Hmodel.
    destruct (getLightTimeCorrection model); reflexivity.
Qed.

End LightTimeCorrectionsList.

(** ** The list functions of [createObservationPartialsRefactor.h] *)

Section ObservationPartialLists.

Context `{EX : ObservationPartialExternals}.

Lemma outcomeBind_returned {A B : Type} (m : outcome A) (k : A -> outcome B) (b : B) :
  outcomeBind m k = Returned b -> exists a, m = Returned a /\ k a = Returned b.
Proof.
  destruct m as [a | e]; simpl; intro H; [| discriminate H].
  exists a. split; [reflexivity | exact H].
Qed.

Lemma commonObservableTypeLoop_same (observableType : ObservableType)
    (remaining : list (LinkEnds * ObservationModel)) :
  observableType <> undefined_observation_model ->
  Forall (fun entry => getObservableType (snd entry) = observableType) remaining ->
  commonObservableTypeLoop remaining observableType = Returned observableType.
Proof.
  intros Hdefined Hall.
  induction remaining as [| [le model] rest IH]; simpl.
  - reflexivity.
  - apply Forall_cons_iff in Hall as [Hhead Htail]. simpl in Hhead.
    destruct (observableTypeEqb observableType undefined_observation_model) eqn:Hu.
    + apply observableTypeEqb_eq in Hu. contradiction.
    + rewrite Hhead.
      rewrite (proj2 (observableTypeEqb_eq observableType observableType) eq_refl).
      simpl. exact (IH Htail).
Qed.

Lemma getLightTimeCorrectionsList2_loop
    (linkEnds : LinkEnds) (first : ObservationModel)
    (rest : list (LinkEnds * ObservationModel))
    (grouped : LightTimeCorrectionsList) :
  getLightTimeCorrectionsList2 ((linkEnds, first) :: rest) = Some (Returned grouped) ->
  lightTimeCorrectionsLoop (getObservableType first) ((linkEnds, first) :: rest) []
  = Returned grouped.
Proof.
  intro H.
  apply (f_equal (fun o => match o with
                           | Some x => x
                           | None => Thrown thrown_by_at
                           end)) in H.
  exact H.
Qed.

Lemma getLightTimeCorrectionsList2_types
    (linkEnds : LinkEnds) (first : ObservationModel)
    (rest : list (LinkEnds * ObservationModel))
    (grouped : LightTimeCorrectionsList) :
  getLightTimeCorrectionsList2 ((linkEnds, first) :: rest) = Some (Returned grouped) ->
  hasLightTimeCalculator (getObservableType first) = true
  /\ Forall (fun entry => getObservableType (snd entry) = getObservableType first)
       ((linkEnds, first) :: rest).
Proof.
  intro H. apply getLightTimeCorrectionsList2_loop in H.
  destruct (proj1 (lightTimeCorrectionsLoop_returns _ _ _)
              (ex_intro _ grouped H)) as [Habs | Hok];
    [discriminate Habs | exact Hok].
Qed.

Lemma commonObservableTypeLoop_after_grouping
    (linkEnds : LinkEnds) (first : ObservationModel)
    (rest : list (LinkEnds * ObservationModel))
    (grouped : LightTimeCorrectionsList) :
  getLightTimeCorrectionsList2 ((linkEnds, first) :: rest) = Some (Returned grouped) ->
  commonObservableTypeLoop ((linkEnds, first) :: rest) undefined_observation_model
  = Returned (getObservableType first).
Proof.
  intro H. destruct (getLightTimeCorrectionsList2_types _ _ _ _ H) as [Hknown Hall].
  apply Forall_cons_iff in Hall as [_ Htail].
  simpl. apply commonObservableTypeLoop_same; [| exact Htail].
  intro Hundefined. rewrite Hundefined in Hknown. discriminate Hknown.
Qed.

(** X14.  The consistency check of the overload that takes the observation models
    cannot fail where it stands: whenever [getLightTimeCorrectionsList2] has
    returned, the loop that follows finds the observable type of the first
    model as the common type and does not throw. *)
Theorem commonObservableType_after_light_time_corrections
    (linkEnds : LinkEnds) (first : ObservationModel)
    (rest : list (LinkEnds * ObservationModel))
    (grouped : LightTimeCorrectionsList)
    (Hgrouped : getLightTimeCorrectionsList2 ((linkEnds, first) :: rest)
                = Some (Returned grouped)) :
  commonObservableTypeLoop ((linkEnds, first) :: rest) undefined_observation_model
  = Returned (getObservableType first)
  /\ forall what,
       commonObservableTypeLoop ((linkEnds, first) :: rest)
         undefined_observation_model
       <> Thrown (std_runtime_error what).
Proof.
  pose proof (commonObservableTypeLoop_after_grouping _ _ _ _ Hgrouped) as H.
  split; [exact H |]. intros what Habs. rewrite H in Habs. discriminate Habs.
Qed.

Lemma createPositionScalingObject_returned (observationSize : ObservationSize)
    (linkEnds : LinkEnds) (observableType : ObservableType)
    (scaling : OneWayLinkPositionPartialScaling) :
  createPositionScalingObject observationSize linkEnds observableType
  = Returned scaling ->
  (observationSize = observationSize1 /\ observableType = one_way_range
   /\ scaling = OneWayRangeScaling)
  \/ (observationSize = observationSize2 /\ observableType = angular_position
      /\ scaling = AngularPositionScaling).
Proof.
  unfold createPositionScalingObject.
  destruct observationSize, observableType; intro H;
    try (destruct (getObservableName _ _); discriminate H);
    injection H as <-; [left | right]; repeat split.
Qed.

Lemma createSingleLinkObservationPartials_returned
    (observationSize : ObservationSize) (linkEnds : LinkEnds)
    (observableType : ObservableType) (bodies : SystemOfBodies)
    (parametersToEstimate : EstimatableParameterSet)
    (lightTimeCorrections : list LightTimeCorrection) (useBiasPartials : bool)
    (partials : ObservationPartialsMap)
    (scaling : OneWayLinkPositionPartialScaling) :
  createSingleLinkObservationPartials observationSize linkEnds observableType bodies
    parametersToEstimate lightTimeCorrections useBiasPartials
  = Returned (partials, scaling) ->
  createPositionScalingObject observationSize linkEnds observableType
  = Returned scaling.
Proof.
  unfold createSingleLinkObservationPartials. intro H.
  apply outcomeBind_returned in H as [objects [_ H]].
  apply outcomeBind_returned in H as [scaling' [Hscaling H]].
  apply outcomeBind_returned in H as [p1 [_ H]].
  apply outcomeBind_returned in H as [p2 [_ H]].
  apply outcomeBind_returned in H as [p3 [_ H]].
  injection H as _ <-. exact Hscaling.
Qed.

(** What the returned map of the loop over link ends holds, in terms of the
    map the loop started with. *)
Lemma singleLinkObservationPartialsListLoop_find
    (observationSize : ObservationSize) (observableType : ObservableType)
    (bodies : SystemOfBodies) (parametersToEstimate : EstimatableParameterSet)
    (lightTimeCorrections : LightTimeCorrectionsList) (useBiasPartials : bool)
    (remaining : list LinkEnds) :
  forall collected result linkEnds,
    singleLinkObservationPartialsListLoop observationSize remaining observableType
      bodies parametersToEstimate lightTimeCorrections useBiasPartials collected
    = Returned result ->
    (In linkEnds remaining ->
     exists partials,
       createSingleLinkObservationPartials observationSize linkEnds observableType
         bodies parametersToEstimate
         (singleLinkLightTimeCorrectionsOf lightTimeCorrections linkEnds)
         useBiasPartials = Returned partials
       /\ mapFind linkEndsEqb result linkEnds = Some partials)
    /\ (~ In linkEnds remaining ->
        mapFind linkEndsEqb result linkEnds = mapFind linkEndsEqb collected linkEnds).
Proof.
  induction remaining as [| le rest IH]; intros collected result linkEnds Hresult.
  - simpl in Hresult. injection Hresult as <-.
    split; [intros [] | reflexivity].
  - simpl in Hresult.
    apply outcomeBind_returned in Hresult as [partials [Hpartials Hresult]].
    destruct (IH _ _ linkEnds Hresult) as [Hin Hout].
    destruct (in_dec (list_eq_dec (fun a b : nat * string =>
                                     ltac:(decide equality;
                                           [apply string_dec | apply Nat.eq_dec])))
                linkEnds rest) as [Hrest | Hrest].
    + split; [intros _; exact (Hin Hrest) |].
      intro Habs. exfalso. apply Habs. right. exact Hrest.
    + rewrite (Hout Hrest). split.
      * intros [-> | Habs]; [| contradiction].
        exists partials. split; [exact Hpartials |].
        apply (mapFind_assign_same linkEndsEqb linkEndsEqb_eq).
      * intro Hnot.
        apply (mapFind_assign_other linkEndsEqb linkEndsEqb_eq).
        intro Heq. apply Hnot. left. exact Heq.
Qed.

(** X15.  When the list function returns, its result holds exactly the link ends
    of the list, and for each of them what
    [createSingleLinkObservationPartials] returns for it with the
    light-time corrections found for it. *)
Theorem createSingleLinkObservationPartialsList_result
    (observationSize : ObservationSize) (linkEndsList : list LinkEnds)
    (observableType : ObservableType) (bodies : SystemOfBodies)
    (parametersToEstimate : EstimatableParameterSet)
    (lightTimeCorrections : LightTimeCorrectionsList) (useBiasPartials : bool)
    (result : SingleLinkObservationPartialsList)
    (Hresult : createSingleLinkObservationPartialsList observationSize linkEndsList
                 observableType bodies parametersToEstimate lightTimeCorrections
                 useBiasPartials = Returned result) :
  forall linkEnds,
    (In linkEnds linkEndsList
     <-> exists partials, mapFind linkEndsEqb result linkEnds = Some partials)
    /\ (forall partials,
          mapFind linkEndsEqb result linkEnds = Some partials ->
          createSingleLinkObservationPartials observationSize linkEnds observableType
            bodies parametersToEstimate
            (singleLinkLightTimeCorrectionsOf lightTimeCorrections linkEnds)
            useBiasPartials = Returned partials).
Proof.
  intro linkEnds.
  unfold createSingleLinkObservationPartialsList in Hresult.
  destruct (singleLinkObservationPartialsListLoop_find _ _ _ _ _ _ _ _ _ linkEnds
              Hresult) as [Hin Hout].
  assert (Hdec : In linkEnds linkEndsList \/ ~ In linkEnds linkEndsList).
  { destruct (in_dec (list_eq_dec (fun a b : nat * string =>
                                     ltac:(decide equality;
                                           [apply string_dec | apply Nat.eq_dec])))
                linkEnds linkEndsList); [left | right]; assumption. }
  split.
  - split.
    + intro H. destruct (Hin H) as [partials [_ Hfind]]. exists partials. exact Hfind.
    + intros [partials Hfind]. destruct Hdec as [H | H]; [exact H |].
      rewrite (Hout H) in Hfind. discriminate Hfind.
  - intros partials Hfind. destruct Hdec as [H | H].
    + destruct (Hin H) as [partials' [Hcreate Hfind']]. congruence.
    + rewrite (Hout H) in Hfind. discriminate Hfind.
Qed.

Lemma singleLinkObservationPartialsListLoop_NoDup
    (observationSize : ObservationSize) (observableType : ObservableType)
    (bodies : SystemOfBodies) (parametersToEstimate : EstimatableParameterSet)
    (lightTimeCorrections : LightTimeCorrectionsList) (useBiasPartials : bool)
    (remaining : list LinkEnds) :
  forall collected result,
    singleLinkObservationPartialsListLoop observationSize remaining observableType
      bodies parametersToEstimate lightTimeCorrections useBiasPartials collected
    = Returned result ->
    NoDup (map fst collected) -> NoDup (map fst result).
Proof.
  induction remaining as [| le rest IH]; intros collected result Hresult Hkeys.
  - simpl in Hresult. injection Hresult as <-. exact Hkeys.
  - simpl in Hresult.
    apply outcomeBind_returned in Hresult as [partials [_ Hresult]].
    apply (IH _ _ Hresult).
    apply (mapAssign_NoDup linkEndsEqb linkEndsEqb_eq). exact Hkeys.
Qed.

(** When the overload that takes the observation models returns, the
    observation size and the models' type are one of the two pairs a scaling
    object exists for, and every entry carries that scaling object. *)
Lemma createSingleLinkObservationPartialsListFromModels_returned
    (observationSize : ObservationSize)
    (observationModelList : list (LinkEnds * ObservationModel))
    (bodies : SystemOfBodies) (parametersToEstimate : EstimatableParameterSet)
    (useBiasPartials : bool) (result : SingleLinkObservationPartialsList)
    (Hresult : createSingleLinkObservationPartialsListFromModels observationSize
                 observationModelList bodies parametersToEstimate useBiasPartials
               = Some (Returned result)) :
  (observationSize = observationSize1
   /\ Forall (fun entry => getObservableType (snd entry) = one_way_range)
        observationModelList
   /\ Forall (fun entry => snd (snd entry) = OneWayRangeScaling) result)
  \/ (observationSize = observationSize2
      /\ Forall (fun entry => getObservableType (snd entry) = angular_position)
           observationModelList
      /\ Forall (fun entry => snd (snd entry) = AngularPositionScaling) result).
Proof.
  unfold createSingleLinkObservationPartialsListFromModels in Hresult.
  destruct observationModelList as [| [le0 first] rest]; [discriminate Hresult |].
  destruct (getLightTimeCorrectionsList2 ((le0, first) :: rest))
    as [grouped |] eqn:Hgrouped; [| discriminate Hresult].
  apply (f_equal (fun o => match o with
                           | Some x => x
                           | None => Thrown thrown_by_at
                           end)) in Hresult.
  cbv beta iota in Hresult.
  apply outcomeBind_returned in Hresult as [corrections [-> Hresult]].
  rewrite (commonObservableTypeLoop_after_grouping _ _ _ _ Hgrouped) in Hresult.
  cbv beta iota delta [outcomeBind] in Hresult.
  destruct (getLightTimeCorrectionsList2_types _ _ _ _ Hgrouped) as [_ Hall].
  set (observableType := getObservableType first) in *.
  unfold createSingleLinkObservationPartialsList in Hresult.
  (* every entry of the result comes from a call that returned *)
  assert (Hentries :
            forall entry, In entry result ->
              createPositionScalingObject observationSize (fst entry) observableType
              = Returned (snd (snd entry))).
  { intros [linkEnds [partials scaling]] Hin. simpl.
    pose proof (singleLinkObservationPartialsListLoop_NoDup _ _ _ _ _ _ _ _ _
                  Hresult (NoDup_nil _)) as Hkeys.
    pose proof (mapFind_In linkEndsEqb linkEndsEqb_eq _ _ _ Hkeys Hin) as Hfind.
    destruct (singleLinkObservationPartialsListLoop_find _ _ _ _ _ _ _ _ _ linkEnds
                Hresult) as [Hinside Houtside].
    destruct (in_dec (list_eq_dec (fun a b : nat * string =>
                                     ltac:(decide equality;
                                           [apply string_dec | apply Nat.eq_dec])))
                linkEnds (map fst ((le0, first) :: rest))) as [Hmember | Hmember].
    - destruct (Hinside Hmember) as [created [Hcreated Hfind']].
      rewrite Hfind in Hfind'. injection Hfind' as <-.
      exact (createSingleLinkObservationPartials_returned _ _ _ _ _ _ _ _ _ Hcreated).
    - rewrite (Houtside Hmember) in Hfind. discriminate Hfind. }
  (* the first link ends is one of them *)
  destruct (proj1 (singleLinkObservationPartialsListLoop_find _ _ _ _ _ _ _ _ _ le0
                     Hresult) (or_introl eq_refl))
    as [[partials0 scaling0] [Hcreated0 _]].
  apply createSingleLinkObservationPartials_returned in Hcreated0.
  apply createPositionScalingObject_returned in Hcreated0
    as [[Hsize [Htype _]] | [Hsize [Htype _]]]; [left | right];
    (split; [exact Hsize |]); rewrite Htype in *;
    (split; [exact Hall |]);
    apply Forall_forall; intros entry Hin;
    apply Hentries in Hin;
    apply createPositionScalingObject_returned in Hin
      as [[Hs [_ Hscaling]] | [Hs [_ Hscaling]]];
    try exact Hscaling; congruence.
Qed.

(** No scaling object exists for one_way_doppler at observation size 1:
    the partials of a single link end are never returned. *)
Lemma createSingleLinkObservationPartials_doppler_throws
    (linkEnds : LinkEnds) (bodies : SystemOfBodies)
    (parametersToEstimate : EstimatableParameterSet)
    (lightTimeCorrections : list LightTimeCorrection) (useBiasPartials : bool) :
  exists e,
    createSingleLinkObservationPartials observationSize1 linkEnds one_way_doppler
      bodies parametersToEstimate lightTimeCorrections useBiasPartials
    = Thrown e.
Proof.
  unfold createSingleLinkObservationPartials.
  destruct (if (0 <? List.length lightTimeCorrections)%nat
            then createLightTimeCorrectionPartials lightTimeCorrections
            else Returned []) as [objects | e]; cbn [outcomeBind].
  - unfold createPositionScalingObject.
    destruct (getObservableName one_way_doppler (List.length linkEnds))
      as [name | e]; cbn [outcomeBind]; eexists; reflexivity.
  - eexists; reflexivity.
Qed.

(** X16.  For observation models of the observation size the template is
    instantiated at, the overload that takes the observation models returns
    only for one_way_range models with observation size 1 and for
    angular_position models with observation size 2, and every entry of its
    result then carries the scaling object of that pair.  For one_way_doppler
    models, which [getLightTimeCorrectionsList2] accepts, it leaves by an
    exception whatever the functions defined elsewhere do: no scaling object
    is created for them. *)
Theorem createSingleLinkObservationPartialsListFromModels_returns_only_for
    (observationSize : ObservationSize)
    (observationModelList : list (LinkEnds * ObservationModel))
    (bodies : SystemOfBodies) (parametersToEstimate : EstimatableParameterSet)
    (useBiasPartials : bool)
    (Hclasses : forallb (fun entry => isModelOfSize observationSize (snd entry))
                  observationModelList = true) :
  (forall result,
      createSingleLinkObservationPartialsListFromModels observationSize
        observationModelList bodies parametersToEstimate useBiasPartials
      = Some (Returned result) ->
      (observationSize = observationSize1
       /\ Forall (fun entry => getObservableType (snd entry) = one_way_range)
            observationModelList
       /\ Forall (fun entry => snd (snd entry) = OneWayRangeScaling) result)
      \/ (observationSize = observationSize2
          /\ Forall (fun entry => getObservableType (snd entry) = angular_position)
               observationModelList
          /\ Forall (fun entry => snd (snd entry) = AngularPositionScaling) result))
  /\ (observationModelList <> [] ->
      Forall (fun entry => getObservableType (snd entry) = one_way_doppler)
        observationModelList ->
      exists e,
        createSingleLinkObservationPartialsListFromModels observationSize
          observationModelList bodies parametersToEstimate useBiasPartials
        = Some (Thrown e)).
Proof.
  split.
  - intros result Hresult.
    exact (createSingleLinkObservationPartialsListFromModels_returned _ _ _ _ _ _
             Hresult).
  - intros Hnonempty Hdoppler.
    destruct observationModelList as [| [le0 first] rest]; [contradiction |].
    pose proof Hdoppler as Hall.
    apply Forall_cons_iff in Hall as [Hfirst _]. cbn [snd] in Hfirst.
    (* Doppler models are models of size 1 *)
    assert (Hsize : observationSize = observationSize1).
    { cbn [forallb snd] in Hclasses. apply andb_prop in Hclasses as [Hclass _].
      unfold isModelOfSize in Hclass. rewrite Hfirst in Hclass.
      destruct observationSize; [reflexivity | discriminate Hclass]. }
    subst observationSize.
    destruct (proj2 (lightTimeCorrectionsLoop_returns one_way_doppler
                       ((le0, first) :: rest) [])
                (or_intror (conj eq_refl Hdoppler))) as [grouped Hloop].
    assert (Hgrouped :
              getLightTimeCorrectionsList2 ((le0, first) :: rest)
              = Some (Returned grouped)).
    { unfold getLightTimeCorrectionsList2. rewrite Hfirst, Hloop. reflexivity. }
    unfold createSingleLinkObservationPartialsListFromModels.
    rewrite Hgrouped. cbn [outcomeBind].
    rewrite (commonObservableTypeLoop_after_grouping _ _ _ _ Hgrouped).
    cbn [outcomeBind]. rewrite Hfirst.
    unfold createSingleLinkObservationPartialsList.
    cbn [map fst singleLinkObservationPartialsListLoop].
    destruct (createSingleLinkObservationPartials_doppler_throws le0 bodies
                parametersToEstimate
                (singleLinkLightTimeCorrectionsOf grouped le0) useBiasPartials)
      as [e He].
    rewrite He. cbn [outcomeBind]. exists e. reflexivity.
Qed.

End ObservationPartialLists.

(** ** The index bookkeeping of [createSingleLinkObservationPartials] *)

Section InitialStateIndices.

Context `{EX : ObservationPartialExternals}.

Variables (oneWayLinkEnds : LinkEnds) (bodies : SystemOfBodies)
          (positionScaling : OneWayLinkPositionPartialScaling)
          (lightTimeCorrectionPartialObjects : list LightTimeCorrectionPartial).

#[local] Abbreviation loop :=
  (initialStatePartialsLoop oneWayLinkEnds bodies positionScaling
     lightTimeCorrectionPartialObjects).
#[local] Abbreviation create :=
  (createInitialStatePartial oneWayLinkEnds bodies positionScaling
     lightTimeCorrectionPartialObjects).

Lemma initialStateSize_positive (parameter : EstimatableParameter) :
  (0 < initialStateSize parameter)%Z.
Proof.
  unfold initialStateSize.
  destruct (fst (getParameterName parameter)); lia.
Qed.

Lemma initialStatePartialsLoop_cons (parameter : EstimatableParameter)
    (rest : list EstimatableParameter) (currentIndex : Z)
    (observationPartials : ObservationPartialsMap) :
  loop (parameter :: rest) currentIndex observationPartials
  = (current <~ create parameter ;;
     loop rest (currentIndex + initialStateSize parameter)%Z
       (addIfNotNull observationPartials
          (currentIndex, initialStateSize parameter) current)).
Proof.
  unfold createInitialStatePartial, initialStateSize. simpl.
  destruct (fst (getParameterName parameter)); reflexivity.
Qed.

Lemma mapFind_addIfNotNull_other (observationPartials : ObservationPartialsMap)
    (currentPair key : Z * Z) (current : option ObservationPartial) :
  currentPair <> key ->
  mapFind indexPairEqb (addIfNotNull observationPartials currentPair current) key
  = mapFind indexPairEqb observationPartials key.
Proof.
  intro Hne. destruct current as [partial |]; simpl; [| reflexivity].
  apply (mapFind_assign_other indexPairEqb indexPairEqb_eq). exact Hne.
Qed.

(** Keys that start below the current index are out of the loop's reach. *)
Lemma initialStatePartialsLoop_below (remaining : list EstimatableParameter) :
  forall currentIndex observationPartials result key,
    loop remaining currentIndex observationPartials = Returned result ->
    (fst key < currentIndex)%Z ->
    mapFind indexPairEqb result key = mapFind indexPairEqb observationPartials key.
Proof.
  induction remaining as [| parameter rest IH];
    intros currentIndex observationPartials result key Hresult Hbelow.
  - simpl in Hresult. injection Hresult as <-. reflexivity.
  - rewrite initialStatePartialsLoop_cons in Hresult.
    destruct (create parameter) as [current | e]; [| discriminate Hresult].
    simpl in Hresult.
    pose proof (initialStateSize_positive parameter) as Hsize.
    rewrite (IH _ _ _ key Hresult); [| lia].
    apply mapFind_addIfNotNull_other.
    intro Heq. rewrite <- Heq in Hbelow. simpl in Hbelow. lia.
Qed.

(** Where the entries of the result come from. *)
Lemma initialStatePartialsLoop_origin (remaining : list EstimatableParameter) :
  forall currentIndex observationPartials result key partial,
    loop remaining currentIndex observationPartials = Returned result ->
    mapFind indexPairEqb result key = Some partial ->
    mapFind indexPairEqb observationPartials key = Some partial
    \/ exists before parameter after,
         remaining = before ++ parameter :: after
         /\ key = ((currentIndex + totalInitialStateSize before)%Z,
                   initialStateSize parameter)
         /\ create parameter = Returned (Some partial).
Proof.
  induction remaining as [| parameter rest IH];
    intros currentIndex observationPartials result key partial Hresult Hfind.
  - simpl in Hresult. injection Hresult as <-.
    left. exact Hfind.
  - rewrite initialStatePartialsLoop_cons in Hresult.
    destruct (create parameter) as [current | e] eqn:Hcreate; [| discriminate Hresult].
    simpl in Hresult.
    destruct (IH _ _ _ _ _ Hresult Hfind)
      as [Hhere | [before [p [after [-> [-> Hp]]]]]].
    + destruct (indexPairEqb (currentIndex, initialStateSize parameter) key) eqn:Hkey.
      * apply indexPairEqb_eq in Hkey. subst key.
        destruct current as [partial0 |]; simpl in Hhere.
        -- rewrite (mapFind_assign_same indexPairEqb indexPairEqb_eq) in Hhere.
           injection Hhere as ->.
           right. exists [], parameter, rest. simpl.
           repeat split; [f_equal; lia | exact Hcreate].
        -- left. exact Hhere.
      * left. rewrite mapFind_addIfNotNull_other in Hhere; [exact Hhere |].
        intro Heq. apply indexPairEqb_eq in Heq. congruence.
    + right. exists (parameter :: before), p, after. simpl.
      repeat split; [f_equal; lia | exact Hp].
Qed.

(** The loop after a prefix of the parameters. *)
Lemma initialStatePartialsLoop_app (before : list EstimatableParameter) :
  forall rest currentIndex observationPartials result,
    loop (before ++ rest) currentIndex observationPartials = Returned result ->
    exists collected,
      loop rest (currentIndex + totalInitialStateSize before)%Z collected
      = Returned result
      /\ forall key,
           (currentIndex + totalInitialStateSize before <= fst key)%Z ->
           mapFind indexPairEqb collected key
           = mapFind indexPairEqb observationPartials key.
Proof.
  induction before as [| parameter before' IH];
    intros rest currentIndex observationPartials result Hresult.
  - exists observationPartials. simpl. rewrite Z.add_0_r.
    split; [exact Hresult | reflexivity].
  - change ((parameter :: before') ++ rest) with (parameter :: (before' ++ rest))
      in Hresult.
    rewrite initialStatePartialsLoop_cons in Hresult.
    destruct (create parameter) as [current | e]; [| discriminate Hresult].
    simpl in Hresult.
    destruct (IH _ _ _ _ Hresult) as [collected [Hloop Hkeys]].
    pose proof (initialStateSize_positive parameter) as Hsize.
    assert (Htotal : (0 <= totalInitialStateSize before')%Z).
    { clear. induction before' as [| q l IHl]; simpl; [lia |].
      pose proof (initialStateSize_positive q). lia. }
    exists collected. simpl. split.
    + rewrite Z.add_assoc. exact Hloop.
    + intros key Hkey. rewrite Hkeys; [| lia].
      apply mapFind_addIfNotNull_other.
      intro Heq. rewrite <- Heq in Hkey. simpl in Hkey. lia.
Qed.

End InitialStateIndices.

(** X17.  In [createSingleLinkObservationPartials], when the loop over the initial
    state parameters returns, the partial of each parameter sits under the
    key (start, size), where size is 7 for a rotational state and 6
    otherwise and start is the sum of the sizes of all parameters before it,
    whether or not those produced a partial; a parameter without partial
    leaves its key empty; and the map holds nothing else. *)
Theorem initialStatePartials_indices `{EX : ObservationPartialExternals}
    (oneWayLinkEnds : LinkEnds) (bodies : SystemOfBodies)
    (positionScaling : OneWayLinkPositionPartialScaling)
    (lightTimeCorrectionPartialObjects : list LightTimeCorrectionPartial)
    (parameters : list EstimatableParameter) (result : ObservationPartialsMap)
    (Hresult : initialStatePartialsLoop oneWayLinkEnds bodies positionScaling
                 lightTimeCorrectionPartialObjects parameters 0 []
               = Returned result) :
  (forall before parameter after,
      parameters = before ++ parameter :: after ->
      exists current,
        createInitialStatePartial oneWayLinkEnds bodies positionScaling
          lightTimeCorrectionPartialObjects parameter = Returned current
        /\ mapFind indexPairEqb result
             (totalInitialStateSize before, initialStateSize parameter)
           = current)
  /\ (forall key partial,
        mapFind indexPairEqb result key = Some partial ->
        exists before parameter after,
          parameters = before ++ parameter :: after
          /\ key = (totalInitialStateSize before, initialStateSize parameter)
          /\ createInitialStatePartial oneWayLinkEnds bodies positionScaling
               lightTimeCorrectionPartialObjects parameter
             = Returned (Some partial)).
Proof.
  split.
  - intros before parameter after ->.
    destruct (initialStatePartialsLoop_app _ _ _ _ _ _ _ _ _ Hresult)
      as [collected [Hloop Hkeys]].
    rewrite Z.add_0_l in Hloop.
    rewrite initialStatePartialsLoop_cons in Hloop.
    destruct (createInitialStatePartial oneWayLinkEnds bodies positionScaling
                lightTimeCorrectionPartialObjects parameter)
      as [current | e]; [| discriminate Hloop].
    simpl in Hloop. exists current. split; [reflexivity |].
    pose proof (initialStateSize_positive parameter) as Hsize.
    rewrite (initialStatePartialsLoop_below _ _ _ _ _ _ _ _
               (totalInitialStateSize before, initialStateSize parameter) Hloop);
      [| simpl; lia].
    destruct current as [partial |]; simpl.
    + apply (mapFind_assign_same indexPairEqb indexPairEqb_eq).
    + rewrite Hkeys; [reflexivity | simpl; lia].
  - intros key partial Hfind.
    destruct (initialStatePartialsLoop_origin _ _ _ _ _ _ _ _ _ _ Hresult Hfind)
      as [Habs | [before [parameter [after [Hsplit [Hkey Hcreate]]]]]];
      [discriminate Habs |].
    exists before, parameter, after. simpl in Hkey.
    repeat split; assumption.
Qed.

(** ** [createObservationPartialsRefactor.h] on the example data *)

Lemma exampleRangeModels_keys : NoDup (map fst exampleRangeModels).
Proof.
  repeat constructor; simpl; intuition discriminate.
Defined.

Lemma exampleRangeModels_grouped :
  @getLightTimeCorrectionsList2 exampleObservationPartialExternals exampleRangeModels
  = Some (Returned exampleGroupedCorrections).
Proof. reflexivity. Defined.

Lemma getLightTimeCorrectionsList2_result_witness :
  exampleGroupedCorrections = [ (earthToProbe, [[11%nat; 12%nat]]) ]
  /\ singleLinkLightTimeCorrectionsOf exampleGroupedCorrections earthToProbe
     = [11%nat; 12%nat]
  /\ singleLinkLightTimeCorrectionsOf exampleGroupedCorrections marsToProbe = [].
Proof.
  split; [reflexivity |].
  pose proof (proj2 (@getLightTimeCorrectionsList2_result
                       exampleObservationPartialExternals exampleRangeModels
                       exampleGroupedCorrections exampleRangeModels_keys
                       exampleRangeModels_grouped)) as H.
  split.
  - apply (H earthToProbe (mkObservationModel one_way_range [11%nat; 12%nat])).
    simpl. left. reflexivity.
  - apply (H marsToProbe (mkObservationModel one_way_range [])).
    simpl. right. left. reflexivity.
Defined.

Lemma commonObservableType_after_light_time_corrections_witness :
  commonObservableTypeLoop exampleRangeModels undefined_observation_model
  = Returned one_way_range.
Proof.
  exact (proj1 (@commonObservableType_after_light_time_corrections
                  exampleObservationPartialExternals earthToProbe
                  (mkObservationModel one_way_range [11%nat; 12%nat])
                  [(marsToProbe, mkObservationModel one_way_range [])]
                  exampleGroupedCorrections exampleRangeModels_grouped)).
Defined.

Lemma examplePartialsList_returned :
  @createSingleLinkObservationPartialsListFromModels
    exampleObservationPartialExternals observationSize1 exampleRangeModels 0%nat
    exampleParameterSet true
  = Some (Returned examplePartialsList).
Proof. reflexivity. Defined.

Lemma createSingleLinkObservationPartialsListFromModels_returns_only_for_witness :
  forallb (fun entry => isModelOfSize observationSize1 (snd entry))
    exampleRangeModels = true
  /\ map fst examplePartialsList = [earthToProbe; marsToProbe]
  /\ ((observationSize1 = observationSize1
       /\ Forall (fun entry => getObservableType (snd entry) = one_way_range)
            exampleRangeModels
       /\ Forall (fun entry => snd (snd entry) = OneWayRangeScaling)
            examplePartialsList)
      \/ (observationSize1 = observationSize2
          /\ Forall (fun entry => getObservableType (snd entry) = angular_position)
               exampleRangeModels
          /\ Forall (fun entry => snd (snd entry) = AngularPositionScaling)
               examplePartialsList))
  /\ forallb (fun entry => isModelOfSize observationSize1 (snd entry))
       exampleDopplerModels = true
  /\ exampleDopplerModels <> []
  /\ Forall (fun entry => getObservableType (snd entry) = one_way_doppler)
       exampleDopplerModels
  /\ exists e,
       @createSingleLinkObservationPartialsListFromModels
         exampleObservationPartialExternals observationSize1 exampleDopplerModels
         0%nat exampleParameterSet true
       = Some (Thrown e).
Proof.
  assert (Hnonempty : exampleDopplerModels <> []) by discriminate.
  assert (Hdoppler :
            Forall (fun entry => getObservableType (snd entry) = one_way_doppler)
              exampleDopplerModels)
    by (repeat constructor).
  split; [reflexivity |].
  split; [reflexivity |].
  split.
  - exact (proj1 (@createSingleLinkObservationPartialsListFromModels_returns_only_for
                    exampleObservationPartialExternals observationSize1
                    exampleRangeModels 0%nat exampleParameterSet true eq_refl)
             examplePartialsList examplePartialsList_returned).
  - split; [reflexivity |]. split; [exact Hnonempty |]. split; [exact Hdoppler |].
    exact (proj2 (@createSingleLinkObservationPartialsListFromModels_returns_only_for
                    exampleObservationPartialExternals observationSize1
                    exampleDopplerModels 0%nat exampleParameterSet true eq_refl)
             Hnonempty Hdoppler).
Defined.

Lemma examplePartialsList_from_list :
  @createSingleLinkObservationPartialsList exampleObservationPartialExternals
    observationSize1 [earthToProbe; marsToProbe] one_way_range 0%nat
    exampleParameterSet exampleGroupedCorrections true
  = Returned examplePartialsList.
Proof. reflexivity. Defined.

Lemma createSingleLinkObservationPartialsList_result_witness :
  (In marsToProbe [earthToProbe; marsToProbe]
   <-> exists partials,
         mapFind linkEndsEqb examplePartialsList marsToProbe = Some partials)
  /\ (forall partials,
        mapFind linkEndsEqb examplePartialsList marsToProbe = Some partials ->
        @createSingleLinkObservationPartials exampleObservationPartialExternals
          observationSize1 marsToProbe one_way_range 0%nat exampleParameterSet
          (singleLinkLightTimeCorrectionsOf exampleGroupedCorrections marsToProbe)
          true = Returned partials).
Proof.
  exact (@createSingleLinkObservationPartialsList_result
           exampleObservationPartialExternals observationSize1
           [earthToProbe; marsToProbe] one_way_range 0%nat exampleParameterSet
           exampleGroupedCorrections true examplePartialsList
           examplePartialsList_from_list marsToProbe).
Defined.

Lemma exampleInitialStatePartials_returned :
  @initialStatePartialsLoop exampleObservationPartialExternals earthToProbe 0%nat
    OneWayRangeScaling [11%nat; 12%nat]
    (getEstimatedInitialStateParameters exampleParameterSet) 0 []
  = Returned exampleInitialStatePartials.
Proof. reflexivity. Defined.

Lemma initialStatePartials_indices_witness :
  map fst exampleInitialStatePartials = [ (0, 6)%Z; (13, 6)%Z ]
  /\ exists current,
       @createInitialStatePartial exampleObservationPartialExternals earthToProbe
         0%nat OneWayRangeScaling [11%nat; 12%nat] earthState = Returned current
       /\ mapFind indexPairEqb exampleInitialStatePartials (13, 6)%Z = current.
Proof.
  split; [reflexivity |].
  exact (proj1 (@initialStatePartials_indices exampleObservationPartialExternals
                  earthToProbe 0%nat OneWayRangeScaling [11%nat; 12%nat]
                  (getEstimatedInitialStateParameters exampleParameterSet)
                  exampleInitialStatePartials exampleInitialStatePartials_returned)
           [probeState; moonRotation] earthState [] eq_refl).
Defined.

(** ** [PolyhedronGravityField]: the cache and the shape *)

Section CacheAndShape.

Context `{CM : CMath} `{DE : DeclaredEvaluators}.

Import PolyhedronGravityField.

(** X1.  The cache of a field describes the shape of the field: after
    construction and after any sequence of evaluator calls, the vertex, facet
    and edge matrices held by the cache are the ones the field's accessors
    return. *)
Theorem cache_describes_the_field
    (a : arguments) (calls : list (Evaluator * Vector3d)) :
  let f := afterCalls (init a) calls in
  cacheShapeOf (polyhedronGravityCache_ f)
  = (getVerticesCoordinates f, getVerticesDefiningEachFacet f,
     getVerticesDefiningEachEdge f).
Proof.
  intro f. subst f.
  rewrite reachable_cache_shape.
  pose proof (reachable_shape a calls) as Hs. unfold shapeOf in Hs.
  injection Hs as _ _ Hv Hf He _ _ _.
  unfold getVerticesCoordinates, getVerticesDefiningEachFacet,
    getVerticesDefiningEachEdge.
  congruence.
Qed.

(** X2.  Which evaluator is called does not matter for the object: two sequences
    of evaluator calls at the same positions leave the same field and the
    same cache. *)
Theorem afterCalls_positions_only
    (f : t) (calls calls' : list (Evaluator * Vector3d))
    (Hpositions : map snd calls = map snd calls') :
  afterCalls f calls = afterCalls f calls'.
Proof.
  revert f calls' Hpositions.
  induction calls as [| [e p] rest IH]; intros f [| [e' p'] rest'] Hpositions;
    try discriminate Hpositions.
  - reflexivity.
  - simpl in Hpositions. injection Hpositions as -> Hrest.
    simpl.
    fold (objectAfter (evaluate e f p')). fold (objectAfter (evaluate e' f p')).
    rewrite !evaluate_frame. apply IH. exact Hrest.
Qed.

End CacheAndShape.

Lemma afterCalls_positions_only_witness :
  let f := PolyhedronGravityField.init brokenArguments in
  @PolyhedronGravityField.afterCalls exampleCMath exampleDeclaredEvaluators f
    [ (PolyhedronGravityField.GravitationalPotential, mkVector3d 2 2 2);
      (PolyhedronGravityField.HessianOfPotential, mkVector3d 3 0 0) ]
  = @PolyhedronGravityField.afterCalls exampleCMath exampleDeclaredEvaluators f
      [ (PolyhedronGravityField.LaplacianOfPotential, mkVector3d 2 2 2);
        (PolyhedronGravityField.GradientOfPotential, mkVector3d 3 0 0) ].
Proof.
  intro f.
  apply (@afterCalls_positions_only exampleCMath exampleDeclaredEvaluators).
  reflexivity.
Defined.

(** ** [createSingleLinkObservationPartials]: keys and identifiers *)

Section SingleLinkPartials.

Context `{EX : ObservationPartialExternals}.

Lemma mapAssign_key_in {K V : Type} (keyEqb : K -> K -> bool)
    (m : list (K * V)) (k k' : K) (v : V) :
  In k' (map fst (mapAssign keyEqb m k v)) -> k' = k \/ In k' (map fst m).
Proof.
  rewrite mapAssign_keys.
  destruct (existsb _ _); [right; assumption |].
  intro H. apply in_app_or in H as [H | [H | []]]; [right | left]; auto.
Qed.

Lemma addIfNotNull_key_in (observationPartials : ObservationPartialsMap)
    (currentPair key : Z * Z) (current : option ObservationPartial) :
  In key (map fst (addIfNotNull observationPartials currentPair current)) ->
  key = currentPair \/ In key (map fst observationPartials).
Proof.
  destruct current as [partial |]; simpl; [apply mapAssign_key_in | right; assumption].
Qed.

Lemma mapFind_of_key {K V : Type} (keyEqb : K -> K -> bool)
    (keyEqb_eq : forall a b, keyEqb a b = true <-> a = b)
    (m : list (K * V)) (k : K) :
  In k (map fst m) -> exists v, mapFind keyEqb m k = Some v.
Proof.
  intro Hin. destruct (mapFind keyEqb m k) as [v |] eqn:Hfind; [exists v; reflexivity |].
  apply (mapFind_absent keyEqb keyEqb_eq) in Hfind. contradiction.
Qed.

Lemma doubleParameterPartialsLoop_keys
    (oneWayLinkEnds : LinkEnds) (bodies : SystemOfBodies)
    (positionScaling : OneWayLinkPositionPartialScaling)
    (objects : list LightTimeCorrectionPartial)
    (remaining : list (Z * EstimatableParameter)) :
  forall observationPartials result key,
    doubleParameterPartialsLoop oneWayLinkEnds bodies positionScaling objects
      remaining observationPartials = Returned result ->
    In key (map fst result) ->
    In key (map fst observationPartials)
    \/ exists index parameter,
         In (index, parameter) remaining /\ key = (index, 1%Z).
Proof.
  induction remaining as [| [index parameter] rest IH];
    intros observationPartials result key Hresult Hkey.
  - simpl in Hresult. injection Hresult as <-. left. exact Hkey.
  - simpl in Hresult.
    apply outcomeBind_returned in Hresult as [current [_ Hresult]].
    destruct (IH _ _ _ Hresult Hkey) as [Hhere | [i [q [Hin ->]]]].
    + apply addIfNotNull_key_in in Hhere as [-> | Hold]; [| left; exact Hold].
      right. exists index, parameter. split; [left; reflexivity | reflexivity].
    + right. exists i, q. split; [right; exact Hin | reflexivity].
Qed.

Lemma vectorParameterPartialsLoop_keys
    (observationSize : ObservationSize)
    (oneWayLinkEnds : LinkEnds) (observableType : ObservableType)
    (bodies : SystemOfBodies)
    (positionScaling : OneWayLinkPositionPartialScaling)
    (objects : list LightTimeCorrectionPartial) (useBiasPartials : bool)
    (remaining : list (Z * EstimatableParameter)) :
  forall observationPartials result key,
    vectorParameterPartialsLoop observationSize oneWayLinkEnds observableType bodies
      positionScaling objects useBiasPartials remaining observationPartials
    = Returned result ->
    In key (map fst result) ->
    In key (map fst observationPartials)
    \/ exists index parameter,
         In (index, parameter) remaining
         /\ key = (index, getParameterSize parameter).
Proof.
  induction remaining as [| [index parameter] rest IH];
    intros observationPartials result key Hresult Hkey.
  - simpl in Hresult. injection Hresult as <-. left. exact Hkey.
  - simpl in Hresult.
    apply outcomeBind_returned in Hresult as [current [_ Hresult]].
    destruct (IH _ _ _ Hresult Hkey) as [Hhere | [i [q [Hin ->]]]].
    + apply addIfNotNull_key_in in Hhere as [-> | Hold]; [| left; exact Hold].
      right. exists index, parameter. split; [left; reflexivity | reflexivity].
    + right. exists i, q. split; [right; exact Hin | reflexivity].
Qed.

(** X18.  When [createSingleLinkObservationPartials] returns, every key of its map
    is accounted for: it is the (start, size) of an initial state parameter,
    with start the sum of the sizes before it, or (index, 1) of a double
    parameter, or (index, parameter size) of a vector parameter; and the
    scaling object is the one of the observation size, which the observable
    type fits. *)
Theorem createSingleLinkObservationPartials_keys
    (observationSize : ObservationSize) (oneWayLinkEnds : LinkEnds)
    (observableType : ObservableType) (bodies : SystemOfBodies)
    (parametersToEstimate : EstimatableParameterSet)
    (lightTimeCorrections : list LightTimeCorrection) (useBiasPartials : bool)
    (partials : ObservationPartialsMap)
    (scaling : OneWayLinkPositionPartialScaling)
    (Hreturned : createSingleLinkObservationPartials observationSize oneWayLinkEnds
                   observableType bodies parametersToEstimate lightTimeCorrections
                   useBiasPartials = Returned (partials, scaling)) :
  (forall key,
      In key (map fst partials) ->
      (exists before parameter after,
          getEstimatedInitialStateParameters parametersToEstimate
          = before ++ parameter :: after
          /\ key = (totalInitialStateSize before, initialStateSize parameter))
      \/ (exists index parameter,
             In (index, parameter) (getDoubleParameters parametersToEstimate)
             /\ key = (index, 1%Z))
      \/ (exists index parameter,
             In (index, parameter) (getVectorParameters parametersToEstimate)
             /\ key = (index, getParameterSize parameter)))
  /\ ((observationSize = observationSize1 /\ observableType = one_way_range
       /\ scaling = OneWayRangeScaling)
      \/ (observationSize = observationSize2 /\ observableType = angular_position
          /\ scaling = AngularPositionScaling)).
Proof.
  split.
  - intros key Hkey.
    unfold createSingleLinkObservationPartials in Hreturned.
    apply outcomeBind_returned in Hreturned as [objects [_ H]].
    apply outcomeBind_returned in H as [scaling' [_ H]].
    apply outcomeBind_returned in H as [p1 [Hinitial H]].
    apply outcomeBind_returned in H as [p2 [Hdouble H]].
    apply outcomeBind_returned in H as [p3 [Hvector H]].
    injection H as <- _.
    destruct (vectorParameterPartialsLoop_keys _ _ _ _ _ _ _ _ _ _ _ Hvector Hkey)
      as [Hkey2 | Hfromvector]; [| right; right; exact Hfromvector].
    destruct (doubleParameterPartialsLoop_keys _ _ _ _ _ _ _ _ Hdouble Hkey2)
      as [Hkey1 | Hfromdouble]; [| right; left; exact Hfromdouble].
    left.
    destruct (mapFind_of_key indexPairEqb indexPairEqb_eq _ _ Hkey1)
      as [partial Hfind].
    destruct (initialStatePartialsLoop_origin _ _ _ _ _ _ _ _ _ _ Hinitial Hfind)
      as [Habs | [before [parameter [after [Hsplit [Hk _]]]]]];
      [discriminate Habs |].
    exists before, parameter, after. split; [exact Hsplit | exact Hk].
  - apply createPositionScalingObject_returned with (linkEnds := oneWayLinkEnds).
    exact (createSingleLinkObservationPartials_returned _ _ _ _ _ _ _ _ _ Hreturned).
Qed.

Lemma initialStatePartialsLoop_NoDup
    (oneWayLinkEnds : LinkEnds) (bodies : SystemOfBodies)
    (positionScaling : OneWayLinkPositionPartialScaling)
    (objects : list LightTimeCorrectionPartial)
    (remaining : list EstimatableParameter) :
  forall currentIndex collected result,
    initialStatePartialsLoop oneWayLinkEnds bodies positionScaling objects
      remaining currentIndex collected = Returned result ->
    NoDup (map fst collected) -> NoDup (map fst result).
Proof.
  induction remaining as [| parameter rest IH];
    intros currentIndex collected result Hresult Hkeys.
  - simpl in Hresult. injection Hresult as <-. exact Hkeys.
  - rewrite initialStatePartialsLoop_cons in Hresult.
    apply outcomeBind_returned in Hresult as [current [_ Hresult]].
    apply (IH _ _ _ Hresult).
    destruct current as [partial |]; simpl; [| exact Hkeys].
    apply (mapAssign_NoDup indexPairEqb indexPairEqb_eq). exact Hkeys.
Qed.

(** X19.  Every partial the loop over the initial state parameters stores is
    labelled with the parameter type initial_body_state and the name of its
    body, also when its parameter is an arc-wise or a rotational state; its
    scaling object and light-time correction partials are the ones of the
    call, and it has at least one position partial. *)
Theorem initialStatePartials_identifiers
    (oneWayLinkEnds : LinkEnds) (bodies : SystemOfBodies)
    (positionScaling : OneWayLinkPositionPartialScaling)
    (objects : list LightTimeCorrectionPartial)
    (parameters : list EstimatableParameter) (result : ObservationPartialsMap)
    (Hresult : initialStatePartialsLoop oneWayLinkEnds bodies positionScaling
                 objects parameters 0 [] = Returned result) :
  forall key partial,
    In (key, partial) result ->
    exists parameter made,
      In parameter parameters
      /\ snd key = initialStateSize parameter
      /\ partial = oneWayLinkPartial made
      /\ parameterIdentifier made
         = (initial_body_state, (fst (snd (getParameterName parameter)), ""%string))
      /\ positionPartialScaler made = positionScaling
      /\ lighTimeCorrectionPartials made = objects
      /\ positionPartialList made <> [].
Proof.
  intros key partial Hin.
  pose proof (initialStatePartialsLoop_NoDup _ _ _ _ _ _ _ _ Hresult (NoDup_nil _))
    as Hkeys.
  pose proof (mapFind_In indexPairEqb indexPairEqb_eq _ _ _ Hkeys Hin) as Hfind.
  destruct (initialStatePartialsLoop_origin _ _ _ _ _ _ _ _ _ _ Hresult Hfind)
    as [Habs | [before [parameter [after [-> [-> Hcreate]]]]]];
    [discriminate Habs |].
  unfold createInitialStatePartial in Hcreate.
  assert (Hmade :
            exists positionPartials,
              positionPartials <> []
              /\ partial
                 = oneWayLinkPartial
                     (mkOneWayLinkObservationPartial positionScaling positionPartials
                        (initial_body_state,
                         (fst (snd (getParameterName parameter)), ""%string))
                        objects)).
  { unfold createObservationPartialWrtBodyPosition,
      createObservationPartialWrtBodyRotationalState in Hcreate.
    destruct (fst (getParameterName parameter)); try discriminate Hcreate;
      apply outcomeBind_returned in Hcreate as [positionPartials [_ Hmade]];
      (destruct positionPartials as [| x l]; simpl in Hmade;
       [discriminate Hmade |]);
      injection Hmade as <-; exists (x :: l); (split; [discriminate | reflexivity]). }
  destruct Hmade as [positionPartials [Hnonempty ->]].
  eexists parameter, _. split; [apply in_or_app; right; left; reflexivity |].
  repeat split. exact Hnonempty.
Qed.

End SingleLinkPartials.

Lemma exampleSingleLinkPartials_returned :
  @createSingleLinkObservationPartials exampleObservationPartialExternals
    observationSize1 earthToProbe one_way_range 0%nat exampleParameterSet
    [11%nat; 12%nat] true
  = Returned (exampleSingleLinkPartials, OneWayRangeScaling).
Proof. reflexivity. Defined.

Lemma createSingleLinkObservationPartials_keys_witness :
  map fst exampleSingleLinkPartials = [ (0, 6)%Z; (13, 6)%Z ]
  /\ (forall key,
        In key (map fst exampleSingleLinkPartials) ->
        (exists before parameter after,
            getEstimatedInitialStateParameters exampleParameterSet
            = before ++ parameter :: after
            /\ key = (totalInitialStateSize before, initialStateSize parameter))
        \/ (exists index parameter,
               In (index, parameter) (getDoubleParameters exampleParameterSet)
               /\ key = (index, 1%Z))
        \/ (exists index parameter,
               In (index, parameter) (getVectorParameters exampleParameterSet)
               /\ key = (index, getParameterSize parameter))).
Proof.
  split; [reflexivity |].
  exact (proj1 (@createSingleLinkObservationPartials_keys
                  exampleObservationPartialExternals observationSize1 earthToProbe
                  one_way_range 0%nat exampleParameterSet [11%nat; 12%nat] true
                  exampleSingleLinkPartials OneWayRangeScaling
                  exampleSingleLinkPartials_returned)).
Defined.

Lemma initialStatePartials_identifiers_witness :
  forallb
    (fun entry =>
       match snd entry with
       | oneWayLinkPartial made =>
           match fst (parameterIdentifier made) with
           | initial_body_state => true
           | _ => false
           end
       | linkPropertyPartial _ => false
       end)
    exampleInitialStatePartials = true
  /\ forall key partial,
       In (key, partial) exampleInitialStatePartials ->
       exists parameter made,
         In parameter (getEstimatedInitialStateParameters exampleParameterSet)
         /\ snd key = initialStateSize parameter
         /\ partial = oneWayLinkPartial made
         /\ parameterIdentifier made
            = (initial_body_state,
               (fst (snd (getParameterName parameter)), ""%string))
         /\ positionPartialScaler made = OneWayRangeScaling
         /\ lighTimeCorrectionPartials made = [11%nat; 12%nat]
         /\ positionPartialList made <> [].
Proof.
  split; [reflexivity |].
  exact (@initialStatePartials_identifiers exampleObservationPartialExternals
           earthToProbe 0%nat OneWayRangeScaling [11%nat; 12%nat]
           (getEstimatedInitialStateParameters exampleParameterSet)
           exampleInitialStatePartials exampleInitialStatePartials_returned).
Defined.
